(** * project-dnd: the repository layer and the transactional workflows

    A shallow embedding of [src/services/crudOperations.js] (class
    [CRUDOperations]) and [src/services/transactionService.js] (class
    [TransactionService]), with the MongoDB driver they call modelled as a
    document store with one optional open transaction; then the connection
    singleton of [config/database.js], and the level arithmetic of
    [utils/game.ts] with its use in [hooks/useGameData.ts].

    Conventions of the embedding:
    - JavaScript numbers are IEEE 754 doubles.  Stock quantities, counters
      and money (counted in minor units) are kept as the integers they hold
      ([Z]), with the arithmetic of [Z].  The code computes the same sums
      and products as long as the operands and the result are safe integers
      ([safe]: at most [2^53 - 1] in absolute value); beyond that it rounds.
      A statement that gives the value of a sum, a difference or a product
      therefore assumes that these numbers are safe; comparisons, control
      flow and the shape of the store do not depend on it.  The one division
      of the code (the percentage of a price change) is computed in
      binary64 ([jsnum]).
    - [async]/[await] is sequential composition: one client, no
      interleaving.
    - [console.log]/[console.error] are not modelled, so a
      [try { ... } catch (error) { console.error(...); throw error; }]
      wrapper is the identity on its body. *)

From Stdlib Require Import ZArith QArith Qround Lia Ascii String.
From Stdlib Require SpecFloat.
From stdpp Require Import sorting base option list strings gmap numbers.

Local Open Scope Z_scope.

(** ** Identifiers, errors, numbers *)

(** A BSON [ObjectId] is a 12-byte value, kept as the number it encodes. *)
Abbreviation ObjectId := N (only parsing).

(** A client session handle ([dbConnection.client.startSession()]). *)
Abbreviation Session := N (only parsing).

(** A reference to a JavaScript object of the caller (an order item). *)
Abbreviation loc := N (only parsing).

(** What a caller may pass where an identifier is expected: an [ObjectId]
    instance, a string, or any other value ([undefined], a number, ...). *)
Inductive jsid :=
  | IdObj (o : ObjectId)
  | IdStr (s : string)
  | IdOther.

(** The errors thrown by the two services, by kind.  Each constructor stands
    for the [new Error(message)] given beside it.
    - [InvalidIdentifier]: "Invalid ObjectId: ..."           (toObjectId)
    - [NotFound what]: "User not found", "Product ... not found",
      "Source user not found", "Destination user not found",
      "Order not found"; [what] is the message without the interpolated id
    - [OutOfStock]: "Insufficient stock for product ..."
    - [InsufficientFunds]: "Insufficient balance. ..."
    - [AlreadyCancelled]: "Order is already cancelled"
    - [NotCancellable]: "Cannot cancel shipped or delivered orders"
    - [InvalidAmount]: "Transfer amount must be positive"
    - [InvalidPrice]: "Invalid price for product ..."
    - [WriteNotAcknowledged]: "Document creation was not acknowledged"
    - [TypeError]: a property read on [undefined] or [null]
    - [DuplicateKey]: the driver's "E11000 duplicate key error" *)
Inductive Error :=
  | InvalidIdentifier
  | NotFound (what : string)
  | OutOfStock
  | InsufficientFunds
  | AlreadyCancelled
  | NotCancellable
  | InvalidAmount
  | InvalidPrice
  | WriteNotAcknowledged
  | TypeError
  | DuplicateKey.

#[global] Instance Error_eq_dec : EqDecision Error.
Proof. solve_decision. Defined.

(** [Number.MAX_SAFE_INTEGER] and [Number.isSafeInteger]: the integers
    between [-(2^53 - 1)] and [2^53 - 1] are numbers of JavaScript, and [+],
    [-] and [*] on them give the integer result whenever that result is a
    safe integer too. *)
Definition MAX_SAFE_INTEGER : Z := 2 ^ 53 - 1.

Definition safe (z : Z) : Prop :=
  - MAX_SAFE_INTEGER ≤ z ≤ MAX_SAFE_INTEGER.

#[global] Instance safe_dec (z : Z) : Decision (safe z).
Proof. unfold safe. apply _. Defined.

(** The sums [x + d1], [x + d1 + d2], ... of a number [x] that is
    incremented in turn by [d1], [d2], ...: the increments and every sum on
    the way are safe integers, so each addition of the code gives the
    integer sum. *)
Fixpoint sums_safe (x : Z) (ds : list Z) : Prop :=
  safe x
  ∧ match ds with
    | [] => True
    | d :: ds => safe d ∧ sums_safe (x + d) ds
    end.

#[global] Instance sums_safe_dec (x : Z) (ds : list Z) :
  Decision (sums_safe x ds).
Proof.
  revert x. induction ds as [|d ds IH]; intros x; simpl; apply _.
Defined.

(** A number that is not kept as an integer: an IEEE 754 binary64 value,
    as every [number] of JavaScript is. *)
Definition jsnum : Type := SpecFloat.spec_float.

Definition PosInfinity : jsnum := SpecFloat.S754_infinity false.
Definition NegInfinity : jsnum := SpecFloat.S754_infinity true.
Definition NotANumber : jsnum := SpecFloat.S754_nan.

(** The number an integer-valued field or literal holds: the double nearest
    to [z] (ties to even), which is [z] itself when [z] is a safe
    integer. *)
Definition number (z : Z) : jsnum :=
  SpecFloat.binary_normalize 53 1024 z 0 false.

(** [x - y], [x / y] and [x * y]: the operations of IEEE 754 on binary64,
    rounding to nearest, ties to even. *)
Definition js_sub (x y : jsnum) : jsnum := SpecFloat.SFsub 53 1024 x y.

Definition js_div (x y : jsnum) : jsnum := SpecFloat.SFdiv 53 1024 x y.

Definition js_mul (x y : jsnum) : jsnum := SpecFloat.SFmul 53 1024 x y.

(** [Number.isFinite] *)
Definition is_finite (x : jsnum) : bool :=
  match x with
  | SpecFloat.S754_zero _ | SpecFloat.S754_finite _ _ _ => true
  | SpecFloat.S754_infinity _ | SpecFloat.S754_nan => false
  end.

(** The rational a finite number stands for. *)
Definition value (x : jsnum) : option Q :=
  match x with
  | SpecFloat.S754_zero _ => Some 0%Q
  | SpecFloat.S754_finite s m e =>
      Some ((if s then -1 else 1) * inject_Z (Z.pos m) * (2 ^ e))%Q
  | SpecFloat.S754_infinity _ | SpecFloat.S754_nan => None
  end.

(** ** Documents (spec section 3) *)

(** An entry of [User.transactions]. [le_id] is the correlation identifier
    [new Date().getTime().toString()]: the number stands for its decimal
    rendering. *)
Record LedgerEntry := {
  le_id : Z;
  le_type : string;
  le_amount : Z;
  le_toUserId : option jsid;
  le_fromUserId : option jsid;
  le_description : string;
  le_timestamp : Z;
  le_status : string
}.

Record User := {
  u_name : string;
  u_email : string;
  balance : Z;
  u_status : string;
  orderHistory : list ObjectId;
  transactions : list LedgerEntry;
  totalOrders : Z;
  totalSpent : Z;
  cancelledOrders : Z;
  u_createdAt : Z;
  u_updatedAt : Z
}.

(** An entry of [Product.stockHistory]. *)
Record StockEvent := {
  se_orderId : ObjectId;
  se_change : Z;
  se_timestamp : Z;
  se_reason : string
}.

(** An entry of [Product.priceHistory]. *)
Record PriceEvent := {
  oldPrice : Z;
  newPrice : Z;
  change : Z;
  changePercent : jsnum;
  pe_reason : string;
  pe_timestamp : Z;
  updatedBy : string
}.

Record Product := {
  p_name : string;
  price : Z;
  stock : Z;
  stockHistory : list StockEvent;
  priceHistory : list PriceEvent;
  p_createdAt : Z;
  p_updatedAt : Z
}.

(** An order item, as the caller's object and as embedded in an order:
    [price] and [total] are absent until [processOrder] assigns them. *)
Record Item := {
  productId : jsid;
  quantity : Z;
  i_price : option Z;
  i_total : option Z
}.

Record Order := {
  userId : jsid;
  items : list Item;
  total : Z;
  status : string;
  cancelledAt : option Z;
  cancellationReason : option string;
  o_createdAt : Z;
  o_updatedAt : Z
}.

(** A document of the profiles: [userId] is whatever the caller's
    [profileData] gave under that name, or else the identifier of the
    user. *)
Record Profile := {
  pf_userId : jsid;
  pf_data : string;
  pf_createdAt : Z;
  pf_updatedAt : Z
}.

(** ** The store and the world *)

(** The four collections the services use. *)
Record Store := {
  users : gmap ObjectId User;
  orders : gmap ObjectId Order;
  products : gmap ObjectId Product;
  profiles : gmap ObjectId Profile
}.

(** What the driver is asked to do, in order.  A store access records the
    collection name, the document identifier and the [session] option it was
    given. *)
Inductive Event :=
  | EvStartSession (s : Session)
  | EvStartTransaction (s : Session)
  | EvCommit (s : Session)
  | EvAbort (s : Session)
  | EvEndSession (s : Session)
  | EvGetCollection (c : string)
  | EvFindOne (c : string) (id : ObjectId) (session : option Session)
  | EvInsertOne (c : string) (id : ObjectId) (session : option Session)
  | EvFindOneAndUpdate (c : string) (id : ObjectId) (session : option Session)
  | EvFindOneAndDelete (c : string) (id : ObjectId) (session : option Session).

(** Everything a workflow can read or change:
    - [committed]: the documents every client sees;
    - [txn]: the open transaction, if any: its session and its working copy
      of the store, which [commit] publishes and [abort] drops;
    - [heap]: the caller's JavaScript objects passed by reference;
    - [now]: the clock; each [new Date()] reads it and moves it on;
    - [nextSession]: the next session handle;
    - [trace]: the driver calls made so far, oldest first. *)
Record World := {
  committed : Store;
  txn : option (Session * Store);
  heap : gmap loc Item;
  now : Z;
  nextSession : Session;
  trace : list Event
}.

Definition set_committed (st : Store) (w : World) : World :=
  {| committed := st; txn := txn w; heap := heap w; now := now w;
     nextSession := nextSession w; trace := trace w |}.

Definition set_txn (t : option (Session * Store)) (w : World) : World :=
  {| committed := committed w; txn := t; heap := heap w; now := now w;
     nextSession := nextSession w; trace := trace w |}.

Definition set_heap (h : gmap loc Item) (w : World) : World :=
  {| committed := committed w; txn := txn w; heap := h; now := now w;
     nextSession := nextSession w; trace := trace w |}.

Definition set_now (t : Z) (w : World) : World :=
  {| committed := committed w; txn := txn w; heap := heap w; now := t;
     nextSession := nextSession w; trace := trace w |}.

Definition set_nextSession (s : Session) (w : World) : World :=
  {| committed := committed w; txn := txn w; heap := heap w; now := now w;
     nextSession := s; trace := trace w |}.

Definition log (e : Event) (w : World) : World :=
  {| committed := committed w; txn := txn w; heap := heap w; now := now w;
     nextSession := nextSession w; trace := trace w ++ [e] |}.

(** ** The monad of the services: state and exceptions *)

Inductive Res (A : Type) :=
  | Ok (a : A)
  | Throw (e : Error).
Arguments Ok {A} a.
Arguments Throw {A} e.

(** A thrown exception keeps the world as it is at the [throw]: only the
    driver's [abort] undoes anything. *)
Definition M (A : Type) : Type := World → Res A * World.

#[global] Instance M_ret : MRet M := λ A a w, (Ok a, w).

#[global] Instance M_bind : MBind M := λ A B f m w,
  match m w with
  | (Ok a, w') => f a w'
  | (Throw e, w') => (Throw e, w')
  end.

Definition throw {A} (e : Error) : M A := λ w, (Throw e, w).

(** [try { body } finally { cleanup }] *)
Definition try_finally {A} (body : M A) (cleanup : M unit) : M A := λ w,
  match body w with
  | (r, w') =>
      match cleanup w' with
      | (Ok _, w'') => (r, w'')
      | (Throw e, w'') => (Throw e, w'')
      end
  end.

(** [new Date()] *)
Definition newDate : M Z := λ w, (Ok (now w), set_now (now w + 1) w).

(** Reading the caller's object behind a reference; an [undefined] array
    element makes the property read throw. *)
Definition deref (l : loc) : M Item := λ w,
  match heap w !! l with
  | Some it => (Ok it, w)
  | None => (Throw TypeError, w)
  end.

(** Assigning fields of the caller's object in place. *)
Definition assign (l : loc) (f : Item → Item) : M unit := λ w,
  (Ok tt, set_heap (alter f l (heap w)) w).

(** ** Identity handling ([crudOperations.js], lines 25-38) *)

Definition is_lower_hex (c : ascii) : bool :=
  let n := N_of_ascii c in
  (((48 <=? n) && (n <=? 57)) || ((97 <=? n) && (n <=? 102)))%N.

Definition hex_digit (c : ascii) : N :=
  let n := N_of_ascii c in
  (if n <=? 57 then n - 48 else n - 87)%N.

Fixpoint hex_value (acc : N) (s : string) : N :=
  match s with
  | EmptyString => acc
  | String c rest => hex_value (16 * acc + hex_digit c)%N rest
  end.

(** [ObjectId.isValid(id) && String(new ObjectId(id)) === id]: the driver
    renders an [ObjectId] as 24 lower-case hexadecimal digits, so the
    comparison holds exactly for the strings of that form. *)
Definition isValidObjectId (id : jsid) : bool :=
  match id with
  | IdStr s =>
      bool_decide (String.length s = 24%nat)
      && forallb is_lower_hex (list_ascii_of_string s)
  | IdObj _ => false
  | IdOther => false
  end.

(** [new ObjectId(id)] on a string that passed the check. *)
Definition new_ObjectId (id : jsid) : ObjectId :=
  match id with
  | IdObj o => o
  | IdStr s => hex_value 0 s
  | IdOther => 0%N
  end.

(** [toObjectId(id)] (line 34): an [ObjectId] instance is returned as it
    is, a valid string is converted, anything else throws. *)
Definition toObjectId (id : jsid) : M ObjectId :=
  match id with
  | IdObj o => mret o
  | _ =>
      if isValidObjectId id then mret (new_ObjectId id)
      else throw InvalidIdentifier
  end.

(** ** Collections *)

(** One instance per collection: the name given to [new CRUDOperations(..)],
    where its documents live in the store, how the two timestamps every
    document carries are written, and the value of a document under the
    unique index of the collection, if it has one besides that of [_id].
    The application sets up one such index ([setupIndexes], [index.js] line
    57): [{ key: { email: 1 }, unique: true }] on the users. *)
Class Document (D : Type) := {
  collectionName : string;
  table : Store → gmap ObjectId D;
  set_table : gmap ObjectId D → Store → Store;
  stamp_createdAt : Z → D → D;
  stamp_updatedAt : Z → D → D;
  unique_key : D → option string
}.
Arguments collectionName D {_}.

#[global] Instance User_document : Document User := {|
  collectionName := "users";
  table := users;
  set_table m st :=
    {| users := m; orders := orders st; products := products st;
       profiles := profiles st |};
  stamp_createdAt t u :=
    {| u_name := u_name u; u_email := u_email u; balance := balance u;
       u_status := u_status u; orderHistory := orderHistory u;
       transactions := transactions u; totalOrders := totalOrders u;
       totalSpent := totalSpent u; cancelledOrders := cancelledOrders u;
       u_createdAt := t; u_updatedAt := u_updatedAt u |};
  stamp_updatedAt t u :=
    {| u_name := u_name u; u_email := u_email u; balance := balance u;
       u_status := u_status u; orderHistory := orderHistory u;
       transactions := transactions u; totalOrders := totalOrders u;
       totalSpent := totalSpent u; cancelledOrders := cancelledOrders u;
       u_createdAt := u_createdAt u; u_updatedAt := t |};
  unique_key u := Some (u_email u)
|}.

#[global] Instance Order_document : Document Order := {|
  collectionName := "orders";
  table := orders;
  set_table m st :=
    {| users := users st; orders := m; products := products st;
       profiles := profiles st |};
  stamp_createdAt t o :=
    {| userId := userId o; items := items o; total := total o;
       status := status o; cancelledAt := cancelledAt o;
       cancellationReason := cancellationReason o;
       o_createdAt := t; o_updatedAt := o_updatedAt o |};
  stamp_updatedAt t o :=
    {| userId := userId o; items := items o; total := total o;
       status := status o; cancelledAt := cancelledAt o;
       cancellationReason := cancellationReason o;
       o_createdAt := o_createdAt o; o_updatedAt := t |};
  unique_key _ := None
|}.

#[global] Instance Product_document : Document Product := {|
  collectionName := "products";
  table := products;
  set_table m st :=
    {| users := users st; orders := orders st; products := m;
       profiles := profiles st |};
  stamp_createdAt t p :=
    {| p_name := p_name p; price := price p; stock := stock p;
       stockHistory := stockHistory p; priceHistory := priceHistory p;
       p_createdAt := t; p_updatedAt := p_updatedAt p |};
  stamp_updatedAt t p :=
    {| p_name := p_name p; price := price p; stock := stock p;
       stockHistory := stockHistory p; priceHistory := priceHistory p;
       p_createdAt := p_createdAt p; p_updatedAt := t |};
  unique_key _ := None
|}.

#[global] Instance Profile_document : Document Profile := {|
  collectionName := "profiles";
  table := profiles;
  set_table m st :=
    {| users := users st; orders := orders st; products := products st;
       profiles := m |};
  stamp_createdAt t p :=
    {| pf_userId := pf_userId p; pf_data := pf_data p;
       pf_createdAt := t; pf_updatedAt := pf_updatedAt p |};
  stamp_updatedAt t p :=
    {| pf_userId := pf_userId p; pf_data := pf_data p;
       pf_createdAt := pf_createdAt p; pf_updatedAt := t |};
  unique_key _ := None
|}.

(** Writing back the table just read changes nothing. *)
Class LawfulDocument (D : Type) `{Document D} := {
  set_table_table : ∀ st, set_table (table (D:=D) st) st = st
}.

#[global] Instance User_lawful : LawfulDocument User.
Proof. split. by intros []. Qed.

#[global] Instance Order_lawful : LawfulDocument Order.
Proof. split. by intros []. Qed.

#[global] Instance Product_lawful : LawfulDocument Product.
Proof. split. by intros []. Qed.

#[global] Instance Profile_lawful : LawfulDocument Profile.
Proof. split. by intros []. Qed.

(** ** The driver

    The MongoDB collection and session methods the services call, for one
    client and a store that acknowledges every write.  An operation given
    the session of the open transaction reads and writes the transaction's
    working copy.  An operation given no session reads the committed store;
    if it writes, the write is committed at once (no later abort undoes it)
    and the open transaction sees it too.  The driver is taken in its
    versions 6 and later, where [session.withTransaction] returns the result
    of its callback (which it runs once) and where [findOneAndUpdate] and
    [findOneAndDelete] return the document itself, or [null] when none
    matches. *)

Definition view (session : option Session) (w : World) : Store :=
  match session, txn w with
  | Some s, Some (s', st) => if decide (s = s') then st else committed w
  | _, _ => committed w
  end.

Definition write (session : option Session) (f : Store → Store) (w : World)
    : World :=
  match txn w with
  | Some (s', st) =>
      if decide (session = Some s') then set_txn (Some (s', f st)) w
      else set_txn (Some (s', f st)) (set_committed (f (committed w)) w)
  | None => set_committed (f (committed w)) w
  end.

(** The identifiers in use in a collection, committed or not. *)
Definition ids_in_use `{Document D} (w : World) : gset ObjectId :=
  dom (table (D:=D) (committed w))
  ∪ match txn w with
    | Some (_, st) => dom (table (D:=D) st)
    | None => ∅
    end.

(** [collection.findOne({ _id }, options)]: the document with its [_id], or
    [null]. *)
Definition findOne `{Document D} (id : ObjectId) (session : option Session)
    : M (option (ObjectId * D)) := λ w,
  (Ok ((λ d, (id, d)) <$> table (view session w) !! id),
   log (EvFindOne (collectionName D) id session) w).

(** A document of the collection in store [st] has the value that [doc]
    has under the unique index. *)
Definition duplicate `{Document D} (doc : D) (st : Store) : Prop :=
  map_Exists (λ _ d, is_Some (unique_key doc) ∧ unique_key d = unique_key doc)
    (table st).

(** [collection.insertOne(doc, options)]: the driver assigns an unused
    [_id]; the server refuses a document that repeats a value of the unique
    index; otherwise the result is [{ acknowledged, insertedId }]. *)
Definition insertOne `{Document D} (doc : D) (session : option Session)
    : M (bool * ObjectId) := λ w,
  let id := fresh (ids_in_use (D:=D) w) in
  if decide (duplicate doc (view session w)) then
    (Throw DuplicateKey, log (EvInsertOne (collectionName D) id session) w)
  else
    (Ok (true, id),
     log (EvInsertOne (collectionName D) id session)
       (write session (λ st, set_table (<[id := doc]> (table st)) st) w)).

(** [collection.findOneAndUpdate({ _id }, update,
    { returnDocument: 'after', ...options })]: the updated document, or
    [null] when none matches (no upsert).  The updates are those of the
    services, none of which sets a field under the unique index. *)
Definition findOneAndUpdate `{Document D} (id : ObjectId) (update : D → D)
    (session : option Session) : M (option (ObjectId * D)) := λ w,
  let w1 := log (EvFindOneAndUpdate (collectionName D) id session) w in
  match table (view session w) !! id with
  | Some d =>
      (Ok (Some (id, update d)),
       write session (λ st, set_table (alter update id (table st)) st) w1)
  | None => (Ok None, w1)
  end.

(** [collection.findOneAndDelete({ _id }, options)]: the document removed,
    or [null] when none matches. *)
Definition findOneAndDelete `{Document D} (id : ObjectId)
    (session : option Session) : M (option (ObjectId * D)) := λ w,
  let w1 := log (EvFindOneAndDelete (collectionName D) id session) w in
  match table (view session w) !! id with
  | Some d =>
      (Ok (Some (id, d)),
       write session (λ st, set_table (delete id (table (D:=D) st)) st) w1)
  | None => (Ok None, w1)
  end.

Definition startSession : M Session := λ w,
  let s := nextSession w in
  (Ok s, log (EvStartSession s) (set_nextSession (s + 1)%N w)).

Definition endSession (s : Session) : M unit := λ w,
  (Ok tt, log (EvEndSession s) w).

Definition commitTransaction (s : Session) (w : World) : World :=
  match txn w with
  | Some (_, st) => log (EvCommit s) (set_txn None (set_committed st w))
  | None => log (EvCommit s) w
  end.

Definition abortTransaction (s : Session) (w : World) : World :=
  log (EvAbort s) (set_txn None w).

(** [session.withTransaction(fn)]: start a transaction on a copy of the
    committed store, run [fn], commit when it returns and abort when it
    throws, passing the exception on. *)
Definition session_withTransaction {A} (s : Session) (fn : M A) : M A := λ w,
  let w0 := log (EvStartTransaction s) (set_txn (Some (s, committed w)) w) in
  match fn w0 with
  | (Ok a, w1) => (Ok a, commitTransaction s w1)
  | (Throw e, w1) => (Throw e, abortTransaction s w1)
  end.

(** ** CRUDOperations ([crudOperations.js])

    [options] is the options object of the source reduced to its one field
    the services set: [{ session }] is [Some session], [{}] is [None].  The
    checks that [document] and [update] are objects hold by typing. *)

(** [result.value], where [result] is what [findOneAndUpdate] or
    [findOneAndDelete] returned (lines 253 and 379): reading the property of
    [null] throws a [TypeError]; read on a document it is [undefined], no
    document of the four collections having a field of that name. *)
Definition result_value {A} (result : option A) : M unit :=
  match result with
  | Some _ => mret tt
  | None => throw TypeError
  end.

Section CRUDOperations.
Context `{Document D}.

(** [getCollection()] (line 16) *)
Definition getCollection : M unit := λ w,
  (Ok tt, log (EvGetCollection (collectionName D)) w).

(** [createOne(document, options)] (line 48) *)
Definition createOne (document : D) (options : option Session)
    : M (ObjectId * D) :=
  _ ← getCollection;
  c ← newDate;
  u ← newDate;
  let docToInsert := stamp_updatedAt u (stamp_createdAt c document) in
  result ← insertOne docToInsert options;
  if negb result.1 then throw WriteNotAcknowledged
  else mret (result.2, docToInsert).

(** [findById(id, options)] (line 159) *)
Definition findById (id : jsid) (options : option Session)
    : M (option (ObjectId * D)) :=
  objectId ← toObjectId id;
  _ ← getCollection;
  findOne objectId options.

(** [updateById(id, update, options)] (line 230).  [update] is the effect
    of the caller's update operators on a document; the forced
    [$set: { updatedAt: new Date() }] is applied over it.  What the method
    returns is [undefined] ([tt]), when it returns. *)
Definition updateById (id : jsid) (update : D → D) (options : option Session)
    : M unit :=
  objectId ← toObjectId id;
  _ ← getCollection;
  t ← newDate;
  let updateDoc := λ d, stamp_updatedAt t (update d) in
  result ← findOneAndUpdate objectId updateDoc options;
  result_value result.

(** [deleteById(id, options)] (line 373) *)
Definition deleteById (id : jsid) (options : option Session) : M unit :=
  objectId ← toObjectId id;
  _ ← getCollection;
  result ← findOneAndDelete objectId options;
  result_value result.
End CRUDOperations.

(** [withTransaction(operations, options)] (line 479) *)
Definition withTransaction {A} (operations : Session → M A) : M A :=
  session ← startSession;
  try_finally
    (session_withTransaction session (operations session))
    (endSession session).

(** ** Update operators, field by field *)

(** [$inc: { balance: z }] *)
Definition inc_balance (z : Z) (u : User) : User :=
  {| u_name := u_name u; u_email := u_email u; balance := balance u + z;
     u_status := u_status u; orderHistory := orderHistory u;
     transactions := transactions u; totalOrders := totalOrders u;
     totalSpent := totalSpent u; cancelledOrders := cancelledOrders u;
     u_createdAt := u_createdAt u; u_updatedAt := u_updatedAt u |}.

(** [$push: { transactions: e }] *)
Definition push_transactions (e : LedgerEntry) (u : User) : User :=
  {| u_name := u_name u; u_email := u_email u; balance := balance u;
     u_status := u_status u; orderHistory := orderHistory u;
     transactions := transactions u ++ [e]; totalOrders := totalOrders u;
     totalSpent := totalSpent u; cancelledOrders := cancelledOrders u;
     u_createdAt := u_createdAt u; u_updatedAt := u_updatedAt u |}.

(** [$push: { orderHistory: o }] *)
Definition push_orderHistory (o : ObjectId) (u : User) : User :=
  {| u_name := u_name u; u_email := u_email u; balance := balance u;
     u_status := u_status u; orderHistory := orderHistory u ++ [o];
     transactions := transactions u; totalOrders := totalOrders u;
     totalSpent := totalSpent u; cancelledOrders := cancelledOrders u;
     u_createdAt := u_createdAt u; u_updatedAt := u_updatedAt u |}.

(** [$pull: { orderHistory: o }]: every element equal to [o] is removed. *)
Definition pull_orderHistory (o : ObjectId) (u : User) : User :=
  {| u_name := u_name u; u_email := u_email u; balance := balance u;
     u_status := u_status u;
     orderHistory := filter (λ x, x ≠ o) (orderHistory u);
     transactions := transactions u; totalOrders := totalOrders u;
     totalSpent := totalSpent u; cancelledOrders := cancelledOrders u;
     u_createdAt := u_createdAt u; u_updatedAt := u_updatedAt u |}.

(** [$inc: { totalOrders: n, totalSpent: s, cancelledOrders: c }] *)
Definition inc_counters (n s c : Z) (u : User) : User :=
  {| u_name := u_name u; u_email := u_email u; balance := balance u;
     u_status := u_status u; orderHistory := orderHistory u;
     transactions := transactions u; totalOrders := totalOrders u + n;
     totalSpent := totalSpent u + s; cancelledOrders := cancelledOrders u + c;
     u_createdAt := u_createdAt u; u_updatedAt := u_updatedAt u |}.

(** [$inc: { stock: z }, $push: { stockHistory: e }] *)
Definition inc_stock (z : Z) (e : StockEvent) (p : Product) : Product :=
  {| p_name := p_name p; price := price p; stock := stock p + z;
     stockHistory := stockHistory p ++ [e]; priceHistory := priceHistory p;
     p_createdAt := p_createdAt p; p_updatedAt := p_updatedAt p |}.

(** [$set: { price: z }, $push: { priceHistory: e }] *)
Definition set_price (z : Z) (e : PriceEvent) (p : Product) : Product :=
  {| p_name := p_name p; price := z; stock := stock p;
     stockHistory := stockHistory p; priceHistory := priceHistory p ++ [e];
     p_createdAt := p_createdAt p; p_updatedAt := p_updatedAt p |}.

(** [$set: { status: 'cancelled', cancelledAt: t, cancellationReason: r }] *)
Definition set_cancelled (t : Z) (r : string) (o : Order) : Order :=
  {| userId := userId o; items := items o; total := total o;
     status := "cancelled"; cancelledAt := Some t;
     cancellationReason := Some r;
     o_createdAt := o_createdAt o; o_updatedAt := o_updatedAt o |}.

(** ** TransactionService ([transactionService.js]) *)

(** *** processOrder (lines 21-110) *)

Record OrderData := {
  od_userId : jsid;
  od_shippingAddress : string
}.

(** An element of [inventoryUpdates]. *)
Record InventoryUpdate := {
  iu_productId : jsid;
  quantityToReduce : Z;
  currentStock : Z
}.

(** The object [processOrder] returns.  [por_order_id] and [por_order] are
    [order._id] and the inserted fields; [por_items] is [order.items], the
    array the caller passed; [por_totalAmount] is [totalAmount]. *)
Record ProcessOrderResult := {
  por_order_id : ObjectId;
  por_order : Order;
  por_items : list loc;
  por_totalAmount : Z
}.

(** [item.price = product.price; item.total = itemTotal;] *)
Definition set_item_price (p t : Z) (it : Item) : Item :=
  {| productId := productId it; quantity := quantity it;
     i_price := Some p; i_total := Some t |}.

(** Step 2, the loop of lines 34-58, with its two accumulators. *)
Fixpoint reserveInventory (items : list loc)
    (inventoryUpdates : list InventoryUpdate) (totalAmount : Z)
    : M (list InventoryUpdate * Z) :=
  match items with
  | [] => mret (inventoryUpdates, totalAmount)
  | l :: rest =>
      item ← deref l;
      product ← findById (D:=Product) (productId item) None;
      match product with
      | None => throw (NotFound "Product not found")
      | Some (_, product) =>
          if stock product <? quantity item then throw OutOfStock
          else
            let itemTotal := price product * quantity item in
            let totalAmount := totalAmount + itemTotal in
            let inventoryUpdates :=
              inventoryUpdates ++
              [{| iu_productId := productId item;
                  quantityToReduce := quantity item;
                  currentStock := stock product |}] in
            _ ← assign l (set_item_price (price product) itemTotal);
            reserveInventory rest inventoryUpdates totalAmount
      end
  end.

(** The items as the driver serialises them when the order is inserted. *)
Fixpoint serialiseItems (items : list loc) : M (list Item) :=
  match items with
  | [] => mret []
  | l :: rest =>
      item ← deref l;
      tail ← serialiseItems rest;
      mret (item :: tail)
  end.

(** Step 4, the loop of lines 69-85. *)
Fixpoint applyInventoryUpdates (session : Session) (orderId : ObjectId)
    (inventoryUpdates : list InventoryUpdate) : M unit :=
  match inventoryUpdates with
  | [] => mret tt
  | update :: rest =>
      timestamp ← newDate;
      _ ← updateById (D:=Product) (iu_productId update)
            (inc_stock (- quantityToReduce update)
               {| se_orderId := orderId;
                  se_change := - quantityToReduce update;
                  se_timestamp := timestamp;
                  se_reason := "order_placed" |})
            (Some session);
      applyInventoryUpdates session orderId rest
  end.

Definition processOrder (orderData : OrderData) (items : list loc)
    : M ProcessOrderResult :=
  withTransaction (λ session,
    (* Step 1: validate user exists *)
    user ← findById (D:=User) (od_userId orderData) None;
    match user with
    | None => throw (NotFound "User not found")
    | Some _ =>
        (* Step 2: validate and reserve inventory *)
        '(inventoryUpdates, totalAmount) ← reserveInventory items [] 0;
        (* Step 3: create order *)
        embedded ← serialiseItems items;
        order ← createOne
                  {| userId := od_userId orderData; items := embedded;
                     total := totalAmount; status := "pending";
                     cancelledAt := None; cancellationReason := None;
                     o_createdAt := 0; o_updatedAt := 0 |}
                  (Some session);
        (* Step 4: update inventory *)
        _ ← applyInventoryUpdates session order.1 inventoryUpdates;
        (* Step 5: update user's order history *)
        _ ← updateById (D:=User) (od_userId orderData)
              (λ u, inc_counters 1 totalAmount 0 (push_orderHistory order.1 u))
              (Some session);
        mret {| por_order_id := order.1; por_order := order.2;
                por_items := items; por_totalAmount := totalAmount |}
    end).

(** *** transferFunds (lines 120-205) *)

Record TransferResult := {
  tr_transactionId : Z;
  tr_amount : Z;
  tr_fromUserId : jsid;
  tr_toUserId : jsid;
  tr_timestamp : Z
}.

Definition transferFunds (fromUserId toUserId : jsid) (amount : Z)
    (description : string) : M TransferResult :=
  withTransaction (λ session,
    (* Validate amount *)
    if amount <=? 0 then throw InvalidAmount
    else
      (* Get source user *)
      fromUser ← findById (D:=User) fromUserId None;
      match fromUser with
      | None => throw (NotFound "Source user not found")
      | Some (_, fromUser) =>
          (* Get destination user *)
          toUser ← findById (D:=User) toUserId None;
          match toUser with
          | None => throw (NotFound "Destination user not found")
          | Some _ =>
              (* Check sufficient balance *)
              if balance fromUser <? amount then throw InsufficientFunds
              else
                (* Create transaction record *)
                transactionId ← newDate;
                timestamp ← newDate;
                (* Debit from source user *)
                _ ← updateById (D:=User) fromUserId
                      (λ u, push_transactions
                              {| le_id := transactionId; le_type := "debit";
                                 le_amount := - amount;
                                 le_toUserId := Some toUserId;
                                 le_fromUserId := None;
                                 le_description := description;
                                 le_timestamp := timestamp;
                                 le_status := "completed" |}
                              (inc_balance (- amount) u))
                      (Some session);
                (* Credit to destination user *)
                _ ← updateById (D:=User) toUserId
                      (λ u, push_transactions
                              {| le_id := transactionId; le_type := "credit";
                                 le_amount := amount;
                                 le_toUserId := None;
                                 le_fromUserId := Some fromUserId;
                                 le_description := description;
                                 le_timestamp := timestamp;
                                 le_status := "completed" |}
                              (inc_balance amount u))
                      (Some session);
                mret {| tr_transactionId := transactionId;
                        tr_amount := amount;
                        tr_fromUserId := fromUserId;
                        tr_toUserId := toUserId;
                        tr_timestamp := timestamp |}
          end
      end).

(** *** cancelOrder (lines 213-291) *)

Record CancelResult := {
  cr_orderId : jsid;
  cr_reason : string;
  restoredItems : nat;
  refundAmount : Z
}.

(** The loop of lines 231-247 over the order's embedded items. *)
Fixpoint restoreInventory (session : Session) (orderId : ObjectId)
    (orderItems : list Item) : M unit :=
  match orderItems with
  | [] => mret tt
  | item :: rest =>
      timestamp ← newDate;
      _ ← updateById (D:=Product) (productId item)
            (inc_stock (quantity item)
               {| se_orderId := orderId;
                  se_change := quantity item;
                  se_timestamp := timestamp;
                  se_reason := "order_cancelled" |})
            (Some session);
      restoreInventory session orderId rest
  end.

Definition cancelOrder (orderId : jsid) (reason : string) : M CancelResult :=
  withTransaction (λ session,
    (* Get order *)
    order ← findById (D:=Order) orderId None;
    match order with
    | None => throw (NotFound "Order not found")
    | Some (order_id, order) =>
        if bool_decide (status order = "cancelled") then
          throw AlreadyCancelled
        else if bool_decide (status order ∈ ["shipped"; "delivered"]) then
          throw NotCancellable
        else
          (* Restore inventory for each item *)
          _ ← restoreInventory session order_id (items order);
          (* Update order status *)
          cancelledAt ← newDate;
          _ ← updateById (D:=Order) orderId
                (set_cancelled cancelledAt reason) (Some session);
          (* Update user statistics *)
          _ ← updateById (D:=User) (userId order)
                (λ u, inc_counters (-1) (- total order) 1
                        (pull_orderHistory order_id u))
                (Some session);
          mret {| cr_orderId := orderId; cr_reason := reason;
                  restoredItems := length (items order);
                  refundAmount := total order |}
    end).

(** *** bulkUpdatePrices (lines 298-364) *)

(** An element of [priceUpdates]; [reason] may be left out. *)
Record PriceUpdate := {
  pu_productId : jsid;
  pu_newPrice : Z;
  pu_reason : option string
}.

(** An element of the returned [results]. *)
Record PriceChange := {
  pc_productId : jsid;
  pc_productName : string;
  pc_oldPrice : Z;
  pc_newPrice : Z;
  pc_change : Z;
  pc_changePercent : jsnum
}.

Record BulkResult := {
  updatedCount : nat;
  results : list PriceChange;
  br_timestamp : Z
}.

(** [((newPrice - oldPrice) / oldPrice) * 100] *)
Definition percentChange (newPrice oldPrice : Z) : jsnum :=
  js_mul
    (js_div (js_sub (number newPrice) (number oldPrice)) (number oldPrice))
    (number 100).

(** The loop of lines 304-348, with its accumulator [results]. *)
Fixpoint updatePrices (session : Session) (timestamp : Z)
    (priceUpdates : list PriceUpdate) (results : list PriceChange)
    : M (list PriceChange) :=
  match priceUpdates with
  | [] => mret results
  | update :: rest =>
      let productId := pu_productId update in
      let newPrice := pu_newPrice update in
      let reason := default "Bulk price update" (pu_reason update) in
      (* Validate price *)
      if newPrice <=? 0 then throw InvalidPrice
      else
        (* Get current product *)
        product ← findById (D:=Product) productId None;
        match product with
        | None => throw (NotFound "Product not found")
        | Some (_, product) =>
            let oldPrice := price product in
            (* Update product price *)
            _ ← updateById (D:=Product) productId
                  (set_price newPrice
                     {| oldPrice := oldPrice; newPrice := newPrice;
                        change := newPrice - oldPrice;
                        changePercent := percentChange newPrice oldPrice;
                        pe_reason := reason; pe_timestamp := timestamp;
                        updatedBy := "system" |})
                  (Some session);
            updatePrices session timestamp rest
              (results ++
               [{| pc_productId := productId;
                   pc_productName := p_name product;
                   pc_oldPrice := oldPrice; pc_newPrice := newPrice;
                   pc_change := newPrice - oldPrice;
                   pc_changePercent := percentChange newPrice oldPrice |}])
        end
  end.

Definition bulkUpdatePrices (priceUpdates : list PriceUpdate) : M BulkResult :=
  withTransaction (λ session,
    timestamp ← newDate;
    results ← updatePrices session timestamp priceUpdates [];
    mret {| updatedCount := length results; results := results;
            br_timestamp := timestamp |}).

(** *** createUserWithSetup (lines 372-429) *)

Record UserData := {
  ud_name : string;
  ud_email : string
}.

(** [initialSettings.profileData]: its property [userId], if it has one, and
    its other properties. *)
Record ProfileData := {
  pd_userId : option jsid;
  pd_fields : string
}.

Record InitialSettings := {
  initialBalance : option Z;
  createProfile : bool;
  profileData : ProfileData
}.

Definition createUserWithSetup (userData : UserData)
    (initialSettings : InitialSettings) : M (ObjectId * User) :=
  withTransaction (λ session,
    (* Create user *)
    user ← createOne
             {| u_name := ud_name userData; u_email := ud_email userData;
                balance := default 0 (initialBalance initialSettings);
                u_status := "active"; orderHistory := []; transactions := [];
                totalOrders := 0; totalSpent := 0; cancelledOrders := 0;
                u_createdAt := 0; u_updatedAt := 0 |}
             (Some session);
    (* Create user profile in separate collection if needed *)
    _ ← (if createProfile initialSettings then
           _ ← createOne
                 {| pf_userId :=
                      default (IdObj user.1)
                        (pd_userId (profileData initialSettings));
                    pf_data := pd_fields (profileData initialSettings);
                    pf_createdAt := 0; pf_updatedAt := 0 |}
                 (Some session);
           mret tt
         else mret tt);
    (* Create initial wallet transaction if balance > 0 *)
    _ ← (match initialBalance initialSettings with
         | Some b =>
             if 0 <? b then
               id ← newDate;
               timestamp ← newDate;
               _ ← updateById (D:=User) (IdObj user.1)
                     (push_transactions
                        {| le_id := id; le_type := "credit"; le_amount := b;
                           le_toUserId := None; le_fromUserId := None;
                           le_description := "Initial balance";
                           le_timestamp := timestamp;
                           le_status := "completed" |})
                     (Some session);
               mret tt
             else mret tt
         | None => mret tt
         end);
    mret user).

(** ** Vocabulary of the statements *)

(** The [ObjectId] an identifier argument denotes, when it denotes one. *)
Definition objectIdOf (id : jsid) : option ObjectId :=
  match id with
  | IdObj o => Some o
  | _ => if isValidObjectId id then Some (new_ObjectId id) else None
  end.

(** A malformed identifier: neither an [ObjectId] instance nor a string that
    passes [isValidObjectId]. *)
Definition malformed (id : jsid) : Prop := objectIdOf id = None.

(** The events that reach the store. *)
Definition store_access (e : Event) : bool :=
  match e with
  | EvGetCollection _ | EvFindOne _ _ _ | EvInsertOne _ _ _
  | EvFindOneAndUpdate _ _ _ | EvFindOneAndDelete _ _ _ => true
  | _ => false
  end.

(** The events that change a document. *)
Definition mutation (e : Event) : bool :=
  match e with
  | EvInsertOne _ _ _ | EvFindOneAndUpdate _ _ _
  | EvFindOneAndDelete _ _ _ => true
  | _ => false
  end.

(** What a workflow that owns session [s] asks of the driver between
    starting and ending its transaction: reads given no session, and writes
    given [s]. *)
Definition disciplined (s : Session) (e : Event) : Prop :=
  match e with
  | EvGetCollection _ => True
  | EvFindOne _ _ o => o = None
  | EvInsertOne _ _ o | EvFindOneAndUpdate _ _ o
  | EvFindOneAndDelete _ _ o => o = Some s
  | _ => False
  end.

(** A store access that was given no session. *)
Definition outside_session (e : Event) : bool :=
  match e with
  | EvFindOne _ _ None | EvInsertOne _ _ None | EvFindOneAndUpdate _ _ None
  | EvFindOneAndDelete _ _ None => true
  | _ => false
  end.

(** The shape of the trace of one workflow run from world [w]: one session
    [s], one transaction on it, a disciplined body, one commit or abort. *)
Definition one_session {A} (m : M A) : Prop :=
  ∀ w, ∃ body closing,
    let s := nextSession w in
    trace (m w).2
      = trace w ++ [EvStartSession s; EvStartTransaction s] ++ body
               ++ [closing; EvEndSession s]
    ∧ Forall (disciplined s) body
    ∧ (closing = EvCommit s ∨ closing = EvAbort s).

(** The world in which the body of a workflow started from [w] runs: the
    session [nextSession w] is open and its transaction works on a copy of
    the committed store. *)
Definition opened (w : World) : World :=
  log (EvStartTransaction (nextSession w))
    (set_txn (Some (nextSession w, committed w))
       (log (EvStartSession (nextSession w))
          (set_nextSession (nextSession w + 1)%N w))).

(** One stretch of a workflow body owning session [s], from world [w] to
    world [w']: the driver calls added are disciplined, and as long as the
    transaction of [s] is open the committed store stays as it is while the
    working copy moves along the relation [G]. *)
Definition keeps (s : Session) (G : Store → Store → Prop) (w w' : World)
    : Prop :=
  (∃ evs, trace w' = trace w ++ evs ∧ Forall (disciplined s) evs)
  ∧ ∀ st, txn w = Some (s, st) →
      committed w' = committed w ∧ ∃ st', txn w' = Some (s, st') ∧ G st st'.

Definition body_keeps (s : Session) (G : Store → Store → Prop) {A} (m : M A)
    : Prop :=
  ∀ w, keeps s G w (m w).2.

(** [G] admits the update [update] of a document of the collection, and
    the insertion of a new document into it. *)
Definition allows_update `{Document D} (G : Store → Store → Prop)
    (update : D → D) : Prop :=
  ∀ o t st,
    G st (set_table (alter (λ d, stamp_updatedAt t (update d)) o (table st)) st).

Definition allows_insert (D : Type) `{Document D} (G : Store → Store → Prop)
    : Prop :=
  ∀ (d : D) o st,
    table st !! o = None → G st (set_table (<[o := d]> (table st)) st).

(** A workflow that keeps to one session and is atomic: what it commits is
    related to the old store by [G], and when it throws the committed store
    is the old one. *)
Definition workflow_ok (G : Store → Store → Prop) {A} (m : M A) : Prop :=
  one_session m
  ∧ ∀ w, match m w with
         | (Ok _, w') => G (committed w) (committed w')
         | (Throw _, w') => committed w' = committed w
         end.

(** The entries of a price batch that come before its first entry with
    [newPrice <= 0]. *)
Fixpoint valid_prefix (priceUpdates : list PriceUpdate) : list PriceUpdate :=
  match priceUpdates with
  | [] => []
  | update :: rest =>
      if pu_newPrice update <=? 0 then [] else update :: valid_prefix rest
  end.

(** The entry names a product that is in the store. *)
Definition names_product (st : Store) (update : PriceUpdate) : Prop :=
  ∃ o, objectIdOf (pu_productId update) = Some o ∧ is_Some (products st !! o).

(** A workflow that fails with [e] from [w] without having changed
    anything: the committed store is as before and no driver call of the run
    is a mutation. *)
Definition fails_clean {A} (m : M A) (w : World) (e : Error) : Prop :=
  ∃ w' evs,
    m w = (Throw e, w')
    ∧ committed w' = committed w
    ∧ trace w' = trace w ++ evs
    ∧ Forall (λ ev, mutation ev = false) evs.

(** The two stores have the same orders and the same users. *)
Definition same_orders_users (a b : Store) : Prop :=
  orders b = orders a ∧ users b = users a.

(** Every user of store [a] is still in store [b], with an order history
    that extends the one it had: nothing was removed from it. *)
Definition history_kept (a b : Store) : Prop :=
  ∀ k u, users a !! k = Some u →
    ∃ u', users b !! k = Some u' ∧ orderHistory u `prefix_of` orderHistory u'.

Definition is_Ok {A} (r : Res A) : bool :=
  match r with Ok _ => true | Throw _ => false end.

(** The entry bulkUpdatePrices appends to the priceHistory of a product of
    committed price [old] for one entry of the batch, at the date
    [timestamp] of the call. *)
Definition price_entry (old timestamp : Z) (update : PriceUpdate)
    : PriceEvent :=
  {| oldPrice := old;
     newPrice := pu_newPrice update;
     change := pu_newPrice update - old;
     changePercent := percentChange (pu_newPrice update) old;
     pe_reason := default "Bulk price update" (pu_reason update);
     pe_timestamp := timestamp;
     updatedBy := "system" |}.

(** The entries a batch appends to the priceHistory of product [o], whose
    committed price is [old]: one for each entry of the batch that names
    [o], in the order of the batch. *)
Definition price_entries (old timestamp : Z) (o : ObjectId)
    (priceUpdates : list PriceUpdate) : list PriceEvent :=
  price_entry old timestamp
    <$> filter (λ update, objectIdOf (pu_productId update) = Some o)
          priceUpdates.

(** The prices of a batch and of the store [c] are safe integers, and so is
    the difference the batch records for each product it names. *)
Definition prices_exact (c : Store) (priceUpdates : list PriceUpdate)
    : Prop :=
  Forall (λ update, safe (pu_newPrice update)) priceUpdates
  ∧ map_Forall
      (λ o p,
         safe (price p)
         ∧ Forall (λ update,
                     objectIdOf (pu_productId update) = Some o →
                     safe (pu_newPrice update - price p))
             priceUpdates)
      (products c).

(** What one item of an order asks for, when everything it refers to is
    there: the identifier it gives, the quantity, and the stored product the
    identifier denotes. *)
Record Line := {
  ln_productId : jsid;
  ln_quantity : Z;
  ln_oid : ObjectId;
  ln_product : Product
}.

(** The line behind reference [l], with the caller's objects [h] and the
    committed store [c]. *)
Definition asks (h : gmap loc Item) (c : Store) (l : loc) : option Line :=
  match h !! l with
  | None => None
  | Some it =>
      match objectIdOf (productId it) with
      | None => None
      | Some o =>
          match products c !! o with
          | None => None
          | Some p =>
              Some {| ln_productId := productId it;
                      ln_quantity := quantity it;
                      ln_oid := o; ln_product := p |}
          end
      end
  end.

Definition in_stock (ln : Line) : Prop :=
  ln_quantity ln ≤ stock (ln_product ln).

#[global] Instance in_stock_dec (ln : Line) : Decision (in_stock ln).
Proof. unfold in_stock. apply _. Defined.

(** [price * quantity] of a line. *)
Definition line_total (ln : Line) : Z :=
  price (ln_product ln) * ln_quantity ln.

Definition order_total (lns : list Line) : Z :=
  foldr (λ ln acc, line_total ln + acc) 0 lns.

(** The quantity of product [o] the lines ask for, all lines together. *)
Definition requested (o : ObjectId) (lns : list Line) : Z :=
  foldr (λ ln acc, if decide (ln_oid ln = o) then ln_quantity ln + acc
                   else acc) 0 lns.

(** What the lines take from the stock of product [o], line after line. *)
Definition decrements (o : ObjectId) (lns : list Line) : list Z :=
  (λ ln, - ln_quantity ln) <$> filter (λ ln, ln_oid ln = o) lns.

(** The numbers the reservation loop handles on the lines [lns] are safe
    integers: prices, quantities and stocks, the total of each line, and the
    running total after each line. *)
Definition lines_exact (lns : list Line) : Prop :=
  Forall (λ ln, safe (price (ln_product ln)) ∧ safe (ln_quantity ln)
                ∧ safe (stock (ln_product ln))) lns
  ∧ sums_safe 0 (line_total <$> lns).

(** The numbers of an order with lines [lns] on the store [c] are safe
    integers: those of the reservation loop, and the stock of every product
    after each decrement. *)
Definition order_exact (c : Store) (lns : list Line) : Prop :=
  lines_exact lns
  ∧ map_Forall (λ o p, sums_safe (stock p) (decrements o lns)) (products c).

Definition update_of (ln : Line) : InventoryUpdate :=
  {| iu_productId := ln_productId ln;
     quantityToReduce := ln_quantity ln;
     currentStock := stock (ln_product ln) |}.

(** The caller's item with [price] and [total] set from the committed
    product it names. *)
Definition priced (c : Store) (it : Item) : Item :=
  match objectIdOf (productId it) with
  | Some o =>
      match products c !! o with
      | Some p => set_item_price (price p) (price p * quantity it) it
      | None => it
      end
  | None => it
  end.

(** The caller's objects after every item of [ls] was given its price. *)
Definition priced_heap (c : Store) (ls : list loc) (h : gmap loc Item)
    : gmap loc Item :=
  foldl (λ h l, alter (priced c) l h) h ls.

(** ** Sample data

    Two users (500 and 20 in balance), two products (price 7 with 5 in
    stock, price 0 with 3 in stock), and three order items of the caller: 2
    of the first product, 3 of the second, 6 of the first. *)

Definition demo_user (email : string) (b : Z) : User :=
  {| u_name := "user"; u_email := email; balance := b;
     u_status := "active"; orderHistory := []; transactions := [];
     totalOrders := 0; totalSpent := 0; cancelledOrders := 0;
     u_createdAt := 0; u_updatedAt := 0 |}.

Definition demo_product (p s : Z) : Product :=
  {| p_name := "product"; price := p; stock := s; stockHistory := [];
     priceHistory := []; p_createdAt := 0; p_updatedAt := 0 |}.

Definition demo_item (p : ObjectId) (q : Z) : Item :=
  {| productId := IdObj p; quantity := q; i_price := None; i_total := None |}.

Definition demo_store : Store :=
  {| users := <[1%N := demo_user "ann@example.com" 500]>
                (<[2%N := demo_user "bob@example.com" 20]> ∅);
     orders := ∅;
     products := <[10%N := demo_product 7 5]> (<[11%N := demo_product 0 3]> ∅);
     profiles := ∅ |}.

Definition demo_world : World :=
  {| committed := demo_store; txn := None;
     heap := <[0%N := demo_item 10 2]>
               (<[1%N := demo_item 11 3]> (<[2%N := demo_item 10 6]> ∅));
     now := 1000; nextSession := 0%N; trace := [] |}.

Definition demo_line (o : ObjectId) (q : Z) (p : Product) : Line :=
  {| ln_productId := IdObj o; ln_quantity := q; ln_oid := o;
     ln_product := p |}.

Definition demo_order : OrderData :=
  {| od_userId := IdObj 1%N; od_shippingAddress := "1 Main Street" |}.

(** A batch of two entries: 9 for the first sample product, then the
    invalid price 0 for the second. *)
Definition demo_batch : list PriceUpdate :=
  [{| pu_productId := IdObj 10%N; pu_newPrice := 9; pu_reason := None |};
   {| pu_productId := IdObj 11%N; pu_newPrice := 0; pu_reason := None |}].

(** The sample world with a pending order of the first user: 2 of the first
    product, total 14; the order is in the user's history. *)
Definition demo_pending : Order :=
  {| userId := IdObj 1%N;
     items := [{| productId := IdObj 10%N; quantity := 2; i_price := Some 7;
                  i_total := Some 14 |}];
     total := 14; status := "pending"; cancelledAt := None;
     cancellationReason := None; o_createdAt := 0; o_updatedAt := 0 |}.

Definition demo_world_with_order : World :=
  {| committed :=
       {| users := <[1%N := push_orderHistory 50%N
                               (demo_user "ann@example.com" 500)]>
                     (users demo_store);
          orders := <[50%N := demo_pending]> ∅;
          products := products demo_store;
          profiles := ∅ |};
     txn := None; heap := ∅; now := 2000; nextSession := 0%N; trace := [] |}.

(** A batch of one entry: 9 for the second sample product, whose price
    is 0. *)
Definition demo_batch_zero : list PriceUpdate :=
  [{| pu_productId := IdObj 11%N; pu_newPrice := 9; pu_reason := None |}].

(** ** Calls of the workflow coordinator

    A client's use of [TransactionService]: one call after the other, each
    run to its end whether it completes or throws. *)

Inductive Call :=
  | ProcessOrder (orderData : OrderData) (items : list loc)
  | TransferFunds (fromUserId toUserId : jsid) (amount : Z)
      (description : string)
  | CancelOrder (orderId : jsid) (reason : string)
  | BulkUpdatePrices (priceUpdates : list PriceUpdate)
  | CreateUserWithSetup (userData : UserData)
      (initialSettings : InitialSettings).

(** The world after the call. *)
Definition after (c : Call) (w : World) : World :=
  match c with
  | ProcessOrder orderData items => (processOrder orderData items w).2
  | TransferFunds fromUserId toUserId amount description =>
      (transferFunds fromUserId toUserId amount description w).2
  | CancelOrder orderId reason => (cancelOrder orderId reason w).2
  | BulkUpdatePrices priceUpdates => (bulkUpdatePrices priceUpdates w).2
  | CreateUserWithSetup userData initialSettings =>
      (createUserWithSetup userData initialSettings w).2
  end.

Definition after_all (cs : list Call) (w : World) : World :=
  foldl (λ w c, after c w) w cs.

(** Every document of store [a] is still in store [b], and is related to
    what it was by the relation given for its collection. *)
Definition documents_kept (RU : relation User) (RO : relation Order)
    (RP : relation Product) (a b : Store) : Prop :=
  (∀ k u, users a !! k = Some u → ∃ u', users b !! k = Some u' ∧ RU u u')
  ∧ (∀ k o, orders a !! k = Some o → ∃ o', orders b !! k = Some o' ∧ RO o o')
  ∧ (∀ k p, products a !! k = Some p →
       ∃ p', products b !! k = Some p' ∧ RP p p')
  ∧ (∀ k f, profiles a !! k = Some f → profiles b !! k = Some f).

(** The audit lists of a user and of a product have only grown. *)
Definition user_audit_grown (u u' : User) : Prop :=
  transactions u `prefix_of` transactions u'.

Definition product_audit_grown (p p' : Product) : Prop :=
  stockHistory p `prefix_of` stockHistory p'
  ∧ priceHistory p `prefix_of` priceHistory p'.

(** The fields of a document that no workflow writes after its creation. *)
Definition user_fixed (u u' : User) : Prop :=
  u_createdAt u' = u_createdAt u
  ∧ u_name u' = u_name u
  ∧ u_email u' = u_email u
  ∧ u_status u' = u_status u.

Definition order_fixed (o o' : Order) : Prop :=
  o_createdAt o' = o_createdAt o
  ∧ userId o' = userId o
  ∧ items o' = items o
  ∧ total o' = total o.

Definition product_fixed (p p' : Product) : Prop :=
  p_createdAt p' = p_createdAt p ∧ p_name p' = p_name p.

(** No document has been deleted, and the products are the same set. *)
Definition nothing_deleted (a b : Store) : Prop :=
  dom (users a) ⊆ dom (users b)
  ∧ dom (orders a) ⊆ dom (orders b)
  ∧ dom (products b) = dom (products a)
  ∧ dom (profiles a) ⊆ dom (profiles b).

(** An order no workflow may touch any more. *)
Definition terminal (o : Order) : Prop :=
  status o ∈ ["cancelled"; "shipped"; "delivered"].

(** What the workflows may do to the status of a stored order: leave the
    order's status, or set it to 'cancelled'; an order that is [terminal]
    stays the document it is. *)
Definition status_step (o o' : Order) : Prop :=
  (status o' = status o ∨ status o' = "cancelled")
  ∧ (terminal o → o' = o).

Definition orders_step (a b : Store) : Prop :=
  ∀ k o, orders a !! k = Some o →
    ∃ o', orders b !! k = Some o' ∧ status_step o o'.

(** The sum of the balances of all users. *)
Definition total_balance (st : Store) : Z :=
  map_fold (λ _ b acc, b + acc) 0 (balance <$> users st).

(** The calls that create a user. *)
Definition creates_user (c : Call) : bool :=
  match c with CreateUserWithSetup _ _ => true | _ => false end.

(** The calls on orders and prices, as opposed to those on accounts. *)
Definition on_catalogue (c : Call) : bool :=
  match c with
  | ProcessOrder _ _ | CancelOrder _ _ | BulkUpdatePrices _ => true
  | _ => false
  end.

(** The account of a user: balance and ledger. *)
Definition same_account (u u' : User) : Prop :=
  balance u' = balance u ∧ transactions u' = transactions u.

(** Reading the table just written gives it back. *)
Class StoredDocument (D : Type) `{Document D} := {
  table_set_table : ∀ m st, table (D:=D) (set_table m st) = m
}.

#[global] Instance User_stored : StoredDocument User.
Proof. by split. Qed.

#[global] Instance Order_stored : StoredDocument Order.
Proof. by split. Qed.

#[global] Instance Product_stored : StoredDocument Product.
Proof. by split. Qed.

#[global] Instance Profile_stored : StoredDocument Profile.
Proof. by split. Qed.

(** What [findById] returns for the identifier [id] in world [w], read
    without a session. *)
Definition stored `{Document D} (id : ObjectId) (w : World)
    : Res (option (ObjectId * D)) :=
  (findById (D:=D) (IdObj id) None w).1.

(** The quantity of product [o] the embedded items of an order give back,
    all items together. *)
Definition returned (o : ObjectId) (its : list Item) : Z :=
  foldr (λ it acc, if decide (objectIdOf (productId it) = Some o)
                   then quantity it + acc else acc) 0 its.

(** The embedded item names a product of store [st]. *)
Definition names_stored (st : Store) (it : Item) : Prop :=
  ∃ k, objectIdOf (productId it) = Some k ∧ is_Some (products st !! k).

(** The quantities the items give back to product [k], in the order of the
    items. *)
Definition increments (k : ObjectId) (its : list Item) : list Z :=
  quantity <$> filter (λ it, objectIdOf (productId it) = Some k) its.

(** The numbers of a cancellation of order [ord] with buyer [uid] on store
    [c] are safe integers: the stock of every product through the
    increments of the items, and the counters of the buyer. *)
Definition cancel_exact (c : Store) (ord : Order) (uid : ObjectId) : Prop :=
  map_Forall (λ k p, sums_safe (stock p) (increments k (items ord)))
    (products c)
  ∧ ∀ u, users c !! uid = Some u →
      sums_safe (totalOrders u) [-1]
      ∧ sums_safe (totalSpent u) [- total ord]
      ∧ sums_safe (cancelledOrders u) [1].

(** The numbers of an order with lines [lns] placed by the user [u] on store
    [c] and then cancelled are safe integers: those of the order, the stock
    of every product through the decrements and then the increments, and
    the counters of the buyer. *)
Definition round_trip_exact (c : Store) (u : User) (lns : list Line)
    : Prop :=
  lines_exact lns
  ∧ map_Forall
      (λ o p,
         sums_safe (stock p)
           (decrements o lns
            ++ (ln_quantity <$> filter (λ ln, ln_oid ln = o) lns)))
      (products c)
  ∧ sums_safe (totalOrders u) [1; -1]
  ∧ sums_safe (totalSpent u) [order_total lns; - order_total lns]
  ∧ sums_safe (cancelledOrders u) [1].

(** An order cancelOrder accepts. *)
Definition cancellable (o : Order) : Prop :=
  status o ∉ ["cancelled"; "shipped"; "delivered"].

(** The price of product [o] after the entries of a batch were applied in
    order to the price [old]: the new price of the last entry naming it. *)
Definition last_price (o : ObjectId) (priceUpdates : list PriceUpdate)
    (old : Z) : Z :=
  foldl (λ p update,
           if decide (objectIdOf (pu_productId update) = Some o)
           then pu_newPrice update else p)
    old priceUpdates.

(** The element of [results] for an entry of the batch, with the committed
    store [c]: the old price is the committed one. *)
Definition change_recorded (c : Store) (update : PriceUpdate)
    (pc : PriceChange) : Prop :=
  ∃ o p,
    objectIdOf (pu_productId update) = Some o
    ∧ products c !! o = Some p
    ∧ pc = {| pc_productId := pu_productId update;
              pc_productName := p_name p;
              pc_oldPrice := price p;
              pc_newPrice := pu_newPrice update;
              pc_change := pu_newPrice update - price p;
              pc_changePercent :=
                percentChange (pu_newPrice update) (price p) |}.

(** An entry bulkUpdatePrices accepts. *)
Definition acceptable (c : Store) (update : PriceUpdate) : Prop :=
  0 < pu_newPrice update ∧ names_product c update.

(** Why processOrder refuses an item, if it does, with the committed store
    [c]: its product identifier is malformed, names no stored product, or
    the stock is less than the quantity. *)
Definition refusal (c : Store) (it : Item) : option Error :=
  match objectIdOf (productId it) with
  | None => Some InvalidIdentifier
  | Some o =>
      match products c !! o with
      | None => Some (NotFound "Product not found")
      | Some p => if stock p <? quantity it then Some OutOfStock else None
      end
  end.

(** No user is overdrawn. *)
Definition solvent (st : Store) : Prop :=
  ∀ k u, users st !! k = Some u → 0 ≤ balance u.

(** No product has a negative stock. *)
Definition stocked (st : Store) : Prop :=
  ∀ o p, products st !! o = Some p → 0 ≤ stock p.

(** ** DatabaseConnection ([config/database.js])

    The connection singleton the repository goes through, with the part of
    the environment it touches: the server, which answers the n-th request
    made of it ([client.connect()], [ping], [client.close()]) or fails it,
    and the timer. *)

Module Database.

Inductive DbError :=
  | FailedToConnect (maxRetries : Z)
      (* "Failed to connect after ${maxRetries} attempts: ..." *)
  | DatabaseNotConnected
      (* "Database not connected. Call connect() first." *)
  | CloseFailed.
      (* the rejection of [client.close()] *)

(** [client] is the [MongoClient] instance, named by its creation number;
    [db] is the [Db] handle, named by the client it came from. *)
Record Connection := {
  client : option nat;
  db : option nat;
  isConnected : bool;
  server : nat → bool;
  requests : nat;
  slept : Z;
  clients : nat;
  closed : list nat
}.

Inductive Outcome (A : Type) :=
  | Returned (a : A)
  | Thrown (e : DbError).
Arguments Returned {A} a.
Arguments Thrown {A} e.

Definition DbM (A : Type) : Type := Connection → Outcome A * Connection.

#[export] Instance DbM_ret : MRet DbM := λ A a c, (Returned a, c).

#[export] Instance DbM_bind : MBind DbM := λ A B f m c,
  match m c with
  | (Returned a, c') => f a c'
  | (Thrown e, c') => (Thrown e, c')
  end.

Definition throw {A} (e : DbError) : DbM A := λ c, (Thrown e, c).

Definition get : DbM Connection := λ c, (Returned c, c).

(** One request to the server: whether it was answered. *)
Definition request : DbM bool := λ c,
  (Returned (server c (requests c)),
   {| client := client c; db := db c; isConnected := isConnected c;
      server := server c; requests := S (requests c); slept := slept c;
      clients := clients c; closed := closed c |}).

(** [await new Promise(resolve => setTimeout(resolve, ms))] *)
Definition sleep (ms : Z) : DbM unit := λ c,
  (Returned tt,
   {| client := client c; db := db c; isConnected := isConnected c;
      server := server c; requests := requests c; slept := slept c + ms;
      clients := clients c; closed := closed c |}).

(** [this.client = new MongoClient(uri, options)] *)
Definition new_MongoClient : DbM unit := λ c,
  (Returned tt,
   {| client := Some (clients c); db := db c; isConnected := isConnected c;
      server := server c; requests := requests c; slept := slept c;
      clients := S (clients c); closed := closed c |}).

(** [this.db = this.client.db(name); this.isConnected = true] *)
Definition set_connected : DbM unit := λ c,
  (Returned tt,
   {| client := client c; db := client c; isConnected := true;
      server := server c; requests := requests c; slept := slept c;
      clients := clients c; closed := closed c |}).

(** [this.isConnected = false; this.client = null; this.db = null], after
    the client [k] was closed. *)
Definition set_closed (k : nat) : DbM unit := λ c,
  (Returned tt,
   {| client := None; db := None; isConnected := false;
      server := server c; requests := requests c; slept := slept c;
      clients := clients c; closed := closed c ++ [k] |}).

(** [await this.client.connect()] inside the [try] of the retry loop:
    whether it resolved.  With no client the property read throws, which the
    same [catch] takes for a failed attempt. *)
Definition client_connect : DbM bool :=
  c ← get;
  match client c with
  | Some _ => request
  | None => mret false
  end.

(** The loop of [connectWithRetry] (lines 80-94) from [attempt] on;
    [remaining] is the number of times [attempt <= maxRetries] still
    holds. *)
Fixpoint retryLoop (remaining : nat) (attempt maxRetries retryDelay : Z)
    : DbM unit :=
  match remaining with
  | O => mret tt
  | S remaining =>
      connected ← client_connect;
      if connected : bool then mret tt
      else if attempt =? maxRetries then throw (FailedToConnect maxRetries)
      else
        _ ← sleep retryDelay;
        retryLoop remaining (attempt + 1) maxRetries retryDelay
  end.

(** [connectWithRetry(maxRetries = 3, retryDelay = 2000)] (line 79) *)
Definition connectWithRetry (maxRetries retryDelay : Z) : DbM unit :=
  retryLoop (Z.to_nat maxRetries) 1 maxRetries retryDelay.

(** [connect()] (line 45): the client in use. *)
Definition connect : DbM (option nat) :=
  c ← get;
  if isConnected c && bool_decide (is_Some (client c)) then mret (client c)
  else
    _ ← new_MongoClient;
    _ ← connectWithRetry 3 2000;
    _ ← set_connected;
    c ← get;
    mret (client c).

(** [getDatabase()] (line 124) *)
Definition getDatabase : DbM nat :=
  c ← get;
  match db c with
  | Some d => mret d
  | None => throw DatabaseNotConnected
  end.

(** [getCollection(collectionName)] (line 136): the handle is the [Db] and
    the name. *)
Definition getCollection (collectionName : string) : DbM (nat * string) :=
  d ← getDatabase;
  mret (d, collectionName).

(** [isConnectedToDatabase()] (line 144), as a truth value. *)
Definition isConnectedToDatabase (c : Connection) : bool :=
  isConnected c && bool_decide (is_Some (client c))
  && bool_decide (is_Some (db c)).

(** [ping()] (line 152): the [catch] turns a failed ping into [false]. *)
Definition ping : DbM bool :=
  c ← get;
  if negb (isConnectedToDatabase c) then mret false
  else request.

(** [close()] (line 186) *)
Definition close : DbM unit :=
  c ← get;
  match client c with
  | Some k =>
      if isConnected c then
        answered ← request;
        if answered : bool then set_closed k else throw CloseFailed
      else mret tt
  | None => mret tt
  end.

(** A connection object as the constructor leaves it, with the server
    [answers]. *)
Definition initial (answers : nat → bool) : Connection :=
  {| client := None; db := None; isConnected := false; server := answers;
     requests := 0; slept := 0; clients := 0; closed := [] |}.

End Database.

(** ** Queries by filter ([crudOperations.js], lines 120-218)

    The read operations that take a filter.  A filter document is the
    predicate it denotes, a projection document the function it denotes on
    documents, and a sort document the order it denotes ([le a b] when [a]
    may come before [b]); [{}] is no sort.  The server is free in the order
    in which it scans a collection: each operation takes that order, [scan],
    which is some enumeration of the documents stored ([scans]).  A sorted
    cursor yields the documents that tie in the order of the scan.  A
    projection keeps the [_id] of a document. *)

Module Queries.
Section Collection.
Context `{Document D}.

Record FindOptions (R : Type) := {
  projection : D → R;
  sort : option (D → D → bool);
  limit : Z;
  skip : Z
}.
#[global] Arguments projection {R} _.
#[global] Arguments sort {R} _.
#[global] Arguments limit {R} _.
#[global] Arguments skip {R} _.

(** [options = {}] *)
Definition defaults : FindOptions D :=
  {| projection := λ d, d; sort := None; limit := 0; skip := 0 |}.

(** An order in which the server may scan the collection in store [st]. *)
Definition scans (st : Store) (scan : list (ObjectId * D)) : Prop :=
  scan ≡ₚ map_to_list (table st).

(** The documents a cursor on [filter] yields, unsorted. *)
Definition matching (query : D → bool) (scan : list (ObjectId * D))
    : list (ObjectId * D) :=
  filter (λ kd, query kd.2 = true) scan.

(** The order of a sort document, on documents with their [_id]. *)
Definition before (le : D → D → bool) : relation (ObjectId * D) :=
  λ a b, le a.2 b.2 = true.

#[global] Instance before_dec (le : D → D → bool) (a b : ObjectId * D) :
  Decision (before le a b).
Proof. unfold before. apply _. Defined.

(** The cursor of [find] once sorted, when [sort] has a key. *)
Definition ordered {R} (query : D → bool) (options : FindOptions R)
    (scan : list (ObjectId * D)) : list (ObjectId * D) :=
  let cursor := matching query scan in
  match sort options with
  | Some le => merge_sort (before le) cursor
  | None => cursor
  end.

(** The cursor of [find] before its documents are projected: sorted, then
    [skip] and [limit] applied when above 0. *)
Definition cursor {R} (query : D → bool) (options : FindOptions R)
    (scan : list (ObjectId * D)) : list (ObjectId * D) :=
  let cursor := ordered query options scan in
  let cursor :=
    if 0 <? skip options then drop (Z.to_nat (skip options)) cursor
    else cursor in
  let cursor :=
    if 0 <? limit options then take (Z.to_nat (limit options)) cursor
    else cursor in
  cursor.

(** [find(filter, options)] (line 120) *)
Definition find {R} (query : D → bool) (options : FindOptions R)
    (scan : list (ObjectId * D)) : list (ObjectId * R) :=
  (λ kd, (kd.1, projection options kd.2)) <$> cursor query options scan.

(** [findOne(filter)] (line 178) *)
Definition findOne (query : D → bool) (scan : list (ObjectId * D))
    : option (ObjectId * D) :=
  head (matching query scan).

(** [count(filter)] (line 195) *)
Definition count (query : D → bool) (scan : list (ObjectId * D)) : Z :=
  Z.of_nat (length (matching query scan)).

(** [exists(filter)] (line 211) *)
Definition exists_ (query : D → bool) (scan : list (ObjectId * D)) : bool :=
  0 <? count query scan.

(** [options] with the [skip] and [limit] of page [i] of [size]
    documents. *)
Definition page {R} (options : FindOptions R) (size : Z) (i : nat)
    : FindOptions R :=
  {| projection := projection options; sort := sort options;
     limit := size; skip := Z.of_nat i * size |}.

(** [options] without [skip] and [limit]. *)
Definition whole {R} (options : FindOptions R) : FindOptions R :=
  {| projection := projection options; sort := sort options;
     limit := 0; skip := 0 |}.

End Collection.
#[global] Arguments FindOptions D R : clear implicits.
End Queries.

(** Options of a query on users: sorted by balance, the smallest first, and
    projected on the balance. *)
Definition demo_by_balance : Queries.FindOptions User Z :=
  {| Queries.projection := balance;
     Queries.sort := Some (λ a b, balance a <=? balance b);
     Queries.limit := 0; Queries.skip := 0 |}.

(** ** Game mechanics ([utils/game.ts], [hooks/useGameData.ts])

    Levels and experience points are integers. *)

Module Game.

(** [xpForNextLevel(level)] (game.ts, line 6) *)
Definition xpForNextLevel (level : Z) : Z := 100 + (level - 1) * 75.

(** The [while] loop of [calculateLevel] (lines 15-18), run for at most
    [fuel] tests of its condition: [None] when they do not suffice, else the
    [(newLevel, newXP)] the loop leaves. *)
Fixpoint levelLoop (fuel : nat) (newXP newLevel : Z) : option (Z * Z) :=
  match fuel with
  | O => None
  | S fuel =>
      if xpForNextLevel newLevel <=? newXP then
        levelLoop fuel (newXP - xpForNextLevel newLevel) (newLevel + 1)
      else Some (newLevel, newXP)
  end.

(** [calculateLevel(currentXP, currentLevel)] (line 11): [(level, xp)]. *)
Definition calculateLevel (fuel : nat) (currentXP currentLevel : Z)
    : option (Z * Z) :=
  levelLoop fuel currentXP currentLevel.

Record Attributes := {
  empathy : Z;
  discipline : Z;
  strategy : Z;
  communication : Z
}.

Record Character := {
  name : string;
  level : Z;
  xp : Z;
  attributes : Attributes
}.

(** The updater [awardXP(amount)] gives to [setCharacter]
    (useGameData.ts, lines 124-129). *)
Definition awardXP (fuel : nat) (amount : Z) (prev : Character)
    : option Character :=
  let newXPTotal := xp prev + amount in
  match calculateLevel fuel newXPTotal (level prev) with
  | Some (level, xp) =>
      Some {| name := name prev; level := level; xp := xp;
              attributes := attributes prev |}
  | None => None
  end.

(** The [xp] of a quest made by [addQuest] (useGameData.ts, line 98):
    [Math.max(5, Math.floor(Math.random() * 30) + 5)], [random] being the
    value of [Math.random()]. *)
Definition questXP (random : Q) : Z :=
  Z.max 5 (Qfloor (random * inject_Z 30) + 5).

(** [defaultCharacter] (useGameData.ts, line 10) *)
Definition defaultCharacter : Character :=
  {| name := "You"; level := 1; xp := 0;
     attributes := {| empathy := 3; discipline := 3; strategy := 2;
                      communication := 3 |} |}.

End Game.

(** The numbers [calculateLevel] handles from [xp] points at level [level]
    are safe integers: the points, and the cost of the highest level the
    points can reach (each level costs at least one point). *)
Definition levels_exact (xp level : Z) : Prop :=
  safe xp ∧ safe (Game.xpForNextLevel (level + Z.max 0 xp)).

(** A character whose points are not negative and fewer than its next
    level needs, at a level that is not negative. *)
Definition in_range (ch : Game.Character) : Prop :=
  0 ≤ Game.level ch
  ∧ 0 ≤ Game.xp ch < Game.xpForNextLevel (Game.level ch).

(** A connection object whose client was made and whose server answers the
    third request and no other. *)
Definition demo_connection : Database.Connection :=
  (Database.new_MongoClient
     (Database.initial (λ n, bool_decide (n = 2%nat)))).2.

(** * Properties *)

(** ** Running the repository operations *)

Lemma bind_run {A B} (m : M A) (f : A → M B) (w : World) :
  (m ≫= f) w
  = match m w with
    | (Ok a, w') => f a w'
    | (Throw e, w') => (Throw e, w')
    end.
Proof. reflexivity. Qed.

Lemma toObjectId_run (id : jsid) (w : World) :
  toObjectId id w
  = (match objectIdOf id with
     | Some o => Ok o
     | None => Throw InvalidIdentifier
     end, w).
Proof.
  destruct id as [o|s|]; try reflexivity.
  unfold toObjectId, objectIdOf.
  destruct (isValidObjectId (IdStr s)); reflexivity.
Qed.

Section RunById.
Context `{Document D}.

Lemma findById_run (id : jsid) (options : option Session) (w : World) :
  findById (D:=D) id options w
  = match objectIdOf id with
    | Some o =>
        findOne (D:=D) o options (log (EvGetCollection (collectionName D)) w)
    | None => (Throw InvalidIdentifier, w)
    end.
Proof.
  unfold findById. rewrite bind_run, toObjectId_run.
  destruct (objectIdOf id); reflexivity.
Qed.

Lemma updateById_run (id : jsid) (update : D → D) (options : option Session)
    (w : World) :
  updateById (D:=D) id update options w
  = match objectIdOf id with
    | Some o =>
        (findOneAndUpdate (D:=D) o (λ d, stamp_updatedAt (now w) (update d))
           options ≫= result_value)
          (set_now (now w + 1) (log (EvGetCollection (collectionName D)) w))
    | None => (Throw InvalidIdentifier, w)
    end.
Proof.
  unfold updateById. rewrite bind_run, toObjectId_run.
  destruct (objectIdOf id); reflexivity.
Qed.

Lemma deleteById_run (id : jsid) (options : option Session) (w : World) :
  deleteById (D:=D) id options w
  = match objectIdOf id with
    | Some o =>
        (findOneAndDelete (D:=D) o options ≫= result_value)
          (log (EvGetCollection (collectionName D)) w)
    | None => (Throw InvalidIdentifier, w)
    end.
Proof.
  unfold deleteById. rewrite bind_run, toObjectId_run.
  destruct (objectIdOf id); reflexivity.
Qed.

(** C9. Every by-id operation of the repository (findById, updateById,
    deleteById) validates the identifier first: on a malformed identifier
    it throws InvalidIdentifier and the world is exactly as before, so the
    collection was not fetched, no document was read, modified or deleted,
    and nothing was added to the trace of driver calls. *)
Theorem by_id_rejects_malformed (id : jsid) (update : D → D)
    (options : option Session) (w : World) :
  malformed id →
  findById (D:=D) id options w = (Throw InvalidIdentifier, w)
  ∧ updateById (D:=D) id update options w = (Throw InvalidIdentifier, w)
  ∧ deleteById (D:=D) id options w = (Throw InvalidIdentifier, w).
Proof.
  unfold malformed. intros Hbad.
  rewrite findById_run, updateById_run, deleteById_run, Hbad. done.
Qed.
End RunById.

(** ** Running a workflow *)

Lemma withTransaction_run {A} (operations : Session → M A) (w : World) :
  withTransaction operations w
  = match operations (nextSession w) (opened w) with
    | (Ok a, w1) =>
        (Ok a, log (EvEndSession (nextSession w))
                 (commitTransaction (nextSession w) w1))
    | (Throw e, w1) =>
        (Throw e, log (EvEndSession (nextSession w))
                    (abortTransaction (nextSession w) w1))
    end.
Proof.
  unfold withTransaction, try_finally, session_withTransaction, startSession.
  rewrite bind_run. unfold opened. simpl.
  destruct (operations _ _) as [[a|e] w1]; reflexivity.
Qed.

Lemma run_Ok {A} (m : M A) (w : World) :
  is_Ok (m w).1 = true → ∃ r, m w = (Ok r, (m w).2).
Proof. destruct (m w) as [[r|e] w']; [eauto|done]. Qed.

(** C7. transferFunds with amount <= 0 fails with InvalidAmount, whatever
    the two identifiers are; the committed store (so both balances and both
    ledgers) and the caller's objects are unchanged, and the driver was asked
    for nothing but to open and abort the transaction: no read, no debit, no
    credit, no ledger entry. *)
Theorem transferFunds_rejects_nonpositive (fromUserId toUserId : jsid)
    (amount : Z) (description : string) (w : World) :
  amount ≤ 0 →
  ∃ w',
    transferFunds fromUserId toUserId amount description w
      = (Throw InvalidAmount, w')
    ∧ committed w' = committed w
    ∧ heap w' = heap w
    ∧ trace w'
      = trace w ++ [EvStartSession (nextSession w);
                    EvStartTransaction (nextSession w);
                    EvAbort (nextSession w);
                    EvEndSession (nextSession w)].
Proof.
  intros Hamount. unfold transferFunds. rewrite withTransaction_run.
  assert ((amount <=? 0) = true) as -> by lia.
  eexists. split; [reflexivity|]. simpl.
  repeat split. by rewrite <- !app_assoc.
Qed.

(** ** Session discipline and atomicity of workflow bodies *)

Lemma view_in_txn (s : Session) (st : Store) (w : World) :
  txn w = Some (s, st) → view (Some s) w = st.
Proof. unfold view. intros ->. by rewrite decide_True. Qed.

Lemma write_in_txn (s : Session) (st : Store) (f : Store → Store) (w : World) :
  txn w = Some (s, st) → write (Some s) f w = set_txn (Some (s, f st)) w.
Proof. unfold write. intros ->. by rewrite decide_True. Qed.

Lemma write_frame (session : option Session) (f : Store → Store) (w : World) :
  trace (write session f w) = trace w
  ∧ heap (write session f w) = heap w
  ∧ now (write session f w) = now w
  ∧ nextSession (write session f w) = nextSession w.
Proof.
  unfold write. destruct (txn w) as [[s' st]|]; [|done].
  by destruct (decide _).
Qed.

Lemma write_trace (session : option Session) (f : Store → Store) (w : World) :
  trace (write session f w) = trace w.
Proof. apply write_frame. Qed.

Section Body.
Variable s : Session.
Variable G : Store → Store → Prop.
Hypothesis G_refl : ∀ st, G st st.
Hypothesis G_trans : ∀ a b c, G a b → G b c → G a c.

Lemma keeps_refl (w : World) : keeps s G w w.
Proof.
  split.
  - exists []. by rewrite app_nil_r.
  - intros st Hst. eauto.
Qed.

Lemma keeps_trans (w1 w2 w3 : World) :
  keeps s G w1 w2 → keeps s G w2 w3 → keeps s G w1 w3.
Proof.
  intros [(e1 & Ht1 & Hd1) H1] [(e2 & Ht2 & Hd2) H2]. split.
  - exists (e1 ++ e2). rewrite Ht2, Ht1, app_assoc. split; [done|].
    by apply Forall_app.
  - intros st Hst. destruct (H1 st Hst) as (Hc1 & st1 & Hst1 & HG1).
    destruct (H2 st1 Hst1) as (Hc2 & st2 & Hst2 & HG2).
    split; [congruence|]. eauto.
Qed.

(** A step that only logs a disciplined event, moves the clock or touches
    the caller's objects. *)
Lemma keeps_quiet (w w' : World) (evs : list Event) :
  trace w' = trace w ++ evs → Forall (disciplined s) evs →
  committed w' = committed w → txn w' = txn w →
  keeps s G w w'.
Proof.
  intros Ht Hd Hc Htx. split; [eauto|].
  intros st Hst. split; [done|]. exists st. rewrite Htx. eauto.
Qed.

Lemma body_keeps_ret {A} (a : A) : body_keeps s G (mret a).
Proof. intros w. apply keeps_refl. Qed.

Lemma body_keeps_throw {A} (e : Error) : body_keeps s G (throw (A:=A) e).
Proof. intros w. apply keeps_refl. Qed.

Lemma body_keeps_bind {A B} (m : M A) (f : A → M B) :
  body_keeps s G m → (∀ a, body_keeps s G (f a)) →
  body_keeps s G (m ≫= f).
Proof.
  intros Hm Hf w. rewrite bind_run. specialize (Hm w).
  destruct (m w) as [[a|e] w1]; simpl in *; [|done].
  eapply keeps_trans; [exact Hm|apply Hf].
Qed.

Lemma body_keeps_newDate : body_keeps s G newDate.
Proof. intros w. apply (keeps_quiet _ _ []); simpl; by rewrite ?app_nil_r. Qed.

Lemma body_keeps_deref (l : loc) : body_keeps s G (deref l).
Proof.
  intros w. unfold deref. destruct (heap w !! l); apply keeps_refl.
Qed.

Lemma body_keeps_assign (l : loc) (f : Item → Item) :
  body_keeps s G (assign l f).
Proof. intros w. apply (keeps_quiet _ _ []); simpl; by rewrite ?app_nil_r. Qed.

Lemma body_keeps_toObjectId (id : jsid) : body_keeps s G (toObjectId id).
Proof.
  intros w. rewrite toObjectId_run. destruct (objectIdOf id); apply keeps_refl.
Qed.

Section Collection.
Context `{Document D}.

Lemma body_keeps_getCollection : body_keeps s G (getCollection (D:=D)).
Proof.
  intros w. apply (keeps_quiet _ _ [EvGetCollection (collectionName D)]);
    simpl; try done. by repeat constructor.
Qed.

(** A read given no session. *)
Lemma body_keeps_findById (id : jsid) :
  body_keeps s G (findById (D:=D) id None).
Proof.
  unfold findById.
  apply body_keeps_bind; [apply body_keeps_toObjectId|]. intros o.
  apply body_keeps_bind; [apply body_keeps_getCollection|]. intros _.
  intros w. apply (keeps_quiet _ _ [EvFindOne (collectionName D) o None]);
    simpl; try done. by repeat constructor.
Qed.

(** A write given the session changes the working copy only. *)
Lemma body_keeps_updateById (id : jsid) (update : D → D) :
  allows_update G update →
  body_keeps s G (updateById (D:=D) id update (Some s)).
Proof.
  intros HG. unfold updateById.
  apply body_keeps_bind; [apply body_keeps_toObjectId|]. intros o.
  apply body_keeps_bind; [apply body_keeps_getCollection|]. intros _.
  apply body_keeps_bind; [apply body_keeps_newDate|]. intros t.
  apply body_keeps_bind;
    [|intros [r|]; [apply body_keeps_ret|apply body_keeps_throw]].
  intros w. unfold findOneAndUpdate. split.
  - exists [EvFindOneAndUpdate (collectionName D) o (Some s)].
    split; [|by repeat constructor].
    destruct (table (view (Some s) w) !! o); simpl; [|done].
    by rewrite write_trace.
  - intros st Hst. rewrite (view_in_txn _ _ _ Hst).
    destruct (table st !! o); simpl.
    + rewrite (write_in_txn s st) by done. simpl. eauto.
    + rewrite Hst. eauto.
Qed.

Lemma body_keeps_createOne (document : D) :
  allows_insert D G →
  body_keeps s G (createOne (D:=D) document (Some s)).
Proof.
  intros HG. unfold createOne.
  apply body_keeps_bind; [apply body_keeps_getCollection|]. intros _.
  apply body_keeps_bind; [apply body_keeps_newDate|]. intros c.
  apply body_keeps_bind; [apply body_keeps_newDate|]. intros u.
  apply body_keeps_bind; [|intros [[] o]; simpl;
    [apply body_keeps_ret|apply body_keeps_throw]].
  intros w. unfold insertOne. split.
  - exists [EvInsertOne (collectionName D)
              (fresh (ids_in_use (D:=D) w)) (Some s)].
    split; [|by repeat constructor].
    destruct (decide _); simpl; [done|]. by rewrite write_trace.
  - intros st Hst. destruct (decide _); simpl; [by eauto|].
    rewrite (write_in_txn s st) by done. simpl.
    split; [done|]. eexists. split; [done|]. apply HG.
    apply not_elem_of_dom.
    pose proof (is_fresh (ids_in_use (D:=D) w)) as Hfresh.
    intros Hin. apply Hfresh. unfold ids_in_use at 2. rewrite Hst.
    by apply elem_of_union_r.
Qed.
End Collection.
End Body.

Section Workflows.
Variable G : Store → Store → Prop.
Hypothesis G_refl : ∀ st, G st st.
Hypothesis G_trans : ∀ a b c, G a b → G b c → G a c.

Local Ltac leaf :=
  first
    [ apply body_keeps_ret
    | apply body_keeps_throw
    | apply body_keeps_newDate
    | apply body_keeps_deref
    | apply body_keeps_assign
    | apply body_keeps_findById
    | apply body_keeps_updateById
    | apply body_keeps_createOne ];
  try assumption; try done.

Local Ltac step :=
  apply body_keeps_bind; [assumption|try (assumption || leaf)|intros ?].

Lemma withTransaction_one_session {A} (operations : Session → M A) :
  (∀ s, body_keeps s G (operations s)) →
  one_session (withTransaction operations).
Proof.
  intros Hbody w. rewrite withTransaction_run.
  destruct (Hbody (nextSession w) (opened w)) as [(evs & Ht & Hd) _].
  destruct (operations _ _) as [[a|e] w1]; simpl in *.
  - exists evs, (EvCommit (nextSession w)). split; [|by auto].
    unfold commitTransaction. destruct (txn w1) as [[? ?]|]; simpl;
      rewrite Ht; by rewrite <- !app_assoc.
  - exists evs, (EvAbort (nextSession w)). split; [|by auto].
    rewrite Ht. by rewrite <- !app_assoc.
Qed.

(** A workflow whose body keeps to its session commits a store related to
    the old one by [G], or, when it throws, leaves the committed store as
    it was. *)
Lemma withTransaction_atomic {A} (operations : Session → M A) (w : World) :
  (∀ s, body_keeps s G (operations s)) →
  match withTransaction operations w with
  | (Ok _, w') => G (committed w) (committed w')
  | (Throw _, w') => committed w' = committed w
  end.
Proof.
  intros Hbody. rewrite withTransaction_run.
  destruct (Hbody (nextSession w) (opened w)) as [_ Htx].
  destruct (Htx (committed w) eq_refl) as (Hc & st' & Hst' & HG).
  destruct (operations _ _) as [[a|e] w1]; simpl in *.
  - unfold commitTransaction. by rewrite Hst'.
  - done.
Qed.

Lemma reserveInventory_keeps (s : Session) (ls : list loc) :
  ∀ acc tot, body_keeps s G (reserveInventory ls acc tot).
Proof.
  induction ls as [|l ls IH]; intros acc tot; simpl; [leaf|].
  step. step. destruct a0 as [[o p]|]; [|leaf].
  destruct (_ <? _); [leaf|]. step. apply IH.
Qed.

Lemma serialiseItems_keeps (s : Session) (ls : list loc) :
  body_keeps s G (serialiseItems ls).
Proof.
  induction ls as [|l ls IH]; simpl; [leaf|].
  step. step. leaf.
Qed.

Lemma applyInventoryUpdates_keeps (s : Session) (o : ObjectId)
    (us : list InventoryUpdate) :
  (∀ z e, allows_update G (inc_stock z e)) →
  body_keeps s G (applyInventoryUpdates s o us).
Proof.
  intros HG. induction us as [|u us IH]; simpl; [leaf|].
  step. step. done.
Qed.

Lemma restoreInventory_keeps (s : Session) (o : ObjectId) (its : list Item) :
  (∀ z e, allows_update G (inc_stock z e)) →
  body_keeps s G (restoreInventory s o its).
Proof.
  intros HG. induction its as [|it its IH]; simpl; [leaf|].
  step. step. done.
Qed.

Lemma updatePrices_keeps (s : Session) (t : Z) (us : list PriceUpdate) :
  (∀ z e, allows_update G (set_price z e)) →
  ∀ acc, body_keeps s G (updatePrices s t us acc).
Proof.
  intros HG. induction us as [|u us IH]; intros acc; simpl; [leaf|].
  destruct (_ <=? _); [leaf|]. step.
  destruct a as [[o p]|]; [|leaf]. step. apply IH.
Qed.

Lemma withTransaction_ok {A} (operations : Session → M A) :
  (∀ s, body_keeps s G (operations s)) →
  workflow_ok G (withTransaction operations).
Proof.
  intros Hbody. split.
  - by apply withTransaction_one_session.
  - intros w. by apply withTransaction_atomic.
Qed.

(** The five workflows. *)

Lemma processOrder_ok (orderData : OrderData) (ls : list loc) :
  allows_insert Order G →
  (∀ z e, allows_update G (inc_stock z e)) →
  (∀ o t, allows_update G (λ u, inc_counters 1 t 0 (push_orderHistory o u))) →
  workflow_ok G (processOrder orderData ls).
Proof.
  intros Hins Hstock Huser. apply withTransaction_ok. intros s.
  step. destruct a as [?|]; [|leaf].
  step; [apply reserveInventory_keeps|]. destruct a as [us tot].
  step; [apply serialiseItems_keeps|]. step.
  step; [by apply applyInventoryUpdates_keeps|]. step. leaf.
Qed.

Lemma transferFunds_ok (fromUserId toUserId : jsid) (amount : Z)
    (description : string) :
  (∀ e z, allows_update G (λ u, push_transactions e (inc_balance z u))) →
  workflow_ok G (transferFunds fromUserId toUserId amount description).
Proof.
  intros HG. apply withTransaction_ok. intros s.
  destruct (_ <=? _); [leaf|]. step.
  destruct a as [[? ?]|]; [|leaf]. step. destruct a as [?|]; [|leaf].
  destruct (_ <? _); [leaf|]. step. step. step. step. leaf.
Qed.

Lemma cancelOrder_ok (orderId : jsid) (reason : string) :
  (∀ z e, allows_update G (inc_stock z e)) →
  (∀ t r, allows_update G (set_cancelled t r)) →
  (∀ n t o,
     allows_update G (λ u, inc_counters n t 1 (pull_orderHistory o u))) →
  workflow_ok G (cancelOrder orderId reason).
Proof.
  intros Hstock Horder Huser. apply withTransaction_ok. intros s.
  step. destruct a as [[o ord]|]; [|leaf].
  destruct (bool_decide _); [leaf|]. destruct (bool_decide _); [leaf|].
  step; [by apply restoreInventory_keeps|]. step. step. step. leaf.
Qed.

Lemma bulkUpdatePrices_ok (priceUpdates : list PriceUpdate) :
  (∀ z e, allows_update G (set_price z e)) →
  workflow_ok G (bulkUpdatePrices priceUpdates).
Proof.
  intros HG. apply withTransaction_ok. intros s.
  step. step; [by apply updatePrices_keeps|]. leaf.
Qed.

Lemma createUserWithSetup_ok (userData : UserData)
    (initialSettings : InitialSettings) :
  allows_insert User G → allows_insert Profile G →
  (∀ e, allows_update G (push_transactions e)) →
  workflow_ok G (createUserWithSetup userData initialSettings).
Proof.
  intros Huser Hprofile Hpush. apply withTransaction_ok. intros s.
  step. step.
  { destruct (createProfile _); [|leaf]. step. leaf. }
  step; [|leaf].
  destruct (initialBalance _) as [b|]; [|leaf].
  destruct (_ <? _); [|leaf]. step. step. step. leaf.
Qed.
End Workflows.

(** ** The claims on sessions and identifiers *)

(** C9, at a string that is no ObjectId: the three by-id operations on the
    users collection reject it and leave the sample world untouched. *)
Lemma by_id_rejects_malformed_witness :
  malformed (IdStr "not-an-object-id")
  ∧ findById (D:=User) (IdStr "not-an-object-id") None demo_world
    = (Throw InvalidIdentifier, demo_world)
  ∧ updateById (D:=User) (IdStr "not-an-object-id") (inc_balance 1) None
      demo_world
    = (Throw InvalidIdentifier, demo_world)
  ∧ deleteById (D:=User) (IdStr "not-an-object-id") None demo_world
    = (Throw InvalidIdentifier, demo_world).
Proof.
  split; [reflexivity|].
  apply (by_id_rejects_malformed (D:=User)). reflexivity.
Defined.

(** C7, at amount 0 between the two sample users. *)
Lemma transferFunds_rejects_nonpositive_witness :
  0 ≤ 0
  ∧ ∃ w',
      transferFunds (IdObj 1%N) (IdObj 2%N) 0 "" demo_world
        = (Throw InvalidAmount, w')
      ∧ committed w' = committed demo_world
      ∧ heap w' = heap demo_world
      ∧ trace w'
        = trace demo_world ++ [EvStartSession (nextSession demo_world);
                               EvStartTransaction (nextSession demo_world);
                               EvAbort (nextSession demo_world);
                               EvEndSession (nextSession demo_world)].
Proof.
  split; [lia|].
  apply (transferFunds_rejects_nonpositive (IdObj 1%N) (IdObj 2%N) 0 ""
           demo_world).
  lia.
Defined.

(** C3, as the code has it. Each of the five workflows opens one session,
    runs one transaction on it, and between its start and its commit or abort
    gives that session to every write it makes (createOne, updateById); its
    reads (findById) are given no session. *)
Theorem workflows_keep_one_session (orderData : OrderData) (ls : list loc)
    (fromUserId toUserId orderId : jsid) (amount : Z)
    (description reason : string) (priceUpdates : list PriceUpdate)
    (userData : UserData) (initialSettings : InitialSettings) :
  one_session (processOrder orderData ls)
  ∧ one_session (transferFunds fromUserId toUserId amount description)
  ∧ one_session (cancelOrder orderId reason)
  ∧ one_session (bulkUpdatePrices priceUpdates)
  ∧ one_session (createUserWithSetup userData initialSettings).
Proof.
  set (G := λ _ _ : Store, True).
  assert (∀ st, G st st) as Hrefl by done.
  assert (∀ a b c, G a b → G b c → G a c) as Htrans by done.
  repeat split.
  - by apply (processOrder_ok G).
  - by apply (transferFunds_ok G).
  - by apply (cancelOrder_ok G).
  - by apply (bulkUpdatePrices_ok G).
  - by apply (createUserWithSetup_ok G).
Qed.

(** C3 fails as stated: in processOrder on the sample world, the lookup of
    the buyer is a Repository call made without the workflow's session. *)
Lemma processOrder_reads_outside_session :
  EvFindOne "users" 1%N None
    ∈ trace (processOrder demo_order [0%N; 1%N] demo_world).2
  ∧ existsb outside_session
      (trace (processOrder demo_order [0%N; 1%N] demo_world).2) = true.
Proof. split; [|by vm_compute]. vm_compute. repeat constructor. Qed.

(** ** bulkUpdatePrices: rejection of a batch *)

Lemma findById_read `{Document D} (id : jsid) (o : ObjectId) (w : World) :
  objectIdOf id = Some o →
  findById (D:=D) id None w
  = (Ok ((λ d, (o, d)) <$> table (committed w) !! o),
     log (EvFindOne (collectionName D) o None)
       (log (EvGetCollection (collectionName D)) w)).
Proof. intros Ho. rewrite findById_run, Ho. reflexivity. Qed.

(** ** Writes inside the transaction *)

Section RunInTxn.
Context `{LawfulDocument D}.

Lemma updateById_in_txn (id : jsid) (update : D → D) (s : Session)
    (st : Store) (o : ObjectId) (w : World) :
  objectIdOf id = Some o → txn w = Some (s, st) →
  updateById (D:=D) id update (Some s) w
  = (match table (D:=D) st !! o with
     | Some _ => Ok tt
     | None => Throw TypeError
     end,
     set_txn
       (Some (s, set_table
                   (alter (λ d, stamp_updatedAt (now w) (update d)) o
                      (table st)) st))
       (log (EvFindOneAndUpdate (collectionName D) o (Some s))
          (set_now (now w + 1)
             (log (EvGetCollection (collectionName D)) w)))).
Proof.
  intros Ho Htx. rewrite updateById_run, Ho, bind_run.
  unfold findOneAndUpdate.
  rewrite (view_in_txn s st) by done.
  destruct (table st !! o) as [d|] eqn:Hd; simpl.
  - by rewrite (write_in_txn s st).
  - assert (alter (λ d, stamp_updatedAt (now w) (update d)) o (table st)
            = table st) as ->.
    { apply map_eq. intros k. rewrite lookup_alter.
      case_decide; [subst; by rewrite Hd|done]. }
    rewrite set_table_table. unfold set_txn, log, set_now. simpl.
    by rewrite Htx.
Qed.

(** The update of a document that is in the working copy. *)
Lemma updateById_found (id : jsid) (update : D → D) (s : Session)
    (st : Store) (o : ObjectId) (d : D) (w : World) :
  objectIdOf id = Some o → txn w = Some (s, st) →
  table (D:=D) st !! o = Some d →
  updateById (D:=D) id update (Some s) w
  = (Ok tt,
     set_txn
       (Some (s, set_table
                   (alter (λ d, stamp_updatedAt (now w) (update d)) o
                      (table st)) st))
       (log (EvFindOneAndUpdate (collectionName D) o (Some s))
          (set_now (now w + 1)
             (log (EvGetCollection (collectionName D)) w)))).
Proof.
  intros Ho Htx Hd. by rewrite (updateById_in_txn _ _ s st o), Hd.
Qed.

Lemma updateById_present (id : jsid) (update : D → D) (s : Session)
    (st : Store) (o : ObjectId) (w : World) :
  objectIdOf id = Some o → txn w = Some (s, st) →
  is_Some (table (D:=D) st !! o) →
  updateById (D:=D) id update (Some s) w
  = (Ok tt,
     set_txn
       (Some (s, set_table
                   (alter (λ d, stamp_updatedAt (now w) (update d)) o
                      (table st)) st))
       (log (EvFindOneAndUpdate (collectionName D) o (Some s))
          (set_now (now w + 1)
             (log (EvGetCollection (collectionName D)) w)))).
Proof. intros Ho Htx [d Hd]. by apply (updateById_found _ _ _ _ _ d). Qed.
End RunInTxn.

(** A batch with an invalid entry never completes. *)
Lemma updatePrices_fails (s : Session) (t : Z) (us : list PriceUpdate) :
  Exists (λ u, pu_newPrice u ≤ 0) us →
  ∀ acc w, ∃ e w', updatePrices s t us acc w = (Throw e, w').
Proof.
  induction us as [|u us IH]; intros Hex acc w; [by inversion Hex|].
  simpl. destruct (pu_newPrice u <=? 0) eqn:Hprice; [by eauto|].
  assert (Exists (λ u, pu_newPrice u ≤ 0) us) as Hrest.
  { inversion Hex; subst; [lia|done]. }
  rewrite bind_run.
  destruct (findById _ _ w) as [[[[o p]|]|e] w1]; [|by eauto..].
  rewrite bind_run.
  destruct (updateById _ _ _ w1) as [[r|e] w2]; [|by eauto].
  apply IH, Hrest.
Qed.

(** When the entries before the first invalid one name stored products, the
    loop reaches the invalid entry. *)
Lemma updatePrices_invalid (s : Session) (t : Z) (us : list PriceUpdate) :
  Exists (λ u, pu_newPrice u ≤ 0) us →
  ∀ acc w st,
    txn w = Some (s, st) →
    dom (products (committed w)) ⊆ dom (products st) →
    Forall (names_product (committed w)) (valid_prefix us) →
    (updatePrices s t us acc w).1 = Throw InvalidPrice.
Proof.
  induction us as [|u us IH]; intros Hex acc w st Htx Hdom Hnames;
    [by inversion Hex|].
  simpl in *. destruct (pu_newPrice u <=? 0) eqn:Hprice; [done|].
  assert (Exists (λ u, pu_newPrice u ≤ 0) us) as Hrest.
  { inversion Hex; subst; [lia|done]. }
  inversion Hnames as [|? ? (o & Ho & [p Hp]) Hnames']; subst.
  rewrite bind_run, (findById_read _ o _ Ho).
  simpl. rewrite Hp. simpl. rewrite bind_run.
  rewrite (updateById_in_txn _ _ s st o) by done.
  change (table (D:=Product) st) with (products st).
  destruct (products st !! o) as [p1|] eqn:Hp1.
  - eapply (IH Hrest); [reflexivity| |exact Hnames'].
    simpl. by rewrite dom_alter_L.
  - exfalso. apply not_elem_of_dom in Hp1. apply Hp1, Hdom.
    by apply elem_of_dom.
Qed.

(** C5, as the code has it. If any entry of the batch has newPrice <= 0,
    bulkUpdatePrices fails and the committed store is as before: every
    product keeps its price and its priceHistory.  The entries are validated
    one by one inside the loop, so the updates of the entries that precede
    the invalid one are issued (inside the session) and then dropped by the
    abort.  The failure is InvalidPrice when the entries before the first
    invalid one all name stored products. *)
Theorem bulkUpdatePrices_rejects_batch (priceUpdates : list PriceUpdate)
    (w : World) :
  Exists (λ u, pu_newPrice u ≤ 0) priceUpdates →
  ∃ e w',
    bulkUpdatePrices priceUpdates w = (Throw e, w')
    ∧ committed w' = committed w
    ∧ (Forall (names_product (committed w)) (valid_prefix priceUpdates) →
       e = InvalidPrice).
Proof.
  intros Hex.
  destruct (bulkUpdatePrices_ok (λ _ _, True) ltac:(done) ltac:(done)
              priceUpdates ltac:(done)) as [_ Hatomic].
  specialize (Hatomic w).
  assert (∃ e w', bulkUpdatePrices priceUpdates w = (Throw e, w')
                  ∧ (Forall (names_product (committed w))
                       (valid_prefix priceUpdates) → e = InvalidPrice))
    as (e & w' & Hrun & He).
  { unfold bulkUpdatePrices. rewrite withTransaction_run, bind_run.
    unfold newDate at 1. rewrite bind_run.
    set (w1 := set_now _ (opened w)).
    destruct (updatePrices_fails (nextSession w) (now (opened w)) priceUpdates
                Hex [] w1) as (e & w' & Hloop).
    pose proof (updatePrices_invalid (nextSession w) (now (opened w))
                  priceUpdates Hex [] w1 (committed w) eq_refl
                  ltac:(done)) as Hinv.
    rewrite Hloop in *. simpl in *.
    eexists _, _. split; [reflexivity|]. intros Hnames.
    specialize (Hinv Hnames). congruence. }
  rewrite Hrun in Hatomic. eauto.
Qed.

(** C5, at the sample batch, whose second entry has price 0. *)
Lemma bulkUpdatePrices_rejects_batch_witness :
  Exists (λ u, pu_newPrice u ≤ 0) demo_batch
  ∧ ∃ e w',
      bulkUpdatePrices demo_batch demo_world = (Throw e, w')
      ∧ committed w' = committed demo_world
      ∧ (Forall (names_product (committed demo_world)) (valid_prefix demo_batch)
         → e = InvalidPrice).
Proof.
  assert (Exists (λ u, pu_newPrice u ≤ 0) demo_batch) as Hex.
  { apply Exists_cons_tl, Exists_cons_hd. simpl. lia. }
  split; [exact Hex|].
  exact (bulkUpdatePrices_rejects_batch demo_batch demo_world Hex).
Defined.

(** C5 fails as stated: on the sample batch the workflow fails with
    InvalidPrice only after it has asked the driver to update the first
    product; the failure does not come before any mutation. *)
Lemma bulkUpdatePrices_writes_before_rejecting :
  (bulkUpdatePrices demo_batch demo_world).1 = Throw InvalidPrice
  ∧ EvFindOneAndUpdate "products" 10%N (Some 0%N)
      ∈ trace (bulkUpdatePrices demo_batch demo_world).2
  ∧ existsb mutation (trace (bulkUpdatePrices demo_batch demo_world).2) = true.
Proof.
  split; [by vm_compute|]. split; [|by vm_compute].
  vm_compute. repeat constructor.
Qed.

(** ** cancelOrder *)

Lemma same_orders_users_refl (st : Store) : same_orders_users st st.
Proof. done. Qed.

Lemma same_orders_users_trans (a b c : Store) :
  same_orders_users a b → same_orders_users b c → same_orders_users a c.
Proof. intros [? ?] [? ?]. split; congruence. Qed.

(** What a completed cancellation has committed on the order and on the
    buyer. *)
Lemma cancelOrder_Ok (orderId : jsid) (reason : string) (w w' : World)
    (r : CancelResult) (o : ObjectId) :
  objectIdOf orderId = Some o →
  cancelOrder orderId reason w = (Ok r, w') →
  ∃ ord t1 t2 t3 uid,
    orders (committed w) !! o = Some ord
    ∧ status ord ≠ "cancelled"
    ∧ (status ord ∉ ["shipped"; "delivered"])
    ∧ objectIdOf (userId ord) = Some uid
    ∧ orders (committed w')
      = alter (λ d, stamp_updatedAt t1 (set_cancelled t2 reason d)) o
          (orders (committed w))
    ∧ users (committed w')
      = alter (λ u, stamp_updatedAt t3
                      (inc_counters (-1) (- total ord) 1
                         (pull_orderHistory o u)))
          uid (users (committed w)).
Proof.
  intros Ho Hrun. unfold cancelOrder in Hrun.
  rewrite withTransaction_run in Hrun. cbv beta in Hrun.
  rewrite bind_run, (findById_read _ o _ Ho) in Hrun.
  change (committed (opened w)) with (committed w) in Hrun.
  change (table (committed w)) with (orders (committed w)) in Hrun.
  destruct (orders (committed w) !! o) as [ord|] eqn:Hord;
    [|by simpl in Hrun].
  simpl in Hrun.
  destruct (decide (status ord = "cancelled")) as [Hc|Hc];
    [by rewrite bool_decide_eq_true_2 in Hrun|].
  rewrite bool_decide_eq_false_2 in Hrun by done.
  destruct (decide (status ord ∈ ["shipped"; "delivered"])) as [Hs|Hs];
    [by rewrite bool_decide_eq_true_2 in Hrun|].
  rewrite bool_decide_eq_false_2 in Hrun by done.
  rewrite bind_run in Hrun.
  set (s := nextSession w) in *.
  set (w1 := log _ (log _ (opened w))) in Hrun.
  assert (txn w1 = Some (s, committed w)) as Htx1 by done.
  destruct (restoreInventory_keeps same_orders_users same_orders_users_refl
              same_orders_users_trans s o (items ord) ltac:(done) w1)
    as [_ Hk].
  destruct (Hk _ Htx1) as (_ & st2 & Hst2 & Ho2 & Hu2). clear Hk.
  destruct (restoreInventory s o (items ord) w1) as [[[]|e] w2]; [|done].
  simpl in Hst2.
  rewrite bind_run in Hrun. unfold newDate at 1 in Hrun.
  rewrite bind_run, (updateById_in_txn _ _ s st2 o) in Hrun by done.
  destruct (table (D:=Order) st2 !! o) as [?|]; [|done].
  rewrite bind_run in Hrun.
  destruct (objectIdOf (userId ord)) as [uid|] eqn:Huid.
  - rewrite (updateById_in_txn _ _ s _ uid) in Hrun by done.
    match type of Hrun with
    | context [table (D:=User) ?st !! uid] =>
        destruct (table (D:=User) st !! uid) as [?|]; [|done]
    end.
    injection Hrun as _ <-. simpl.
    exists ord. eexists _, _, _. exists uid.
    rewrite Ho2, Hu2. done.
  - rewrite updateById_run, Huid in Hrun. done.
Qed.

Lemma cancelOrder_run (orderId : jsid) (reason : string) (o : ObjectId)
    (w : World) :
  objectIdOf orderId = Some o →
  orders (committed w) !! o = None
  ∨ (∃ ord, orders (committed w) !! o = Some ord
            ∧ (status ord = "cancelled"
               ∨ status ord ∈ ["shipped"; "delivered"])) →
  ∃ w',
    cancelOrder orderId reason w
    = (Throw (match orders (committed w) !! o with
              | None => NotFound "Order not found"
              | Some ord =>
                  if bool_decide (status ord = "cancelled")
                  then AlreadyCancelled else NotCancellable
              end), w')
    ∧ committed w' = committed w
    ∧ trace w'
      = trace w ++ [EvStartSession (nextSession w);
                    EvStartTransaction (nextSession w);
                    EvGetCollection "orders";
                    EvFindOne "orders" o None;
                    EvAbort (nextSession w);
                    EvEndSession (nextSession w)].
Proof.
  intros Ho Hcase. unfold cancelOrder.
  rewrite withTransaction_run. cbv beta.
  rewrite bind_run, (findById_read _ o _ Ho).
  change (table (committed (opened w))) with (orders (committed w)).
  destruct Hcase as [Hnone|(ord & Hord & Hstatus)].
  - rewrite Hnone. simpl. eexists. split; [reflexivity|]. simpl.
    split; [done|]. by rewrite <- !app_assoc.
  - rewrite Hord. simpl.
    destruct (decide (status ord = "cancelled")) as [Hc|Hc].
    + rewrite !bool_decide_eq_true_2 by done. simpl.
      eexists. split; [reflexivity|]. simpl.
      split; [done|]. by rewrite <- !app_assoc.
    + destruct Hstatus as [?|Hs]; [done|].
      rewrite !(bool_decide_eq_false_2 (status ord = "cancelled")) by done.
      rewrite bool_decide_eq_true_2 by done. simpl.
      eexists. split; [reflexivity|]. simpl.
      split; [done|]. by rewrite <- !app_assoc.
Qed.

Lemma cancelOrder_fails_clean (orderId : jsid) (reason : string)
    (o : ObjectId) (w : World) (e : Error) :
  objectIdOf orderId = Some o →
  orders (committed w) !! o = None
  ∨ (∃ ord, orders (committed w) !! o = Some ord
            ∧ (status ord = "cancelled"
               ∨ status ord ∈ ["shipped"; "delivered"])) →
  e = match orders (committed w) !! o with
      | None => NotFound "Order not found"
      | Some ord =>
          if bool_decide (status ord = "cancelled")
          then AlreadyCancelled else NotCancellable
      end →
  fails_clean (cancelOrder orderId reason) w e.
Proof.
  intros Ho Hcase ->.
  destruct (cancelOrder_run orderId reason o w Ho Hcase) as (w' & Hrun & Hc & Ht).
  exists w'. eexists. split; [exact Hrun|]. split; [exact Hc|].
  split; [exact Ht|]. by repeat constructor.
Qed.

(** C6. For an identifier that denotes the ObjectId [o] (a malformed one is
    rejected before, see C9): cancelOrder fails with NotFound when no order
    is stored under [o], with AlreadyCancelled when the stored order has
    status 'cancelled', and with NotCancellable when it has status 'shipped'
    or 'delivered'; in each case the committed store is unchanged and no
    mutation was asked of the driver.  After a cancellation that completed,
    a second cancelOrder on the same order fails with AlreadyCancelled and
    leaves the committed store (stock, order, buyer) exactly as the first
    one left it. *)
Theorem cancelOrder_guards (orderId : jsid) (o : ObjectId) (reason : string)
    (w : World) :
  objectIdOf orderId = Some o →
  (orders (committed w) !! o = None →
   fails_clean (cancelOrder orderId reason) w (NotFound "Order not found"))
  ∧ (∀ ord, orders (committed w) !! o = Some ord →
       status ord = "cancelled" →
       fails_clean (cancelOrder orderId reason) w AlreadyCancelled)
  ∧ (∀ ord, orders (committed w) !! o = Some ord →
       status ord ∈ ["shipped"; "delivered"] →
       fails_clean (cancelOrder orderId reason) w NotCancellable)
  ∧ (∀ r w1 reason',
       cancelOrder orderId reason w = (Ok r, w1) →
       fails_clean (cancelOrder orderId reason') w1 AlreadyCancelled).
Proof.
  intros Ho. repeat split.
  - intros Hnone. apply (cancelOrder_fails_clean _ _ o); [done|by left|].
    by rewrite Hnone.
  - intros ord Hord Hc. apply (cancelOrder_fails_clean _ _ o); [done| |].
    + right. eauto.
    + rewrite Hord. by rewrite bool_decide_eq_true_2.
  - intros ord Hord Hs. apply (cancelOrder_fails_clean _ _ o); [done| |].
    + right. eauto.
    + rewrite Hord. rewrite bool_decide_eq_false_2; [done|].
      intros Hc. rewrite Hc in Hs. revert Hs.
      by apply (bool_decide_eq_false_1 _).
  - intros r w1 reason' Hrun.
    destruct (cancelOrder_Ok _ _ _ _ _ o Ho Hrun)
      as (ord & t1 & t2 & t3 & uid & Hord & _ & _ & _ & Horders & _).
    assert (∃ ord', orders (committed w1) !! o = Some ord'
                    ∧ status ord' = "cancelled") as (ord' & Hord' & Hst).
    { rewrite Horders, lookup_alter, decide_True, Hord by done.
      eexists. split; [reflexivity|]. done. }
    apply (cancelOrder_fails_clean _ _ o); [done| |].
    + right. eauto.
    + rewrite Hord'. by rewrite bool_decide_eq_true_2.
Qed.

(** C6, on the sample world with one pending order: the first cancellation
    completes and the second is refused. *)
Lemma cancelOrder_guards_witness :
  objectIdOf (IdObj 50%N) = Some 50%N
  ∧ is_Ok (cancelOrder (IdObj 50%N) "first" demo_world_with_order).1 = true
  ∧ fails_clean (cancelOrder (IdObj 50%N) "second")
      (cancelOrder (IdObj 50%N) "first" demo_world_with_order).2
      AlreadyCancelled.
Proof.
  split; [reflexivity|]. split; [by vm_compute|].
  destruct (cancelOrder (IdObj 50%N) "first" demo_world_with_order)
    as [[r|e] w1] eqn:Hrun.
  - exact (proj2 (proj2 (proj2
             (cancelOrder_guards (IdObj 50%N) 50%N "first"
                demo_world_with_order eq_refl))) r w1 "second" Hrun).
  - exfalso. apply (f_equal (λ x, is_Ok x.1)) in Hrun.
    vm_compute in Hrun. discriminate.
Defined.

(** ** orderHistory *)

Lemma history_kept_refl (st : Store) : history_kept st st.
Proof. intros k u Hu. eauto. Qed.

Lemma history_kept_trans (a b c : Store) :
  history_kept a b → history_kept b c → history_kept a c.
Proof.
  intros Hab Hbc k u Hu. destruct (Hab k u Hu) as (u1 & Hu1 & Hp1).
  destruct (Hbc k u1 Hu1) as (u2 & Hu2 & Hp2).
  exists u2. split; [done|]. by etrans.
Qed.

(** An update of a user that extends the order history is admitted. *)
Lemma history_kept_update (f : User → User) :
  (∀ u, orderHistory u `prefix_of` orderHistory (f u)) →
  allows_update history_kept f.
Proof.
  intros Hf o t st k u Hu. simpl. rewrite lookup_alter.
  case_decide as Hk; [subst k|eauto].
  rewrite Hu. simpl. eexists. split; [reflexivity|]. apply Hf.
Qed.

Lemma history_kept_insert : allows_insert User history_kept.
Proof.
  intros d o st Hfresh k u Hu. simpl in *. rewrite lookup_insert_ne; [eauto|].
  intros ->. congruence.
Qed.

(** Writes to the other collections leave the users alone. *)
Lemma history_kept_other (st st' : Store) :
  users st' = users st → history_kept st st'.
Proof. intros Heq k u Hu. rewrite Heq. eauto. Qed.

Lemma history_kept_run {A} (m : M A) (w : World) :
  workflow_ok history_kept m → history_kept (committed w) (committed (m w).2).
Proof.
  intros [_ Hatomic]. specialize (Hatomic w).
  destruct (m w) as [[a|e] w']; simpl; [done|].
  rewrite Hatomic. apply history_kept_refl.
Qed.

(** C4, as the code has it. cancelOrder removes the cancelled order from the
    buyer's orderHistory: after a cancellation that completed, the buyer's
    list is the old one without the order's identifier, which is no longer
    in it.  The four other workflows never remove an element from any
    user's orderHistory: whether they complete or fail, every user is still
    stored and the list it had is a prefix of the list it has. *)
Theorem orderHistory_only_cancel_removes :
  (∀ orderId reason w r w' o,
     objectIdOf orderId = Some o →
     cancelOrder orderId reason w = (Ok r, w') →
     ∃ ord buyer,
       orders (committed w) !! o = Some ord
       ∧ objectIdOf (userId ord) = Some buyer
       ∧ ∀ u, users (committed w) !! buyer = Some u →
           ∃ u', users (committed w') !! buyer = Some u'
                 ∧ orderHistory u' = filter (λ x, x ≠ o) (orderHistory u)
                 ∧ o ∉ orderHistory u')
  ∧ (∀ orderData ls w,
       history_kept (committed w)
         (committed (processOrder orderData ls w).2))
  ∧ (∀ fromUserId toUserId amount description w,
       history_kept (committed w)
         (committed (transferFunds fromUserId toUserId amount description w).2))
  ∧ (∀ priceUpdates w,
       history_kept (committed w)
         (committed (bulkUpdatePrices priceUpdates w).2))
  ∧ (∀ userData initialSettings w,
       history_kept (committed w)
         (committed (createUserWithSetup userData initialSettings w).2)).
Proof.
  pose proof history_kept_refl as Hrefl.
  pose proof history_kept_trans as Htrans.
  repeat split.
  - intros orderId reason w r w' o Ho Hrun.
    destruct (cancelOrder_Ok _ _ _ _ _ o Ho Hrun)
      as (ord & t1 & t2 & t3 & buyer & Hord & _ & _ & Hbuyer & _ & Husers).
    exists ord, buyer. split; [done|]. split; [done|].
    intros u Hu. rewrite Husers, lookup_alter, decide_True, Hu by done.
    simpl. eexists. split; [reflexivity|]. simpl. split; [done|].
    rewrite list_elem_of_filter. tauto.
  - intros. apply history_kept_run, processOrder_ok; try done.
    + intros d o st _. by apply history_kept_other.
    + intros z e o t st. by apply history_kept_other.
    + intros o t. apply history_kept_update. intros u. simpl.
      by apply prefix_app_r.
  - intros. apply history_kept_run, transferFunds_ok; try done.
    intros e z. by apply history_kept_update.
  - intros. apply history_kept_run, bulkUpdatePrices_ok; try done.
    intros z e o t st. by apply history_kept_other.
  - intros. apply history_kept_run, createUserWithSetup_ok; try done.
    + apply history_kept_insert.
    + intros d o st _. by apply history_kept_other.
    + intros e. by apply history_kept_update.
Qed.

(** C4 fails as stated: on the sample world, whose first user has the
    pending order 50 in orderHistory, cancelOrder completes and the user's
    orderHistory no longer holds 50. *)
Lemma cancelOrder_removes_from_history :
  orderHistory <$> users (committed demo_world_with_order) !! 1%N
    = Some [50%N]
  ∧ is_Ok (cancelOrder (IdObj 50%N) "changed my mind"
             demo_world_with_order).1 = true
  ∧ orderHistory
      <$> users (committed (cancelOrder (IdObj 50%N) "changed my mind"
                              demo_world_with_order).2) !! 1%N
    = Some [].
Proof. by vm_compute. Qed.

(** C4, on the same world: the cancellation completes and the buyer's list
    is the old one without the order. *)
Lemma orderHistory_only_cancel_removes_witness :
  is_Ok (cancelOrder (IdObj 50%N) "changed my mind"
           demo_world_with_order).1 = true
  ∧ ∃ ord buyer,
      orders (committed demo_world_with_order) !! 50%N = Some ord
      ∧ objectIdOf (userId ord) = Some buyer
      ∧ ∀ u, users (committed demo_world_with_order) !! buyer = Some u →
          ∃ u',
            users (committed (cancelOrder (IdObj 50%N) "changed my mind"
                                demo_world_with_order).2) !! buyer = Some u'
            ∧ orderHistory u' = filter (λ x, x ≠ 50%N) (orderHistory u)
            ∧ 50%N ∉ orderHistory u'.
Proof.
  assert (is_Ok (cancelOrder (IdObj 50%N) "changed my mind"
                   demo_world_with_order).1 = true) as Hok by (by vm_compute).
  split; [exact Hok|].
  destruct (run_Ok _ _ Hok) as [r Hrun].
  exact (proj1 orderHistory_only_cancel_removes (IdObj 50%N) _ _ _ _ 50%N
           eq_refl Hrun).
Defined.

(** ** transferFunds *)

(** C1, as the code has it. For two different users that both exist, an
    amount > 0 and a source balance of at least the amount, all safe
    integers as is the destination balance plus the amount, transferFunds
    completes and has committed: the source balance less the amount, the
    destination balance plus the amount, one ledger entry appended to each
    of the two users' transactions, of amounts -amount and +amount (their
    sum is 0), both carrying the correlation identifier the call returns;
    every other user is as before. *)
Theorem transferFunds_moves_amount (fromUserId toUserId : jsid) (amount : Z)
    (description : string) (w : World) (a b : ObjectId) (ua ub : User) :
  objectIdOf fromUserId = Some a →
  objectIdOf toUserId = Some b →
  a ≠ b →
  users (committed w) !! a = Some ua →
  users (committed w) !! b = Some ub →
  0 < amount →
  amount ≤ balance ua →
  sums_safe (balance ua) [- amount] →
  sums_safe (balance ub) [amount] →
  ∃ r w' ua' ub' debit credit,
    transferFunds fromUserId toUserId amount description w = (Ok r, w')
    ∧ users (committed w') !! a = Some ua'
    ∧ users (committed w') !! b = Some ub'
    ∧ balance ua' = balance ua - amount
    ∧ balance ub' = balance ub + amount
    ∧ transactions ua' = transactions ua ++ [debit]
    ∧ transactions ub' = transactions ub ++ [credit]
    ∧ le_amount debit = - amount
    ∧ le_amount credit = amount
    ∧ le_amount debit + le_amount credit = 0
    ∧ le_id debit = tr_transactionId r
    ∧ le_id credit = tr_transactionId r
    ∧ (∀ k, k ≠ a → k ≠ b →
         users (committed w') !! k = users (committed w) !! k)
    ∧ safe (balance ua') ∧ safe (balance ub').
Proof.
  intros Ha Hb Hab Hua Hub Hpos Hbal (_ & _ & Hsa & _) (_ & _ & Hsb & _).
  unfold transferFunds.
  rewrite withTransaction_run. cbv beta.
  assert ((amount <=? 0) = false) as -> by lia.
  rewrite bind_run, (findById_read _ a _ Ha). simpl.
  rewrite Hua. simpl.
  rewrite bind_run, (findById_read _ b _ Hb). simpl.
  rewrite Hub. simpl.
  assert ((balance ua <? amount) = false) as -> by lia.
  rewrite bind_run. unfold newDate at 1.
  rewrite bind_run. unfold newDate at 1.
  rewrite bind_run.
  rewrite (updateById_found _ _ (nextSession w) (committed w) a ua) by done.
  rewrite bind_run.
  rewrite (updateById_found _ _ (nextSession w) _ b ub)
    by (try done; simpl; by rewrite lookup_alter_ne).
  eexists _, _, _, _, _, _. split; [reflexivity|]. simpl.
  split.
  { rewrite lookup_alter, decide_False, lookup_alter, decide_True, Hua by done.
    reflexivity. }
  split.
  { rewrite lookup_alter, decide_True, lookup_alter, decide_False, Hub by done.
    reflexivity. }
  simpl. split; [lia|]. split; [lia|]. do 4 (split; [done|]).
  split; [simpl; lia|]. do 2 (split; [done|]).
  split; [|by rewrite Z.add_opp_r in Hsa].
  intros k Hka Hkb. by rewrite !lookup_alter, !decide_False by congruence.
Qed.

(** C1, on the sample world: 100 from the user with 500 to the user with
    20. *)
Lemma transferFunds_moves_amount_witness :
  0 < 100 ∧ 100 ≤ balance (demo_user "ann@example.com" 500)
  ∧ ∃ r w' ua' ub',
      transferFunds (IdObj 1%N) (IdObj 2%N) 100 "rent" demo_world = (Ok r, w')
      ∧ users (committed w') !! 1%N = Some ua'
      ∧ users (committed w') !! 2%N = Some ub'
      ∧ balance ua' = 500 - 100
      ∧ balance ub' = 20 + 100.
Proof.
  split; [lia|]. split; [simpl; lia|].
  destruct (transferFunds_moves_amount (IdObj 1%N) (IdObj 2%N) 100 "rent"
              demo_world 1%N 2%N (demo_user "ann@example.com" 500)
              (demo_user "bob@example.com" 20))
    as (r & w' & ua' & ub' & debit & credit & Hrun & Ha & Hb & Hba & Hbb & _);
    [reflexivity|reflexivity|done|reflexivity|reflexivity|lia|simpl; lia
    |by vm_compute|by vm_compute|].
  exists r, w', ua', ub'. auto.
Defined.

(** C1 fails as stated: a transfer from a user to the same user completes,
    the balance is what it was (not less by the amount), and both ledger
    entries went to the one user. *)
Lemma transferFunds_to_self :
  is_Ok (transferFunds (IdObj 1%N) (IdObj 1%N) 100 "" demo_world).1 = true
  ∧ balance <$> users (committed demo_world) !! 1%N = Some 500
  ∧ balance
      <$> users (committed (transferFunds (IdObj 1%N) (IdObj 1%N) 100 ""
                              demo_world).2) !! 1%N
    = Some 500
  ∧ (λ u, length (transactions u))
      <$> users (committed (transferFunds (IdObj 1%N) (IdObj 1%N) 100 ""
                              demo_world).2) !! 1%N
    = Some 2%nat.
Proof. by vm_compute. Qed.

(** ** bulkUpdatePrices: the recorded percentage *)

(** A positive safe integer is held by a finite positive double. *)
Lemma digits2_pos_size (p : positive) :
  SpecFloat.digits2_pos p = Pos.size p.
Proof. induction p; simpl; congruence. Qed.

Lemma digits2_pos_iter (p d : positive) :
  Z.pos (SpecFloat.digits2_pos (Pos.iter xO p d))
  = Z.pos (SpecFloat.digits2_pos p) + Z.pos d.
Proof.
  induction d as [|d IH] using Pos.peano_ind.
  - simpl. lia.
  - rewrite Pos.iter_succ. simpl. lia.
Qed.

Lemma digits2_pos_bound (p : positive) :
  Z.pos p ≤ MAX_SAFE_INTEGER → Z.pos (SpecFloat.digits2_pos p) ≤ 53.
Proof.
  unfold MAX_SAFE_INTEGER. intros Hp. rewrite digits2_pos_size.
  pose proof (Pos.size_le p) as Hle.
  destruct (decide (Z.pos (Pos.size p) ≤ 53)) as [|Hgt]; [done|].
  exfalso.
  assert (2 ^ 54 ≤ 2 ^ Z.pos (Pos.size p)) by (apply Z.pow_le_mono_r; lia).
  assert (Z.pos (2 ^ Pos.size p) ≤ Z.pos p~0) as H2
    by (apply Pos2Z.pos_le_pos, Hle).
  rewrite Pos2Z.inj_pow in H2. lia.
Qed.

Lemma binary_round_aux_canonical (sx : bool) (m : positive) (e : Z) :
  Z.max (Z.pos (SpecFloat.digits2_pos m) + e - 53) (3 - 1024 - 53) = e →
  e ≤ 1024 - 53 →
  SpecFloat.binary_round_aux 53 1024 sx (Z.pos m) e SpecFloat.loc_Exact
  = SpecFloat.S754_finite sx m e.
Proof.
  intros Hcan Hle.
  unfold SpecFloat.binary_round_aux, SpecFloat.shr_fexp, SpecFloat.fexp,
    SpecFloat.emin.
  simpl SpecFloat.Zdigits2. rewrite Hcan, Z.sub_diag. simpl.
  rewrite Hcan, Z.sub_diag. simpl.
  by rewrite (proj2 (Z.leb_le e (1024 - 53))).
Qed.

Lemma number_positive (n : Z) :
  0 < n → safe n → ∃ m e, number n = SpecFloat.S754_finite false m e.
Proof.
  intros Hpos [_ Hle]. destruct n as [|p|p]; try lia.
  pose proof (digits2_pos_bound p Hle) as Hd.
  unfold number, SpecFloat.binary_normalize, SpecFloat.binary_round,
    SpecFloat.shl_align, SpecFloat.fexp, SpecFloat.emin.
  rewrite Z.add_0_r, Z.sub_0_r, Z.max_l by lia.
  destruct (Z.pos (SpecFloat.digits2_pos p) - 53) as [|q|q] eqn:Hq; try lia.
  - rewrite binary_round_aux_canonical by lia. eauto.
  - rewrite binary_round_aux_canonical; [eauto| |lia].
    rewrite digits2_pos_iter. lia.
Qed.

(** The percentage of a change from the price 0: a positive number divided
    by zero. *)
Lemma percentChange_zero (n : Z) :
  0 < n → safe n → percentChange n 0 = PosInfinity.
Proof.
  intros Hn Hsafe. unfold percentChange.
  destruct (number_positive n Hn Hsafe) as (m & e & ->). reflexivity.
Qed.

(** A loop that completed had only acceptable entries. *)
Lemma updatePrices_Ok (s : Session) (t : Z) (us : list PriceUpdate) :
  ∀ acc w st r w',
    txn w = Some (s, st) →
    updatePrices s t us acc w = (Ok r, w') →
    Forall (acceptable (committed w)) us.
Proof.
  induction us as [|u us IH]; intros acc w st r w' Htx Hrun; [constructor|].
  simpl in Hrun.
  destruct (pu_newPrice u <=? 0) eqn:Hprice; [done|].
  rewrite bind_run, findById_run in Hrun.
  destruct (objectIdOf (pu_productId u)) as [o|] eqn:Ho; [|done].
  simpl in Hrun.
  destruct (products (committed w) !! o) as [p0|] eqn:Hp0;
    simpl in Hrun; [|done].
  rewrite bind_run in Hrun.
  rewrite (updateById_in_txn _ _ s st o) in Hrun by done.
  destruct (table (D:=Product) st !! o); [|done].
  constructor.
  - split; [lia|]. exists o. split; [done|by eexists].
  - eapply IH in Hrun; [exact Hrun|reflexivity].
Qed.

(** The loop on acceptable entries, run on a working copy that has the
    products of the committed store. *)
Lemma updatePrices_run (s : Session) (t : Z) (us : list PriceUpdate) :
  ∀ acc w st,
    txn w = Some (s, st) →
    dom (products (committed w)) ⊆ dom (products st) →
    Forall (acceptable (committed w)) us →
    ∃ w' st' res,
      updatePrices s t us acc w = (Ok (acc ++ res), w')
      ∧ Forall2 (change_recorded (committed w)) us res
      ∧ committed w' = committed w
      ∧ txn w' = Some (s, st')
      ∧ users st' = users st
      ∧ orders st' = orders st
      ∧ profiles st' = profiles st
      ∧ dom (products st') = dom (products st)
      ∧ ∀ o p, products st !! o = Some p →
          ∃ p', products st' !! o = Some p'
                ∧ price p' = last_price o us (price p)
                ∧ stock p' = stock p
                ∧ ∀ pc, products (committed w) !! o = Some pc →
                    priceHistory p'
                    = priceHistory p ++ price_entries (price pc) t o us.
Proof.
  induction us as [|u us IH]; intros acc w st Htx Hdom Hok.
  - exists w, st, []. simpl. rewrite app_nil_r.
    split; [done|]. split; [constructor|]. do 6 (split; [done|]).
    intros o p Hp. exists p. do 3 (split; [done|]).
    intros pc _. by rewrite app_nil_r.
  - apply Forall_cons_1 in Hok as [[Hpos (k & Hk & [p0 Hp0])] Hok].
    cbn [updatePrices]. cbv zeta.
    assert ((pu_newPrice u <=? 0) = false) as -> by lia.
    rewrite bind_run, (findById_read _ k _ Hk). simpl. rewrite Hp0. simpl.
    rewrite bind_run, (updateById_present _ _ s st k)
      by (try done; apply elem_of_dom, Hdom, elem_of_dom; by eexists).
    match goal with
    | |- context [updatePrices _ _ _ ?acc1 ?w1] =>
        destruct (IH acc1 w1 _ eq_refl) as
          (w' & st' & res & Hrun & Hres & Hc & Htx' & Hu & Ho & Hf & Hd & Hp)
    end.
    { simpl. by rewrite dom_alter_L. }
    { exact Hok. }
    eexists w', st', (_ :: res). rewrite Hrun, <- app_assoc.
    split; [reflexivity|]. split.
    { constructor; [|exact Hres]. by exists k, p0. }
    do 5 (split; [done|]). split.
    { rewrite Hd. simpl. by rewrite dom_alter_L. }
    intros o p Ho'. simpl in Hp. unfold price_entries. simpl.
    destruct (decide (k = o)) as [<-|Hne].
    + edestruct (Hp k) as (p' & Hp' & Hpr & Hs & Hh).
      { rewrite lookup_alter, decide_True, Ho' by done. reflexivity. }
      exists p'. split; [done|]. simpl in *.
      rewrite decide_True by done. do 2 (split; [done|]).
      intros pc Hpc. rewrite (Hh pc Hpc), <- app_assoc.
      rewrite filter_cons_True by done.
      assert (pc = p0) as -> by congruence. reflexivity.
    + edestruct (Hp o) as (p' & Hp' & Hpr & Hs & Hh).
      { by rewrite lookup_alter, decide_False. }
      exists p'. split; [done|].
      rewrite decide_False by congruence. do 2 (split; [done|]).
      intros pc Hpc. rewrite (Hh pc Hpc).
      by rewrite filter_cons_False by congruence.
Qed.

(** C8. After a bulkUpdatePrices that completed, the priceHistory of every
    product is the one it had followed by one entry for each entry of the
    batch that names the product, in the order of the batch, and the product
    has the price of the last of them.  In each such entry the old price is
    the price committed before the call and the recorded changePercent is
    ((newPrice - oldPrice) / oldPrice) * 100 as the code computes it, in
    binary64.  Nothing guards the division: for an old price of 0 the entry
    is recorded all the same, and its changePercent is the result of
    dividing a positive number by zero, the infinity, which is no finite
    number.  The prices are safe integers. *)
Theorem bulkUpdatePrices_percentage (priceUpdates : list PriceUpdate)
    (w w' : World) (r : BulkResult) :
  bulkUpdatePrices priceUpdates w = (Ok r, w') →
  prices_exact (committed w) priceUpdates →
  ∀ o p, products (committed w) !! o = Some p →
    ∃ p',
      products (committed w') !! o = Some p'
      ∧ priceHistory p'
        = priceHistory p ++ price_entries (price p) (now w) o priceUpdates
      ∧ price p' = last_price o priceUpdates (price p)
      ∧ Forall
          (λ e,
             oldPrice e = price p
             ∧ changePercent e
               = js_mul
                   (js_div (js_sub (number (newPrice e)) (number (oldPrice e)))
                      (number (oldPrice e)))
                   (number 100)
             ∧ (oldPrice e = 0 →
                changePercent e = PosInfinity
                ∧ is_finite (changePercent e) = false))
          (price_entries (price p) (now w) o priceUpdates).
Proof.
  intros Hrun [Hnew _] o p Hp. unfold bulkUpdatePrices in Hrun.
  rewrite withTransaction_run, bind_run in Hrun. unfold newDate at 1 in Hrun.
  rewrite bind_run in Hrun.
  match type of Hrun with
  | context [updatePrices ?s ?t _ _ ?w1] =>
      destruct (updatePrices s t priceUpdates [] w1) as [[res|e] w2] eqn:Hloop;
        [|done];
      pose proof (updatePrices_Ok s t priceUpdates [] w1 (committed w)
                    res w2 eq_refl Hloop) as Hok;
      destruct (updatePrices_run s t priceUpdates [] w1 (committed w)
                  eq_refl ltac:(done) Hok)
        as (w3 & st3 & res3 & Hloop3 & _ & _ & Htx3 & _ & _ & _ & _ & Hprod)
  end.
  rewrite Hloop in Hloop3. injection Hloop3 as _ <-.
  simpl in Hrun. injection Hrun as _ <-.
  unfold commitTransaction. rewrite Htx3. simpl.
  destruct (Hprod o p Hp) as (p' & Hp' & Hprice & _ & Hhist).
  exists p'. split; [done|]. split; [by apply Hhist|]. split; [done|].
  unfold price_entries. apply Forall_fmap, Forall_forall.
  intros u Hu. apply list_elem_of_In, list_elem_of_filter in Hu as [_ Hu].
  simpl. split; [done|]. split; [done|]. intros Hzero. rewrite Hzero.
  rewrite Forall_forall in Hok, Hnew. apply list_elem_of_In in Hu.
  destruct (Hok u Hu) as [Hpos _].
  by rewrite percentChange_zero by auto.
Qed.

(** C8, on the sample product whose price is 0: the batch completes, and
    what it recorded for that product is as the theorem says. *)
Lemma bulkUpdatePrices_percentage_witness :
  is_Ok (bulkUpdatePrices demo_batch_zero demo_world).1 = true
  ∧ prices_exact (committed demo_world) demo_batch_zero
  ∧ ∃ p',
      products (committed (bulkUpdatePrices demo_batch_zero demo_world).2)
        !! 11%N = Some p'
      ∧ priceHistory p'
        = [{| oldPrice := 0; newPrice := 9; change := 9;
              changePercent := PosInfinity;
              pe_reason := "Bulk price update"; pe_timestamp := 1000;
              updatedBy := "system" |}]
      ∧ price p' = 9.
Proof.
  assert (is_Ok (bulkUpdatePrices demo_batch_zero demo_world).1 = true)
    as Hok by (by vm_compute).
  assert (prices_exact (committed demo_world) demo_batch_zero) as Hexact.
  { split; apply (bool_decide_unpack _); by vm_compute. }
  split; [exact Hok|]. split; [exact Hexact|].
  destruct (run_Ok _ _ Hok) as [r Hrun].
  destruct (bulkUpdatePrices_percentage _ _ _ _ Hrun Hexact 11%N
              (demo_product 0 3) eq_refl)
    as (p' & Hp' & Hhist & Hprice & _).
  exists p'. split; [exact Hp'|]. split; [exact Hhist|exact Hprice].
Defined.

(** The entry recorded for the product whose old price is 0, and the one
    recorded for a product of old price 7 raised to 9: the double
    28.57142857142857, which is not the ratio 200/7. *)
Example bulkUpdatePrices_zero_old_price :
  (λ p, changePercent <$> priceHistory p)
    <$> products (committed (bulkUpdatePrices demo_batch_zero demo_world).2)
          !! 11%N
  = Some [PosInfinity]
  ∧ (λ p, changePercent <$> priceHistory p)
      <$> products
            (committed
               (bulkUpdatePrices
                  [{| pu_productId := IdObj 10%N; pu_newPrice := 9;
                      pu_reason := None |}] demo_world).2) !! 10%N
    = Some [SpecFloat.S754_finite false 8042142191733028 (-48)]
  ∧ ∃ q, value (percentChange 9 7) = Some q
         ∧ (28.57142857142856 < q)%Q ∧ (q < 28.57142857142858)%Q
         ∧ ¬ (q == 200 # 7)%Q.
Proof.
  split; [by vm_compute|]. split; [by vm_compute|].
  eexists. split; [by vm_compute|]. by vm_compute.
Qed.

(** ** processOrder: the reservation loop *)

Lemma priced_fields (c : Store) (it : Item) :
  productId (priced c it) = productId it
  ∧ quantity (priced c it) = quantity it.
Proof.
  unfold priced. destruct (objectIdOf _); [|done].
  by destruct (products c !! _).
Qed.

Lemma priced_idemp (c : Store) (it : Item) :
  priced c (priced c it) = priced c it.
Proof.
  unfold priced at 1. destruct (priced_fields c it) as [-> ->].
  unfold priced. destruct (objectIdOf _); [|done].
  by destruct (products c !! _).
Qed.

(** Pricing an object changes no line. *)
Lemma asks_alter_priced (c : Store) (h : gmap loc Item) (l k : loc) :
  asks (alter (priced c) l h) c k = asks h c k.
Proof.
  unfold asks. rewrite lookup_alter. case_decide as Hk; [subst k|done].
  destruct (h !! l) as [it|]; simpl; [|done].
  by destruct (priced_fields c it) as [-> ->].
Qed.

Lemma priced_heap_lookup (c : Store) (ls : list loc) :
  ∀ h k,
    priced_heap c ls h !! k
    = if decide (k ∈ ls) then priced c <$> h !! k else h !! k.
Proof.
  induction ls as [|l ls IH]; intros h k.
  - case_decide as Hin; [by apply elem_of_nil in Hin|done].
  - unfold priced_heap in *. simpl foldl. rewrite IH, lookup_alter.
    destruct (decide (k ∈ l :: ls)) as [Hin|Hnin];
      destruct (decide (k ∈ ls)) as [Hin'|Hnin'];
      destruct (decide (l = k)) as [->|Hne]; try done;
      try (exfalso; apply Hnin; by apply list_elem_of_further);
      try (exfalso; apply Hnin; by apply list_elem_of_here);
      try (by apply elem_of_cons in Hin as [->|?]).
    destruct (h !! k) as [it|]; simpl; [|done]. by rewrite priced_idemp.
Qed.

(** The step of the loop on an item whose line is there and in stock. *)
Lemma reserveInventory_step (l : loc) (rest : list loc)
    (acc : list InventoryUpdate) (tot : Z) (w : World) (ln : Line) :
  asks (heap w) (committed w) l = Some ln →
  reserveInventory (l :: rest) acc tot w
  = if stock (ln_product ln) <? ln_quantity ln then
      (Throw OutOfStock,
       log (EvFindOne "products" (ln_oid ln) None)
         (log (EvGetCollection "products") w))
    else
      reserveInventory rest (acc ++ [update_of ln]) (tot + line_total ln)
        (set_heap (alter (priced (committed w)) l (heap w))
           (log (EvFindOne "products" (ln_oid ln) None)
              (log (EvGetCollection "products") w))).
Proof.
  unfold asks. intros Hasks.
  destruct (heap w !! l) as [it|] eqn:Hit; [|done].
  destruct (objectIdOf (productId it)) as [o|] eqn:Ho; [|done].
  destruct (products (committed w) !! o) as [p|] eqn:Hp; [|done].
  injection Hasks as <-. simpl.
  rewrite bind_run. unfold deref. rewrite Hit.
  rewrite bind_run, (findById_read _ o _ Ho). simpl. rewrite Hp. simpl.
  destruct (stock p <? quantity it); [done|].
  assert (alter (set_item_price (price p) (price p * quantity it)) l (heap w)
          = alter (priced (committed w)) l (heap w)) as Halter.
  { apply map_eq. intros k. rewrite !lookup_alter.
    case_decide; [subst k|done]. rewrite Hit. simpl.
    unfold priced. by rewrite Ho, Hp. }
  rewrite bind_run. unfold assign. simpl. unfold update_of, line_total. simpl.
  unfold set_heap. simpl. by rewrite Halter.
Qed.

(** The loop on items whose lines are all there: it completes exactly when
    every line is in stock, it only reads the store, and on completion every
    object of the caller named in the list has been priced. *)
Lemma reserveInventory_run (ls : list loc) :
  ∀ lns acc tot w,
    Forall2 (λ l ln, asks (heap w) (committed w) l = Some ln) ls lns →
    ∃ w' evs,
      reserveInventory ls acc tot w
      = (if decide (Forall in_stock lns)
         then Ok (acc ++ (update_of <$> lns), tot + order_total lns)
         else Throw OutOfStock, w')
      ∧ committed w' = committed w
      ∧ txn w' = txn w
      ∧ now w' = now w
      ∧ trace w' = trace w ++ evs
      ∧ Forall (λ e, mutation e = false) evs
      ∧ (Forall in_stock lns →
         heap w' = priced_heap (committed w) ls (heap w)).
Proof.
  induction ls as [|l ls IH]; intros lns acc tot w Hlines.
  - apply Forall2_nil_inv_l in Hlines as ->. exists w, [].
    rewrite decide_True by constructor. simpl.
    rewrite !app_nil_r, Z.add_0_r. by repeat split.
  - apply Forall2_cons_inv_l in Hlines as (ln & lns' & Hln & Hlines & ->).
    rewrite (reserveInventory_step _ _ _ _ _ ln Hln).
    destruct (stock (ln_product ln) <? ln_quantity ln) eqn:Hstock.
    + assert (¬ Forall in_stock (ln :: lns')) as Hnot.
      { intros Hall. apply Forall_cons_1 in Hall as [Hin _].
        unfold in_stock in Hin. lia. }
      exists (log (EvFindOne "products" (ln_oid ln) None)
                (log (EvGetCollection "products") w)),
             [EvGetCollection "products";
              EvFindOne "products" (ln_oid ln) None].
      rewrite decide_False by done. split; [reflexivity|]. simpl.
      rewrite <- app_assoc. do 4 (split; [done|]).
      split; [by repeat constructor|done].
    + set (w1 := set_heap _ _).
      destruct (IH lns' (acc ++ [update_of ln]) (tot + line_total ln) w1)
        as (w' & evs & Hrun & Hc & Htx & Hnow & Htr & Hev & Hheap).
      { eapply Forall2_impl; [|exact Hlines]. intros k ln' Hk. simpl.
        by rewrite asks_alter_priced. }
      exists w', ([EvGetCollection "products";
                   EvFindOne "products" (ln_oid ln) None] ++ evs).
      rewrite Hrun. split.
      { assert (in_stock ln) as Hin by (unfold in_stock; lia).
        destruct (decide (Forall in_stock lns')) as [Hall|Hnall].
        - rewrite decide_True by by constructor.
          simpl. rewrite <- app_assoc. simpl. do 3 f_equal.
          unfold order_total. simpl. lia.
        - rewrite decide_False; [done|].
          intros Hall. by apply Forall_cons_1 in Hall as [_ ?]. }
      rewrite Hc, Htx, Hnow, Htr. simpl. rewrite <- !app_assoc. simpl.
      do 4 (split; [done|]). split.
      * by repeat constructor.
      * intros Hall. apply Forall_cons_1 in Hall as [_ Hall].
        by rewrite (Hheap Hall).
Qed.

(** An item whose line is not there stops the loop. *)
Lemma reserveInventory_missing (l : loc) (rest : list loc)
    (acc : list InventoryUpdate) (tot : Z) (w : World) :
  asks (heap w) (committed w) l = None →
  is_Ok (reserveInventory (l :: rest) acc tot w).1 = false.
Proof.
  unfold asks. intros Hasks. simpl. rewrite bind_run. unfold deref.
  destruct (heap w !! l) as [it|]; [|done].
  rewrite bind_run, findById_run.
  destruct (objectIdOf (productId it)) as [o|]; [|done]. simpl.
  by destruct (products (committed w) !! o).
Qed.

(** A loop that completed found every line, in stock. *)
Lemma reserveInventory_Ok (ls : list loc) :
  ∀ acc tot w r w',
    reserveInventory ls acc tot w = (Ok r, w') →
    ∃ lns,
      Forall2 (λ l ln, asks (heap w) (committed w) l = Some ln) ls lns
      ∧ Forall in_stock lns.
Proof.
  induction ls as [|l ls IH]; intros acc tot w r w' Hrun.
  - exists []. split; constructor.
  - destruct (asks (heap w) (committed w) l) as [ln|] eqn:Hln.
    + rewrite (reserveInventory_step _ _ _ _ _ ln Hln) in Hrun.
      destruct (stock (ln_product ln) <? ln_quantity ln) eqn:Hstock; [done|].
      apply IH in Hrun as (lns & Hlines & Hall). simpl in Hlines.
      exists (ln :: lns). split.
      * constructor; [done|].
        eapply Forall2_impl; [|exact Hlines]. intros k ln' Hk. simpl in Hk.
        by rewrite asks_alter_priced in Hk.
      * constructor; [|done]. unfold in_stock. lia.
    + pose proof (reserveInventory_missing l ls acc tot w Hln) as Hno.
      by rewrite Hrun in Hno.
Qed.

(** ** processOrder: creating the order and applying the decrements *)

Lemma serialiseItems_run (ls : list loc) :
  ∀ its w,
    Forall2 (λ l it, heap w !! l = Some it) ls its →
    serialiseItems ls w = (Ok its, w).
Proof.
  induction ls as [|l ls IH]; intros its w Hits.
  - by apply Forall2_nil_inv_l in Hits as ->.
  - apply Forall2_cons_inv_l in Hits as (it & its' & Hit & Hits & ->).
    simpl. rewrite bind_run. unfold deref. rewrite Hit.
    by rewrite bind_run, (IH its' w Hits).
Qed.

(** After the reservation loop the objects behind the list are all there. *)
Lemma priced_heap_items (c : Store) (h : gmap loc Item) (ls : list loc)
    (lns : list Line) :
  Forall2 (λ l ln, asks h c l = Some ln) ls lns →
  ∃ its, Forall2 (λ l it, priced_heap c ls h !! l = Some it) ls its.
Proof.
  intros Hlines.
  destruct (mapM_is_Some_2 (λ l, priced_heap c ls h !! l) ls) as [its Hits].
  - apply Forall_forall. intros l Hl. simpl. apply list_elem_of_In in Hl.
    rewrite priced_heap_lookup, decide_True by done.
    apply list_elem_of_lookup in Hl as [i Hi].
    destruct (Forall2_lookup_l _ _ _ i l Hlines Hi) as (ln & _ & Hln).
    unfold asks in Hln. by destruct (h !! l).
  - exists its. by apply mapM_Some_1.
Qed.

Section CreateInTxn.
Context `{LawfulDocument D}.

Lemma no_duplicate_without_key (document : D) (st : Store) :
  unique_key document = None → ¬ duplicate document st.
Proof. intros Hkey (k & d & _ & [? ?] & _). congruence. Qed.

Lemma createOne_in_txn (document : D) (s : Session) (st : Store) (w : World) :
  txn w = Some (s, st) →
  ¬ duplicate
      (stamp_updatedAt (now w + 1) (stamp_createdAt (now w) document)) st →
  createOne (D:=D) document (Some s) w
  = (Ok (fresh (ids_in_use (D:=D) w),
         stamp_updatedAt (now w + 1) (stamp_createdAt (now w) document)),
     set_txn
       (Some (s, set_table
                   (<[fresh (ids_in_use (D:=D) w)
                      := stamp_updatedAt (now w + 1)
                           (stamp_createdAt (now w) document)]> (table st))
                   st))
       (log (EvInsertOne (collectionName D) (fresh (ids_in_use (D:=D) w))
               (Some s))
          (set_now (now w + 1 + 1)
             (log (EvGetCollection (collectionName D)) w)))).
Proof.
  intros Htx Hnew.
  unfold createOne, getCollection, newDate, insertOne, mbind, M_bind. simpl.
  rewrite Htx, (decide_True (P:=s = s)) by done.
  rewrite (decide_False (P:=duplicate _ _)) by done. simpl.
  rewrite (write_in_txn s st) by done. reflexivity.
Qed.

Lemma createOne_Ok (document d : D) (session : option Session)
    (id : ObjectId) (w w' : World) :
  createOne (D:=D) document session w = (Ok (id, d), w') →
  d = stamp_updatedAt (now w + 1) (stamp_createdAt (now w) document).
Proof.
  unfold createOne, getCollection, newDate, insertOne, mbind, M_bind. simpl.
  destruct (decide _); simpl; [done|]. by intros [= _ <- _].
Qed.

Lemma createOne_duplicate (document : D) (s : Session) (st : Store)
    (w : World) :
  txn w = Some (s, st) →
  duplicate
    (stamp_updatedAt (now w + 1) (stamp_createdAt (now w) document)) st →
  createOne (D:=D) document (Some s) w
  = (Throw DuplicateKey,
     log (EvInsertOne (collectionName D) (fresh (ids_in_use (D:=D) w))
            (Some s))
       (set_now (now w + 1 + 1)
          (log (EvGetCollection (collectionName D)) w))).
Proof.
  intros Htx Hdup.
  unfold createOne, getCollection, newDate, insertOne, mbind, M_bind. simpl.
  rewrite Htx, (decide_True (P:=s = s)) by done.
  by rewrite (decide_True (P:=duplicate _ _)).
Qed.
End CreateInTxn.

(** The decrements of the lines, applied one after the other to the working
    copy: users, orders and profiles are untouched, and every product has
    lost what the lines ask of it. *)
Lemma applyInventoryUpdates_run (s : Session) (orderId : ObjectId)
    (lns : list Line) :
  ∀ w st,
    txn w = Some (s, st) →
    Forall (λ ln, objectIdOf (ln_productId ln) = Some (ln_oid ln)) lns →
    Forall (λ ln, is_Some (products st !! ln_oid ln)) lns →
    ∃ w' st',
      applyInventoryUpdates s orderId (update_of <$> lns) w = (Ok tt, w')
      ∧ committed w' = committed w
      ∧ heap w' = heap w
      ∧ txn w' = Some (s, st')
      ∧ users st' = users st
      ∧ orders st' = orders st
      ∧ ∀ o p, products st !! o = Some p →
          ∃ p', products st' !! o = Some p'
                ∧ stock p' = stock p - requested o lns
                ∧ price p' = price p.
Proof.
  induction lns as [|ln lns IH]; intros w st Htx Hwf Hin.
  - exists w, st. simpl. repeat split; try done.
    intros o p Hp. exists p. split; [done|]. split; [lia|done].
  - apply Forall_cons_1 in Hwf as [Hln Hwf].
    apply Forall_cons_1 in Hin as [[p0 Hp0] Hin].
    rewrite fmap_cons. cbn [applyInventoryUpdates].
    rewrite bind_run. unfold newDate at 1. rewrite bind_run.
    rewrite (updateById_found _ _ s st (ln_oid ln) p0) by done.
    match goal with
    | |- context [applyInventoryUpdates _ _ _ ?w1] =>
        destruct (IH w1 _ eq_refl Hwf)
          as (w' & st' & Hrun & Hc & Hh & Htx' & Hu & Ho & Hp)
    end.
    { rewrite Forall_forall in Hin. apply Forall_forall. intros ln' Hln'.
      specialize (Hin ln' Hln'). simpl.
      rewrite lookup_alter. case_decide as Hk; [|done].
      rewrite Hk. by apply fmap_is_Some. }
    exists w', st'. split; [exact Hrun|].
    do 5 (split; [done|]).
    intros o p Ho'. simpl in Hp.
    destruct (decide (ln_oid ln = o)) as [<-|Hne].
    + edestruct (Hp (ln_oid ln)) as (p' & Hp' & Hs & Hpr).
      { rewrite lookup_alter, decide_True, Ho' by done. reflexivity. }
      exists p'. split; [done|]. simpl in *.
      rewrite decide_True by done. split; [lia|done].
    + edestruct (Hp o) as (p' & Hp' & Hs & Hpr).
      { by rewrite lookup_alter, decide_False. }
      exists p'. split; [done|]. simpl.
      rewrite decide_False by done. done.
Qed.

Lemma asks_wf (h : gmap loc Item) (c : Store) (l : loc) (ln : Line) :
  asks h c l = Some ln →
  objectIdOf (ln_productId ln) = Some (ln_oid ln)
  ∧ products c !! ln_oid ln = Some (ln_product ln)
  ∧ ∃ it, h !! l = Some it
          ∧ productId it = ln_productId ln
          ∧ quantity it = ln_quantity ln.
Proof.
  unfold asks. intros Hasks.
  destruct (h !! l) as [it|]; [|done].
  destruct (objectIdOf (productId it)) as [o|] eqn:Ho; [|done].
  destruct (products c !! o) as [p|] eqn:Hp; [|done].
  injection Hasks as <-. simpl. eauto 10.
Qed.

(** ** processOrder: a run that completes *)

Lemma processOrder_run (orderData : OrderData) (ls : list loc) (w : World)
    (buyer : ObjectId) (u : User) (lns : list Line) :
  objectIdOf (od_userId orderData) = Some buyer →
  users (committed w) !! buyer = Some u →
  Forall2 (λ l ln, asks (heap w) (committed w) l = Some ln) ls lns →
  Forall in_stock lns →
  ∃ r w',
    processOrder orderData ls w = (Ok r, w')
    ∧ por_items r = ls
    ∧ por_totalAmount r = order_total lns
    ∧ heap w' = priced_heap (committed w) ls (heap w)
    ∧ Forall2 (λ l it, heap w' !! l = Some it) ls (items (por_order r))
    ∧ status (por_order r) = "pending"
    ∧ total (por_order r) = order_total lns
    ∧ orders (committed w) !! por_order_id r = None
    ∧ orders (committed w')
      = <[por_order_id r := por_order r]> (orders (committed w))
    ∧ (∀ o p, products (committed w) !! o = Some p →
         ∃ p', products (committed w') !! o = Some p'
               ∧ stock p' = stock p - requested o lns
               ∧ price p' = price p)
    ∧ ∃ u', users (committed w') !! buyer = Some u'
            ∧ orderHistory u' = orderHistory u ++ [por_order_id r]
            ∧ totalOrders u' = totalOrders u + 1
            ∧ totalSpent u' = totalSpent u + order_total lns.
Proof.
  intros Hbuyer Hu Hlines Hall. unfold processOrder.
  rewrite withTransaction_run. cbv beta.
  rewrite bind_run, (findById_read _ buyer _ Hbuyer). simpl. rewrite Hu. simpl.
  rewrite bind_run.
  set (s := nextSession w).
  set (w1 := log _ (log _ (opened w))).
  destruct (reserveInventory_run ls lns [] 0 w1 Hlines)
    as (w2 & evs & Hres & Hc2 & Htx2 & Hnow2 & Htr2 & Hev2 & Hheap2).
  specialize (Hheap2 Hall). simpl in Hc2, Htx2, Hheap2.
  rewrite Hres, decide_True by done. simpl.
  destruct (priced_heap_items (committed w) (heap w) ls lns Hlines)
    as [its Hits].
  rewrite bind_run, (serialiseItems_run ls its w2)
    by (rewrite Hheap2; exact Hits).
  rewrite bind_run, (createOne_in_txn _ s (committed w))
    by (try done; by apply no_duplicate_without_key).
  rewrite bind_run.
  assert (Forall (λ ln, objectIdOf (ln_productId ln) = Some (ln_oid ln)) lns)
    as Hwf.
  { apply Forall_forall. intros ln Hln. apply list_elem_of_In in Hln.
    apply list_elem_of_lookup in Hln as [i Hi].
    destruct (Forall2_lookup_r _ _ _ i ln Hlines Hi) as (l & _ & Hasks).
    by apply asks_wf in Hasks as [? _]. }
  assert (Forall (λ ln, is_Some (products (committed w) !! ln_oid ln)) lns)
    as Hfound.
  { apply Forall_forall. intros ln Hln. apply list_elem_of_In in Hln.
    apply list_elem_of_lookup in Hln as [i Hi].
    destruct (Forall2_lookup_r _ _ _ i ln Hlines Hi) as (l & _ & Hasks).
    apply asks_wf in Hasks as (_ & Hp & _). by eexists. }
  set (oid := fresh (ids_in_use (D:=Order) w2)).
  match goal with
  | |- context [applyInventoryUpdates _ ?o _ ?w3] =>
      destruct (applyInventoryUpdates_run s o lns w3 _ eq_refl Hwf Hfound)
        as (w4 & st4 & Hrun4 & Hc4 & Hh4 & Htx4 & Hu4 & Ho4 & Hp4)
  end.
  rewrite Hrun4.
  rewrite bind_run, (updateById_found _ _ s st4 buyer u)
    by (try done; change (users st4 !! buyer = Some u); by rewrite Hu4).
  eexists _, _. split; [reflexivity|]. simpl.
  unfold commitTransaction. simpl.
  assert (orders (committed w) !! oid = None) as Hfresh.
  { apply not_elem_of_dom. intros Hin.
    apply (is_fresh (ids_in_use (D:=Order) w2)). fold oid.
    unfold ids_in_use. rewrite Hc2. by apply elem_of_union_l. }
  simpl in *.
  split; [done|]. split; [done|]. split; [by rewrite Hh4|].
  split; [by rewrite Hh4, Hheap2|]. split; [done|]. split; [done|].
  split; [done|]. split; [by rewrite Ho4|]. split; [exact Hp4|].
  rewrite lookup_alter, decide_True, Hu4, Hu by done. simpl.
  eexists. split; [reflexivity|]. simpl. by repeat split.
Qed.

(** A run that completed had a stored buyer and found every line, in
    stock. *)
Lemma processOrder_Ok (orderData : OrderData) (ls : list loc) (w w' : World)
    (r : ProcessOrderResult) :
  processOrder orderData ls w = (Ok r, w') →
  ∃ buyer u lns,
    objectIdOf (od_userId orderData) = Some buyer
    ∧ users (committed w) !! buyer = Some u
    ∧ Forall2 (λ l ln, asks (heap w) (committed w) l = Some ln) ls lns
    ∧ Forall in_stock lns.
Proof.
  intros Hrun. unfold processOrder in Hrun.
  rewrite withTransaction_run in Hrun. cbv beta in Hrun.
  rewrite bind_run, findById_run in Hrun.
  destruct (objectIdOf (od_userId orderData)) as [buyer|]; [|done].
  simpl in Hrun.
  destruct (users (committed w) !! buyer) as [u|] eqn:Hu;
    simpl in Hrun; [|done].
  rewrite bind_run in Hrun.
  match type of Hrun with
  | context [reserveInventory ls [] 0 ?w1] =>
      destruct (reserveInventory ls [] 0 w1) as [[r1|e] w2] eqn:Hres;
        [|done]
  end.
  apply reserveInventory_Ok in Hres as (lns & Hlines & Hall).
  exists buyer, u, lns. done.
Qed.

(** C2, as the code has it. For a buyer that is stored and items that all
    name stored products, the numbers of the order being safe integers
    ([order_exact]): if some item asks for more than the stock of its
    product, processOrder fails with OutOfStock, the committed store is
    unchanged (no stock decremented, no order created, no stockHistory entry
    appended) and no mutation was asked of the driver; otherwise it
    completes, the order it returns is stored under a new identifier with
    status 'pending' and total the sum of price * quantity over the items,
    the other orders are as before, and every product's stock is less by the
    quantities the items ask of it. *)
Theorem processOrder_all_or_nothing (orderData : OrderData) (ls : list loc)
    (w : World) (buyer : ObjectId) (u : User) (lns : list Line) :
  objectIdOf (od_userId orderData) = Some buyer →
  users (committed w) !! buyer = Some u →
  Forall2 (λ l ln, asks (heap w) (committed w) l = Some ln) ls lns →
  order_exact (committed w) lns →
  (Exists (λ ln, stock (ln_product ln) < ln_quantity ln) lns →
   fails_clean (processOrder orderData ls) w OutOfStock)
  ∧ (Forall in_stock lns →
     ∃ r w',
       processOrder orderData ls w = (Ok r, w')
       ∧ status (por_order r) = "pending"
       ∧ total (por_order r) = order_total lns
       ∧ orders (committed w) !! por_order_id r = None
       ∧ orders (committed w')
         = <[por_order_id r := por_order r]> (orders (committed w))
       ∧ ∀ o p, products (committed w) !! o = Some p →
           ∃ p', products (committed w') !! o = Some p'
                 ∧ stock p' = stock p - requested o lns).
Proof.
  intros Hbuyer Hu Hlines _. split.
  - intros Hex.
    assert (¬ Forall in_stock lns) as Hnot.
    { intros Hall. apply Exists_exists in Hex as (ln & Hin & Hlt).
      apply list_elem_of_In in Hin.
      pose proof (proj1 (Forall_forall _ _) Hall ln
                    ltac:(by apply list_elem_of_In)) as Hok.
      unfold in_stock in Hok. lia. }
    unfold fails_clean, processOrder.
    rewrite withTransaction_run. cbv beta.
    rewrite bind_run, (findById_read _ buyer _ Hbuyer). simpl.
    rewrite Hu. simpl. rewrite bind_run.
    set (w1 := log _ (log _ (opened w))).
    destruct (reserveInventory_run ls lns [] 0 w1 Hlines)
      as (w2 & evs & Hres & Hc2 & Htx2 & Hnow2 & Htr2 & Hev2 & _).
    rewrite Hres, decide_False by done. simpl.
    eexists _, _. split; [reflexivity|]. simpl. split; [done|].
    rewrite Htr2. simpl. rewrite <- !app_assoc. simpl.
    split; [reflexivity|].
    repeat (constructor; [done|]). apply Forall_app. split; [done|].
    by repeat constructor.
  - intros Hall.
    destruct (processOrder_run orderData ls w buyer u lns Hbuyer Hu Hlines Hall)
      as (r & w' & Hrun & _ & _ & _ & _ & Hst & Htot & Hnew & Hord & Hp & _).
    exists r, w'. do 5 (split; [done|]).
    intros o p Ho. destruct (Hp o p Ho) as (p' & Hp' & Hs & _). eauto.
Qed.

(** C2, on the sample world: the order of items 0 and 2 is refused, since
    item 2 asks for 6 of a product with 5 in stock; the order of items 0 and
    1 completes. *)
Lemma processOrder_all_or_nothing_witness :
  fails_clean (processOrder demo_order [0%N; 2%N]) demo_world OutOfStock
  ∧ ∃ r w',
      processOrder demo_order [0%N; 1%N] demo_world = (Ok r, w')
      ∧ status (por_order r) = "pending"
      ∧ total (por_order r) = 7 * 2 + (0 * 3 + 0).
Proof.
  split.
  - apply (proj1 (processOrder_all_or_nothing demo_order [0%N; 2%N]
                    demo_world 1%N (demo_user "ann@example.com" 500)
                    [demo_line 10 2 (demo_product 7 5);
                     demo_line 10 6 (demo_product 7 5)]
                    eq_refl eq_refl
                    ltac:(repeat (constructor; [reflexivity|]); constructor)
                    ltac:(apply (bool_decide_unpack _); by vm_compute))).
    apply Exists_cons_tl, Exists_cons_hd. simpl. lia.
  - destruct (proj2 (processOrder_all_or_nothing demo_order [0%N; 1%N]
                       demo_world 1%N (demo_user "ann@example.com" 500)
                       [demo_line 10 2 (demo_product 7 5);
                        demo_line 11 3 (demo_product 0 3)]
                       eq_refl eq_refl
                       ltac:(repeat (constructor; [reflexivity|]);
                             constructor)
                       ltac:(apply (bool_decide_unpack _); by vm_compute)))
      as (r & w' & Hrun & Hst & Htot & _).
    + repeat constructor; unfold in_stock; simpl; lia.
    + exists r, w'. split; [exact Hrun|]. split; [exact Hst|]. exact Htot.
Defined.

(** C2 fails as stated: with a buyer that is not stored, an order whose item
    asks for more than the stock fails with NotFound, not OutOfStock, and an
    order whose items are all in stock fails as well: no order is created. *)
Lemma processOrder_unknown_buyer :
  (∃ ln, asks (heap demo_world) (committed demo_world) 2%N = Some ln
         ∧ stock (ln_product ln) < ln_quantity ln)
  ∧ (processOrder {| od_userId := IdObj 99%N; od_shippingAddress := "" |}
       [2%N] demo_world).1
    = Throw (NotFound "User not found")
  ∧ (∃ ln, asks (heap demo_world) (committed demo_world) 0%N = Some ln
           ∧ in_stock ln)
  ∧ (processOrder {| od_userId := IdObj 99%N; od_shippingAddress := "" |}
       [0%N] demo_world).1
    = Throw (NotFound "User not found")
  ∧ orders (committed
              (processOrder
                 {| od_userId := IdObj 99%N; od_shippingAddress := "" |}
                 [0%N] demo_world).2)
    = orders (committed demo_world).
Proof.
  split; [eexists; split; [reflexivity|simpl; lia]|].
  split; [by vm_compute|].
  split; [eexists; split; [reflexivity|unfold in_stock; simpl; lia]|].
  split; by vm_compute.
Qed.

(** ** processOrder and the caller's items *)

(** C10. When processOrder completes, the items the caller passed have been
    changed in place: the object behind every reference of the list keeps
    its productId and quantity and now has as price the committed price of
    the product it names and as total that price times its quantity; the
    caller's other objects are untouched.  The order returned carries the
    caller's very references as its items, and the item list stored with the
    order is the content of those objects after the change.  The numbers of
    the lines the items ask for are safe integers ([lines_exact]). *)
Theorem processOrder_prices_callers_items (orderData : OrderData)
    (ls : list loc) (w w' : World) (r : ProcessOrderResult)
    (lns : list Line) :
  processOrder orderData ls w = (Ok r, w') →
  Forall2 (λ l ln, asks (heap w) (committed w) l = Some ln) ls lns →
  lines_exact lns →
  por_items r = ls
  ∧ (∀ l, l ∈ ls →
       ∃ it it' o p,
         heap w !! l = Some it
         ∧ objectIdOf (productId it) = Some o
         ∧ products (committed w) !! o = Some p
         ∧ heap w' !! l = Some it'
         ∧ productId it' = productId it
         ∧ quantity it' = quantity it
         ∧ i_price it' = Some (price p)
         ∧ i_total it' = Some (price p * quantity it))
  ∧ (∀ l, l ∉ ls → heap w' !! l = heap w !! l)
  ∧ Forall2 (λ l it, heap w' !! l = Some it) ls (items (por_order r))
  ∧ orders (committed w') !! por_order_id r = Some (por_order r).
Proof.
  intros Hrun _ _. clear lns.
  destruct (processOrder_Ok _ _ _ _ _ Hrun)
    as (buyer & u & lns & Hbuyer & Hu & Hlines & Hall).
  destruct (processOrder_run orderData ls w buyer u lns Hbuyer Hu Hlines Hall)
    as (r0 & w0 & Hrun0 & Hitems & _ & Hheap & Hemb & _ & _ & _ & Hord & _).
  rewrite Hrun in Hrun0. injection Hrun0 as <- <-.
  split; [done|]. split; [|split; [|split; [done|]]].
  - intros l Hl. rewrite Hheap, priced_heap_lookup, decide_True by done.
    apply list_elem_of_lookup in Hl as [i Hi].
    destruct (Forall2_lookup_l _ _ _ i l Hlines Hi) as (ln & _ & Hasks).
    unfold asks in Hasks.
    destruct (heap w !! l) as [it|]; [|done].
    destruct (objectIdOf (productId it)) as [o|] eqn:Ho; [|done].
    destruct (products (committed w) !! o) as [p|] eqn:Hp; [|done].
    exists it, (priced (committed w) it), o, p.
    do 4 (split; [done|]). unfold priced. rewrite Ho, Hp. done.
  - intros l Hl. by rewrite Hheap, priced_heap_lookup, decide_False.
  - by rewrite Hord, lookup_insert_eq.
Qed.

(** C10, on the sample world: after the order of items 0 and 1, the caller's
    item 0 (2 of the product priced 7) has price 7 and total 14. *)
Lemma processOrder_prices_callers_items_witness :
  is_Ok (processOrder demo_order [0%N; 1%N] demo_world).1 = true
  ∧ ∃ it',
      heap (processOrder demo_order [0%N; 1%N] demo_world).2 !! 0%N = Some it'
      ∧ i_price it' = Some 7
      ∧ i_total it' = Some (7 * 2).
Proof.
  assert (is_Ok (processOrder demo_order [0%N; 1%N] demo_world).1 = true)
    as Hok by (by vm_compute).
  split; [exact Hok|].
  destruct (run_Ok _ _ Hok) as [r Hrun].
  destruct (processOrder_prices_callers_items _ _ _ _ _
              [demo_line 10 2 (demo_product 7 5);
               demo_line 11 3 (demo_product 0 3)] Hrun
              ltac:(repeat (constructor; [reflexivity|]); constructor)
              ltac:(apply (bool_decide_unpack _); by vm_compute))
    as (_ & Hitems & _).
  destruct (Hitems 0%N ltac:(apply list_elem_of_here))
    as (it & it' & o & p & Hit & Ho & Hp & Hit' & _ & _ & Hprice & Htotal).
  exists it'. split; [exact Hit'|].
  assert (it = demo_item 10 2) as ->
    by (vm_compute in Hit; by injection Hit as <-).
  assert (o = 10%N) as -> by (vm_compute in Ho; by injection Ho as <-).
  assert (p = demo_product 7 5) as ->
    by (vm_compute in Hp; by injection Hp as <-).
  split; [exact Hprice|exact Htotal].
Defined.

(** The abort undoes the store, not the caller's objects: the order of
    items 0 and 2 fails on item 2, and item 0, visited before, keeps the
    price and total it was given. *)
Example processOrder_failure_keeps_item_changes :
  (processOrder demo_order [0%N; 2%N] demo_world).1 = Throw OutOfStock
  ∧ committed (processOrder demo_order [0%N; 2%N] demo_world).2
    = committed demo_world
  ∧ heap (processOrder demo_order [0%N; 2%N] demo_world).2 !! 0%N
    = Some (set_item_price 7 14 (demo_item 10 2))
  ∧ heap (processOrder demo_order [0%N; 2%N] demo_world).2 !! 2%N
    = Some (demo_item 10 6).
Proof. by vm_compute. Qed.

(** * Further properties of the services *)

(** ** What every workflow keeps *)

Lemma workflow_ok_after {A} (G : Store → Store → Prop) (m : M A) (w : World) :
  (∀ st, G st st) → workflow_ok G m → G (committed w) (committed (m w).2).
Proof.
  intros Hrefl [_ Hatomic]. specialize (Hatomic w).
  destruct (m w) as [[a|e] w']; simpl; [done|]. rewrite Hatomic. apply Hrefl.
Qed.

Section Kept.
Variable G : Store → Store → Prop.
Hypothesis G_refl : ∀ st, G st st.
Hypothesis G_trans : ∀ a b c, G a b → G b c → G a c.
Hypothesis G_order : allows_insert Order G.
Hypothesis G_user : allows_insert User G.
Hypothesis G_profile : allows_insert Profile G.
Hypothesis G_stock : ∀ z e, allows_update G (inc_stock z e).
Hypothesis G_price : ∀ z e, allows_update G (set_price z e).
Hypothesis G_cancelled : ∀ t r, allows_update G (set_cancelled t r).
Hypothesis G_ledger : ∀ e, allows_update G (push_transactions e).
Hypothesis G_transfer :
  ∀ e z, allows_update G (λ u, push_transactions e (inc_balance z u)).
Hypothesis G_placed :
  ∀ o t, allows_update G (λ u, inc_counters 1 t 0 (push_orderHistory o u)).
Hypothesis G_pulled :
  ∀ n t o, allows_update G (λ u, inc_counters n t 1 (pull_orderHistory o u)).

(** A relation every write of the five workflows admits holds between the
    committed store before and after any call. *)
Lemma after_kept (c : Call) (w : World) :
  G (committed w) (committed (after c w)).
Proof.
  destruct c; simpl; apply workflow_ok_after; try done.
  - by apply processOrder_ok.
  - by apply transferFunds_ok.
  - by apply cancelOrder_ok.
  - by apply bulkUpdatePrices_ok.
  - by apply createUserWithSetup_ok.
Qed.

Lemma after_all_kept (cs : list Call) :
  ∀ w, G (committed w) (committed (after_all cs w)).
Proof.
  induction cs as [|c cs IH]; intros w; [apply G_refl|].
  unfold after_all in *. simpl. eapply G_trans; [apply after_kept|apply IH].
Qed.
End Kept.

Section DocumentsKept.
Variable RU : relation User.
Variable RO : relation Order.
Variable RP : relation Product.
Hypothesis RU_refl : ∀ u, RU u u.
Hypothesis RO_refl : ∀ o, RO o o.
Hypothesis RP_refl : ∀ p, RP p p.
Hypothesis RU_trans : ∀ a b c, RU a b → RU b c → RU a c.
Hypothesis RO_trans : ∀ a b c, RO a b → RO b c → RO a c.
Hypothesis RP_trans : ∀ a b c, RP a b → RP b c → RP a c.

Lemma documents_kept_refl (st : Store) : documents_kept RU RO RP st st.
Proof. repeat split; eauto. Qed.

Lemma documents_kept_trans (a b c : Store) :
  documents_kept RU RO RP a b → documents_kept RU RO RP b c →
  documents_kept RU RO RP a c.
Proof.
  intros (Hu1 & Ho1 & Hp1 & Hf1) (Hu2 & Ho2 & Hp2 & Hf2).
  split; [|split; [|split]].
  - intros k u Hu. destruct (Hu1 k u Hu) as (u1 & Hk1 & HR1).
    destruct (Hu2 k u1 Hk1) as (u2 & Hk2 & HR2). eauto.
  - intros k o Ho. destruct (Ho1 k o Ho) as (o1 & Hk1 & HR1).
    destruct (Ho2 k o1 Hk1) as (o2 & Hk2 & HR2). eauto.
  - intros k p Hp. destruct (Hp1 k p Hp) as (p1 & Hk1 & HR1).
    destruct (Hp2 k p1 Hk1) as (p2 & Hk2 & HR2). eauto.
  - eauto.
Qed.

Local Ltac untouched := solve [intros ? ? ?; simpl in *; eauto].

Lemma documents_kept_user (f : User → User) :
  (∀ u t, RU u (stamp_updatedAt t (f u))) →
  allows_update (documents_kept RU RO RP) f.
Proof.
  intros Hf o t st. split; [|split; [|split]]; try untouched.
  intros k u Hu. simpl. rewrite lookup_alter.
  case_decide; [subst k|eauto]. rewrite Hu.
  eexists. split; [reflexivity|]. apply Hf.
Qed.

Lemma documents_kept_order (f : Order → Order) :
  (∀ o t, RO o (stamp_updatedAt t (f o))) →
  allows_update (documents_kept RU RO RP) f.
Proof.
  intros Hf o t st. split; [|split; [|split]]; try untouched.
  intros k d Hd. simpl. rewrite lookup_alter.
  case_decide; [subst k|eauto]. rewrite Hd.
  eexists. split; [reflexivity|]. apply Hf.
Qed.

Lemma documents_kept_product (f : Product → Product) :
  (∀ p t, RP p (stamp_updatedAt t (f p))) →
  allows_update (documents_kept RU RO RP) f.
Proof.
  intros Hf o t st. split; [|split; [|split]]; try untouched.
  intros k d Hd. simpl. rewrite lookup_alter.
  case_decide; [subst k|eauto]. rewrite Hd.
  eexists. split; [reflexivity|]. apply Hf.
Qed.

Lemma documents_kept_insert_user : allows_insert User (documents_kept RU RO RP).
Proof.
  intros d o st Hfresh. split; [|split; [|split]]; try untouched.
  intros k u Hu. simpl in *. rewrite lookup_insert_ne; [eauto|].
  intros ->. congruence.
Qed.

Lemma documents_kept_insert_order :
  allows_insert Order (documents_kept RU RO RP).
Proof.
  intros d o st Hfresh. split; [|split; [|split]]; try untouched.
  intros k u Hu. simpl in *. rewrite lookup_insert_ne; [eauto|].
  intros ->. congruence.
Qed.

Lemma documents_kept_insert_profile :
  allows_insert Profile (documents_kept RU RO RP).
Proof.
  intros d o st Hfresh. split; [|split; [|split]]; try untouched.
  intros k u Hu. simpl in *. rewrite lookup_insert_ne; [done|].
  intros ->. congruence.
Qed.

(** Relations on documents that every update of the five workflows
    respects hold, document by document, after any sequence of calls. *)
Lemma after_all_documents_kept (cs : list Call) (w : World) :
  (∀ u t z e, RU u (stamp_updatedAt t (push_transactions e (inc_balance z u)))) →
  (∀ u t e, RU u (stamp_updatedAt t (push_transactions e u))) →
  (∀ u t o s, RU u (stamp_updatedAt t
                      (inc_counters 1 s 0 (push_orderHistory o u)))) →
  (∀ u t n s o, RU u (stamp_updatedAt t
                        (inc_counters n s 1 (pull_orderHistory o u)))) →
  (∀ o t c r, RO o (stamp_updatedAt t (set_cancelled c r o))) →
  (∀ p t z e, RP p (stamp_updatedAt t (inc_stock z e p))) →
  (∀ p t z e, RP p (stamp_updatedAt t (set_price z e p))) →
  documents_kept RU RO RP (committed w) (committed (after_all cs w)).
Proof.
  intros H1 H2 H3 H4 H5 H6 H7.
  apply after_all_kept.
  - apply documents_kept_refl.
  - apply documents_kept_trans.
  - apply documents_kept_insert_order.
  - apply documents_kept_insert_user.
  - apply documents_kept_insert_profile.
  - intros z e. apply documents_kept_product. eauto.
  - intros z e. apply documents_kept_product. eauto.
  - intros t r. apply documents_kept_order. eauto.
  - intros e. apply documents_kept_user. eauto.
  - intros e z. apply documents_kept_user. eauto.
  - intros o t. apply documents_kept_user. eauto.
  - intros n t o. apply documents_kept_user. eauto.
Qed.
End DocumentsKept.

(** X1. After any sequence of workflow calls, completed or failed, every
    user and every product that was stored is still stored, and its audit
    lists have only grown: the transactions it had are a prefix of the
    transactions it has, and so for stockHistory and priceHistory. *)
Theorem audit_lists_append_only (cs : list Call) (w : World) :
  documents_kept user_audit_grown (λ _ _, True) product_audit_grown
    (committed w) (committed (after_all cs w)).
Proof.
  apply after_all_documents_kept;
    unfold user_audit_grown, product_audit_grown; try done.
  - intros a b c Hab Hbc. by etrans.
  - intros a b c [? ?] [? ?]. split; by etrans.
  - intros u t z e. simpl. by apply prefix_app_r.
  - intros u t e. simpl. by apply prefix_app_r.
  - intros p t z e. simpl. split; [by apply prefix_app_r|done].
  - intros p t z e. simpl. split; [done|by apply prefix_app_r].
Qed.

(** X2. After any sequence of workflow calls every stored document is still
    stored with the fields no workflow writes after creation: createdAt of
    users, orders and products, the name, email and status of a user, the
    buyer, item list and total of an order, the name of a product; profiles
    are unchanged. *)
Theorem created_fields_immutable (cs : list Call) (w : World) :
  documents_kept user_fixed order_fixed product_fixed
    (committed w) (committed (after_all cs w)).
Proof.
  apply after_all_documents_kept;
    unfold user_fixed, order_fixed, product_fixed; try done.
  - intros a b c (? & ? & ? & ?) (? & ? & ? & ?). repeat split; congruence.
  - intros a b c (? & ? & ? & ?) (? & ? & ? & ?). repeat split; congruence.
  - intros a b c [? ?] [? ?]. split; congruence.
Qed.

Lemma nothing_deleted_refl (st : Store) : nothing_deleted st st.
Proof. by repeat split. Qed.

Lemma nothing_deleted_trans (a b c : Store) :
  nothing_deleted a b → nothing_deleted b c → nothing_deleted a c.
Proof.
  intros (? & ? & Hp1 & ?) (? & ? & Hp2 & ?).
  repeat split; try (by etrans); by rewrite Hp2, Hp1.
Qed.

(** X3. No workflow deletes a document, and none creates or deletes a
    product: after any sequence of calls the users, orders and profiles
    that were stored are stored, and the set of product identifiers is the
    same. *)
Theorem workflows_never_delete (cs : list Call) (w : World) :
  nothing_deleted (committed w) (committed (after_all cs w)).
Proof.
  apply after_all_kept.
  - apply nothing_deleted_refl.
  - apply nothing_deleted_trans.
  - intros d o st _. repeat split; simpl; try done.
    rewrite dom_insert_L. apply union_subseteq_r.
  - intros d o st _. repeat split; simpl; try done.
    rewrite dom_insert_L. apply union_subseteq_r.
  - intros d o st _. repeat split; simpl; try done.
    rewrite dom_insert_L. apply union_subseteq_r.
  - intros z e o t st. repeat split; simpl; try done. by rewrite dom_alter_L.
  - intros z e o t st. repeat split; simpl; try done. by rewrite dom_alter_L.
  - intros t r o t' st. repeat split; simpl; try done. by rewrite dom_alter_L.
  - intros e o t st. repeat split; simpl; try done. by rewrite dom_alter_L.
  - intros e z o t st. repeat split; simpl; try done. by rewrite dom_alter_L.
  - intros o t k t' st. repeat split; simpl; try done. by rewrite dom_alter_L.
  - intros n t o k t' st. repeat split; simpl; try done. by rewrite dom_alter_L.
Qed.

(** ** The status of an order *)

Lemma cancelOrder_Ok_id (orderId : jsid) (reason : string) (w w' : World)
    (r : CancelResult) :
  cancelOrder orderId reason w = (Ok r, w') → is_Some (objectIdOf orderId).
Proof.
  intros Hrun. unfold cancelOrder in Hrun.
  rewrite withTransaction_run in Hrun. cbv beta in Hrun.
  rewrite bind_run, findById_run in Hrun.
  by destruct (objectIdOf orderId).
Qed.

Lemma status_step_refl (o : Order) : status_step o o.
Proof. split; auto. Qed.

Lemma orders_step_refl (st : Store) : orders_step st st.
Proof. intros k o Ho. exists o. split; [done|apply status_step_refl]. Qed.

Lemma orders_step_trans (a b c : Store) :
  orders_step a b → orders_step b c → orders_step a c.
Proof.
  intros Hab Hbc k o Ho.
  destruct (Hab k o Ho) as (o1 & Ho1 & [Hs1 Ht1]).
  destruct (Hbc k o1 Ho1) as (o2 & Ho2 & [Hs2 Ht2]).
  exists o2. split; [done|]. split.
  - destruct Hs2 as [Hs2|Hs2]; rewrite Hs2; [done|by right].
  - intros Ht. rewrite (Ht1 Ht) in *. auto.
Qed.

(** The four workflows that are not cancelOrder leave every stored order as
    it is. *)
Lemma orders_untouched (c : Call) (w : World) :
  (∀ orderId reason, c ≠ CancelOrder orderId reason) →
  ∀ k o, orders (committed w) !! k = Some o →
         orders (committed (after c w)) !! k = Some o.
Proof.
  intros Hc.
  set (G := documents_kept (λ _ _ : User, True) (@eq Order)
              (λ _ _ : Product, True)).
  assert (G (committed w) (committed (after c w))) as (_ & HG & _).
  { pose proof (documents_kept_refl (λ _ _, True) eq (λ _ _, True)
                  ltac:(done) ltac:(done) ltac:(done)) as Hrefl.
    pose proof (documents_kept_trans (λ _ _ : User, True) (@eq Order)
                  (λ _ _ : Product, True) ltac:(done)
                  ltac:(intros; congruence) ltac:(done)) as Htrans.
    destruct c; simpl; try (by edestruct Hc);
      apply workflow_ok_after; try done.
    - apply processOrder_ok; try done.
      + by apply documents_kept_insert_order.
      + intros z e. by apply documents_kept_product.
      + intros o t. by apply documents_kept_user.
    - apply transferFunds_ok; try done.
      intros e z. by apply documents_kept_user.
    - apply bulkUpdatePrices_ok; try done.
      intros z e. by apply documents_kept_product.
    - apply createUserWithSetup_ok; try done.
      + by apply documents_kept_insert_user.
      + by apply documents_kept_insert_profile.
      + intros e. by apply documents_kept_user. }
  intros k o Ho. destruct (HG k o Ho) as (o' & Ho' & ->). done.
Qed.

Lemma after_orders_step (c : Call) (w : World) :
  orders_step (committed w) (committed (after c w)).
Proof.
  destruct c as [| |orderId reason| |];
    try (intros k o Ho; exists o; split; [|apply status_step_refl];
         by apply orders_untouched).
  simpl. destruct (cancelOrder orderId reason w) as [[r|e] w'] eqn:Hrun.
  - destruct (cancelOrder_Ok_id _ _ _ _ _ Hrun) as [oid Hoid].
    destruct (cancelOrder_Ok _ _ _ _ _ oid Hoid Hrun)
      as (ord & t1 & t2 & t3 & uid & Hord & Hc & Hs & _ & Horders & _).
    simpl. intros k o Ho. rewrite Horders, lookup_alter.
    case_decide as Hk; [subst k|].
    + rewrite Ho. simpl. eexists. split; [reflexivity|]. split; [by right|].
      intros Hterm. exfalso. assert (o = ord) as -> by congruence.
      unfold terminal in Hterm.
      apply elem_of_cons in Hterm as [?|?]; done.
    + exists o. split; [done|apply status_step_refl].
  - destruct (cancelOrder_ok (λ _ _, True) ltac:(done) ltac:(done)
                orderId reason ltac:(done) ltac:(done) ltac:(done))
      as [_ Hatomic].
    specialize (Hatomic w). rewrite Hrun in Hatomic. simpl.
    rewrite Hatomic. apply orders_step_refl.
Qed.

(** X4. After any sequence of workflow calls, every order that was stored
    is still stored and its status is the one it had or 'cancelled': no
    workflow ever sets 'completed', 'shipped' or 'delivered'.  An order
    whose status was 'cancelled', 'shipped' or 'delivered' is exactly the
    document it was. *)
Theorem order_status_only_cancelled (cs : list Call) (w : World) :
  ∀ k o, orders (committed w) !! k = Some o →
    ∃ o', orders (committed (after_all cs w)) !! k = Some o'
          ∧ (status o' = status o ∨ status o' = "cancelled")
          ∧ (terminal o → o' = o).
Proof.
  revert w. induction cs as [|c cs IH]; intros w.
  - apply orders_step_refl.
  - apply (orders_step_trans _ (committed (after c w))).
    + apply after_orders_step.
    + exact (IH (after c w)).
Qed.

(** X4, on the sample world with one pending order, cancelled and then
    cancelled again. *)
Lemma order_status_only_cancelled_witness :
  ∃ o', orders (committed
                  (after_all [CancelOrder (IdObj 50%N) "first";
                              CancelOrder (IdObj 50%N) "second"]
                     demo_world_with_order)) !! 50%N = Some o'
        ∧ (status o' = "pending" ∨ status o' = "cancelled")
        ∧ (terminal demo_pending → o' = demo_pending).
Proof.
  exact (order_status_only_cancelled
           [CancelOrder (IdObj 50%N) "first"; CancelOrder (IdObj 50%N) "second"]
           demo_world_with_order 50%N demo_pending eq_refl).
Defined.

(** ** transferFunds: refusals and conservation *)

(** X5. transferFunds with a positive amount checks, in this order, that
    the source user is stored, that the destination user is stored, and that
    the source balance covers the amount: it fails with NotFound for the
    source, NotFound for the destination (whatever the balance), or
    InsufficientFunds; in each case the committed store is unchanged and no
    mutation was asked of the driver. *)
Theorem transferFunds_refusals (fromUserId toUserId : jsid) (amount : Z)
    (description : string) (w : World) (a : ObjectId) :
  0 < amount →
  objectIdOf fromUserId = Some a →
  (users (committed w) !! a = None →
   fails_clean (transferFunds fromUserId toUserId amount description) w
     (NotFound "Source user not found"))
  ∧ (∀ ua b, users (committed w) !! a = Some ua →
       objectIdOf toUserId = Some b →
       users (committed w) !! b = None →
       fails_clean (transferFunds fromUserId toUserId amount description) w
         (NotFound "Destination user not found"))
  ∧ (∀ ua b ub, users (committed w) !! a = Some ua →
       objectIdOf toUserId = Some b →
       users (committed w) !! b = Some ub →
       balance ua < amount →
       fails_clean (transferFunds fromUserId toUserId amount description) w
         InsufficientFunds).
Proof.
  intros Hpos Ha. unfold fails_clean, transferFunds.
  rewrite withTransaction_run. cbv beta.
  assert ((amount <=? 0) = false) as -> by lia.
  rewrite bind_run, (findById_read _ a _ Ha). simpl.
  split; [|split].
  - intros ->. simpl. eexists _, _. split; [reflexivity|]. simpl.
    split; [done|]. rewrite <- !app_assoc. split; [reflexivity|].
    by repeat constructor.
  - intros ua b -> Hb Hnone. simpl.
    rewrite bind_run, (findById_read _ b _ Hb). simpl. rewrite Hnone. simpl.
    eexists _, _. split; [reflexivity|]. simpl.
    split; [done|]. rewrite <- !app_assoc. split; [reflexivity|].
    by repeat constructor.
  - intros ua b ub -> Hb Hub Hlow. simpl.
    rewrite bind_run, (findById_read _ b _ Hb). simpl. rewrite Hub. simpl.
    assert ((balance ua <? amount) = true) as -> by lia. simpl.
    eexists _, _. split; [reflexivity|]. simpl.
    split; [done|]. rewrite <- !app_assoc. split; [reflexivity|].
    by repeat constructor.
Qed.

(** X5, on the sample world: the first user has 500 and is asked for 501. *)
Lemma transferFunds_refusals_witness :
  fails_clean (transferFunds (IdObj 1%N) (IdObj 2%N) 501 "") demo_world
    InsufficientFunds.
Proof.
  apply (proj2 (proj2 (transferFunds_refusals (IdObj 1%N) (IdObj 2%N) 501 ""
                         demo_world 1%N ltac:(lia) eq_refl))
           (demo_user "ann@example.com" 500) 2%N
           (demo_user "bob@example.com" 20)); try reflexivity; simpl; lia.
Defined.

(** What a transfer commits: nothing, or the debit of the source and the
    credit of the destination, in this order, on the users alone. *)
Lemma transferFunds_committed (fromUserId toUserId : jsid) (amount : Z)
    (description : string) (w : World) :
  committed (transferFunds fromUserId toUserId amount description w).2
    = committed w
  ∨ ∃ a b ua ub t1 t2 e1 e2,
      objectIdOf fromUserId = Some a
      ∧ objectIdOf toUserId = Some b
      ∧ users (committed w) !! a = Some ua
      ∧ users (committed w) !! b = Some ub
      ∧ 0 < amount ∧ amount ≤ balance ua
      ∧ committed (transferFunds fromUserId toUserId amount description w).2
        = set_table
            (alter (λ u, stamp_updatedAt t2
                           (push_transactions e2 (inc_balance amount u))) b
               (alter (λ u, stamp_updatedAt t1
                              (push_transactions e1
                                 (inc_balance (- amount) u))) a
                  (users (committed w))))
            (committed w).
Proof.
  remember (committed (transferFunds fromUserId toUserId amount description w).2)
    as W eqn:HW.
  unfold transferFunds in HW. rewrite withTransaction_run in HW.
  cbv beta in HW.
  destruct (amount <=? 0) eqn:Hamount; [by left|].
  rewrite bind_run, findById_run in HW.
  destruct (objectIdOf fromUserId) as [a|] eqn:Ha; [|by left]. simpl in HW.
  destruct (users (committed w) !! a) as [ua|] eqn:Hua; simpl in HW;
    [|by left].
  rewrite bind_run, findById_run in HW.
  destruct (objectIdOf toUserId) as [b|] eqn:Hb; [|by left]. simpl in HW.
  destruct (users (committed w) !! b) as [ub|] eqn:Hub; simpl in HW;
    [|by left].
  destruct (balance ua <? amount) eqn:Hbal; [by left|].
  rewrite bind_run in HW. unfold newDate at 1 in HW.
  rewrite bind_run in HW. unfold newDate at 1 in HW.
  rewrite bind_run in HW.
  rewrite (updateById_found _ _ (nextSession w) (committed w) a ua) in HW
    by done.
  rewrite bind_run in HW.
  rewrite (updateById_present _ _ (nextSession w) _ b) in HW
    by (try done; simpl; rewrite lookup_alter; case_decide; subst;
        rewrite ?Hua, ?Hub; by eexists).
  right. exists a, b, ua, ub, (now w + 1 + 1), (now w + 1 + 1 + 1).
  exists {| le_id := now w; le_type := "debit"; le_amount := - amount;
            le_toUserId := Some toUserId; le_fromUserId := None;
            le_description := description; le_timestamp := now w + 1;
            le_status := "completed" |},
         {| le_id := now w; le_type := "credit"; le_amount := amount;
            le_toUserId := None; le_fromUserId := Some fromUserId;
            le_description := description; le_timestamp := now w + 1;
            le_status := "completed" |}.
  do 4 (split; [done|]). split; [lia|]. split; [lia|]. exact HW.
Qed.

(** The sum of the balances under an update of one user. *)
Lemma total_balance_alter (f : User → User) (d : Z) (k : ObjectId)
    (st : Store) (u : User) :
  users st !! k = Some u →
  (∀ x, balance (f x) = balance x + d) →
  total_balance (set_table (alter f k (users st)) st) = total_balance st + d.
Proof.
  intros Hk Hf. unfold total_balance. simpl.
  rewrite (fmap_alter balance f (λ b, b + d)) by (intros; apply Hf).
  assert ((balance <$> users st) !! k = Some (balance u)) as Hb
    by (by rewrite lookup_fmap, Hk).
  rewrite (alter_alt_Some _ _ _ _ Hb), <- insert_delete_eq.
  rewrite map_fold_insert_L; [|intros; lia|apply lookup_delete_eq].
  rewrite (map_fold_delete_L _ _ k (balance u) (balance <$> users st));
    [lia|intros; lia|done].
Qed.

Lemma total_balance_alter_same (f : User → User) (k : ObjectId) (st : Store) :
  (∀ x, balance (f x) = balance x) →
  total_balance (set_table (alter f k (users st)) st) = total_balance st.
Proof.
  intros Hf. destruct (users st !! k) as [u|] eqn:Hk.
  - rewrite (total_balance_alter f 0 k st u Hk); [lia|].
    intros x. rewrite Hf. lia.
  - by rewrite alter_id'.
Qed.

Lemma after_total_balance (c : Call) (w : World) :
  creates_user c = false →
  total_balance (committed (after c w)) = total_balance (committed w).
Proof.
  set (G := λ a b : Store, total_balance b = total_balance a).
  assert (∀ st, G st st) as Hrefl by done.
  assert (∀ a b c, G a b → G b c → G a c) as Htrans
    by (unfold G; intros; congruence).
  assert (∀ f : Product → Product, allows_update G f) as Hproduct
    by (by intros f o t st).
  assert (∀ f : Order → Order, allows_update G f) as Horder
    by (by intros f o t st).
  assert (∀ f : User → User, (∀ x, balance (f x) = balance x) →
            allows_update G f) as Huser.
  { intros f Hf o t st. apply total_balance_alter_same.
    intros x. simpl. apply Hf. }
  destruct c as [orderData ls|fromUserId toUserId amount description
                 |orderId reason|priceUpdates|]; [| | | |done]; intros _.
  - apply (workflow_ok_after G); [done|].
    apply processOrder_ok; auto. by intros d o st _.
  - simpl.
    destruct (transferFunds_committed fromUserId toUserId amount description w)
      as [->|(a & b & ua & ub & t1 & t2 & e1 & e2 & _ & _ & Hua & Hub & _ & _
              & ->)]; [done|].
    match goal with
    | |- total_balance (set_table (alter ?g b (alter ?f a _)) _) = _ =>
        pose (st1 := set_table (alter f a (users (committed w))) (committed w));
        change (total_balance (set_table (alter g b (users st1)) st1)
                = total_balance (committed w))
    end.
    assert (total_balance st1 = total_balance (committed w) + - amount) as H1
      by (by apply (total_balance_alter _ _ _ _ ua)).
    destruct (decide (b = a)) as [->|Hne].
    + rewrite (total_balance_alter _ amount a st1
                 (stamp_updatedAt t1
                    (push_transactions e1 (inc_balance (- amount) ua))));
        [lia| |done].
      unfold st1. simpl. by rewrite lookup_alter_eq, Hua.
    + rewrite (total_balance_alter _ amount b st1 ub); [lia| |done].
      unfold st1. simpl. by rewrite lookup_alter_ne.
  - apply (workflow_ok_after G); [done|]. apply cancelOrder_ok; auto.
  - apply (workflow_ok_after G); [done|]. apply bulkUpdatePrices_ok; auto.
Qed.

(** ** Orders and accounts *)

Lemma after_same_account (c : Call) (w : World) :
  on_catalogue c = true →
  documents_kept same_account (λ _ _, True) (λ _ _, True)
    (committed w) (committed (after c w)).
Proof.
  intros Hc.
  pose proof (documents_kept_refl same_account (λ _ _ : Order, True)
                (λ _ _ : Product, True) ltac:(done) ltac:(done) ltac:(done))
    as Hrefl.
  assert (∀ a b c : User, same_account a b → same_account b c →
            same_account a c) as Hacc
    by (intros a b c' [? ?] [? ?]; split; congruence).
  pose proof (documents_kept_trans same_account (λ _ _ : Order, True)
                (λ _ _ : Product, True) Hacc ltac:(done) ltac:(done))
    as Htrans.
  destruct c; try done; simpl; apply workflow_ok_after; try done.
  - apply processOrder_ok; try done.
    + by apply documents_kept_insert_order.
    + intros z e. by apply documents_kept_product.
    + intros o t. by apply documents_kept_user.
  - apply cancelOrder_ok; try done.
    + intros z e. by apply documents_kept_product.
    + intros t r. by apply documents_kept_order.
    + intros n t o. by apply documents_kept_user.
  - apply bulkUpdatePrices_ok; try done.
    intros z e. by apply documents_kept_product.
Qed.

(** X7. Orders move no money: processOrder does not debit the buyer,
    cancelOrder credits no refund, and bulkUpdatePrices touches no user.
    After any sequence of these three calls every stored user has the
    balance and the ledger of transactions it had. *)
Theorem orders_move_no_money (cs : list Call) (w : World) :
  Forall (λ c, on_catalogue c = true) cs →
  ∀ k u, users (committed w) !! k = Some u →
    ∃ u', users (committed (after_all cs w)) !! k = Some u'
          ∧ balance u' = balance u
          ∧ transactions u' = transactions u.
Proof.
  intros Hcs. revert w.
  induction Hcs as [|c cs Hc _ IH]; intros w k u Hu; [by exists u|].
  destruct (after_same_account c w Hc) as (Husers & _).
  destruct (Husers k u Hu) as (u1 & Hu1 & Hb1 & Ht1).
  destruct (IH (after c w) k u1 Hu1) as (u2 & Hu2 & Hb2 & Ht2).
  exists u2. split; [exact Hu2|]. split; congruence.
Qed.

(** X7, on the sample world: the first user orders two items for 14 and
    still has 500. *)
Lemma orders_move_no_money_witness :
  ∃ u', users (committed
                 (after_all [ProcessOrder demo_order [0%N; 1%N];
                             CancelOrder (IdObj 77%N) ""] demo_world))
          !! 1%N = Some u'
        ∧ balance u' = 500 ∧ transactions u' = [] ∧ totalSpent u' = 14.
Proof.
  destruct (orders_move_no_money
              [ProcessOrder demo_order [0%N; 1%N]; CancelOrder (IdObj 77%N) ""]
              demo_world ltac:(repeat constructor) 1%N
              (demo_user "ann@example.com" 500)
              eq_refl) as (u' & Hu' & Hb & Ht).
  exists u'. split; [exact Hu'|]. split; [exact Hb|]. split; [exact Ht|].
  vm_compute in Hu'. by injection Hu' as <-.
Defined.

(** ** createUserWithSetup *)

Lemma ids_in_use_opened `{Document D} (w : World) :
  ids_in_use (D:=D) (opened w) = dom (table (D:=D) (committed w)).
Proof. unfold ids_in_use, opened. simpl. apply union_idemp_L. Qed.

Local Ltac opening_credit :=
  rewrite bind_run, bind_run; unfold newDate at 1; cbv beta iota;
  rewrite bind_run; unfold newDate at 1; cbv beta iota;
  rewrite bind_run;
  erewrite (updateById_present (D:=User))
    by (try reflexivity; simpl; rewrite lookup_insert_eq; by eexists).

Local Ltac created_user :=
  eexists _, _, _; split; [reflexivity|]; split; [assumption|];
  simpl; rewrite ?alter_insert_eq; split; [reflexivity|]; simpl;
  first [rewrite bool_decide_eq_true_2 by lia
        |rewrite bool_decide_eq_false_2 by lia
        |idtac];
  repeat (split; [done|]).

Local Ltac created_profile :=
  eexists _, _; split; [|split; [reflexivity|done]];
  apply not_elem_of_dom;
  match goal with |- fresh ?X ∉ _ => pose proof (is_fresh X) end;
  set_solver.

(** The e-mail is that of a stored user. *)
Lemma duplicate_email (u : User) (st : Store) :
  duplicate u st ↔ ∃ k u', users st !! k = Some u' ∧ u_email u' = u_email u.
Proof.
  unfold duplicate, map_Exists. simpl. split.
  - intros (k & u' & Hk & _ & [= He]). eauto.
  - intros (k & u' & Hk & He). exists k, u'. rewrite He. by eauto.
Qed.

(** X8. createUserWithSetup with an e-mail that no stored user has
    completes.  It stores one new user under an identifier that was not in
    use, with the name and email given, status 'active', empty order history
    and zero counters; the balance is initialBalance, or 0 when none is
    given, and a negative initialBalance is stored as it is.  The ledger of
    the stored user has one credit entry 'Initial balance' of that amount
    exactly when initialBalance > 0.  The user object returned is the
    document as first inserted: its ledger is empty even when the stored one
    is not.  A profile is stored exactly when createProfile is set; it names
    the new user unless profileData has a userId of its own, which then
    replaces the user's.  Orders, products and the other users are
    untouched.  With an e-mail that a stored user has, the unique index on
    users.email refuses the insertion: the workflow fails with DuplicateKey
    and nothing is committed. *)
Theorem createUserWithSetup_creates (userData : UserData)
    (initialSettings : InitialSettings) (w : World) :
  ((∀ k u, users (committed w) !! k = Some u →
      u_email u ≠ ud_email userData) →
   ∃ id user final w',
     createUserWithSetup userData initialSettings w = (Ok (id, user), w')
     ∧ users (committed w) !! id = None
     ∧ users (committed w') = <[id := final]> (users (committed w))
     ∧ orders (committed w') = orders (committed w)
     ∧ products (committed w') = products (committed w)
     ∧ (u_name final, u_email final, u_status final)
       = (ud_name userData, ud_email userData, "active")
     ∧ (orderHistory final, totalOrders final, totalSpent final,
        cancelledOrders final) = ([], 0, 0, 0)
     ∧ balance final = default 0 (initialBalance initialSettings)
     ∧ (le_type <$> transactions final, le_amount <$> transactions final,
        le_description <$> transactions final)
       = (if bool_decide (0 < balance final)
          then (["credit"], [balance final], ["Initial balance"])
          else ([], [], []))
     ∧ balance user = balance final
     ∧ transactions user = []
     ∧ u_createdAt final = now w
     ∧ (if createProfile initialSettings
        then ∃ k pf, profiles (committed w) !! k = None
                     ∧ profiles (committed w')
                       = <[k := pf]> (profiles (committed w))
                     ∧ pf_userId pf
                       = default (IdObj id)
                           (pd_userId (profileData initialSettings))
                     ∧ pf_data pf = pd_fields (profileData initialSettings)
        else profiles (committed w') = profiles (committed w)))
  ∧ ((∃ k u, users (committed w) !! k = Some u
             ∧ u_email u = ud_email userData) →
     ∃ w', createUserWithSetup userData initialSettings w
           = (Throw DuplicateKey, w')
           ∧ committed w' = committed w).
Proof.
  split.
  - intros Hnew.
    exists (fresh (dom (users (committed w)))).
    assert (users (committed w) !! fresh (dom (users (committed w))) = None)
      as Hfresh by (apply not_elem_of_dom, is_fresh).
    unfold createUserWithSetup. rewrite withTransaction_run. cbv beta.
    rewrite bind_run.
    rewrite (createOne_in_txn _ (nextSession w) (committed w))
      by (try done; rewrite duplicate_email; intros (k & u & Hk & He);
          by apply (Hnew k u)).
    rewrite ids_in_use_opened. cbn [fst snd].
    rewrite bind_run.
    destruct (createProfile initialSettings).
    + rewrite bind_run.
      erewrite (createOne_in_txn (D:=Profile))
        by (try reflexivity; by apply no_duplicate_without_key).
      unfold mret at 1, M_ret at 1. cbv beta iota.
      destruct (initialBalance initialSettings) as [b|]; simpl;
        [destruct (0 <? b) eqn:Hb; simpl|].
      * opening_credit. created_user. created_profile.
      * created_user. created_profile.
      * created_user. created_profile.
    + unfold mret at 1, M_ret at 1. cbv beta iota.
      destruct (initialBalance initialSettings) as [b|]; simpl;
        [destruct (0 <? b) eqn:Hb; simpl|].
      * opening_credit. created_user. done.
      * created_user. done.
      * created_user. done.
  - intros Hdup.
    unfold createUserWithSetup. rewrite withTransaction_run. cbv beta.
    rewrite bind_run.
    rewrite (createOne_duplicate _ (nextSession w) (committed w))
      by (try done; by rewrite duplicate_email).
    eexists. split; [reflexivity|done].
Qed.

(** X8, on the sample world: a user with a new e-mail and an opening
    balance of 30 is created with its profile; a user with the e-mail of a
    stored user is refused. *)
Lemma createUserWithSetup_creates_witness :
  (∃ id user w',
     createUserWithSetup
       {| ud_name := "Carol"; ud_email := "carol@example.org" |}
       {| initialBalance := Some 30; createProfile := true;
          profileData := {| pd_userId := None; pd_fields := "" |} |}
       demo_world = (Ok (id, user), w')
     ∧ (balance <$> users (committed w') !! id) = Some 30)
  ∧ ∃ w',
      createUserWithSetup
        {| ud_name := "Carol"; ud_email := "ann@example.com" |}
        {| initialBalance := Some 30; createProfile := true;
           profileData := {| pd_userId := None; pd_fields := "" |} |}
        demo_world = (Throw DuplicateKey, w')
      ∧ committed w' = committed demo_world.
Proof.
  split.
  - destruct (proj1 (createUserWithSetup_creates
                       {| ud_name := "Carol";
                          ud_email := "carol@example.org" |}
                       {| initialBalance := Some 30; createProfile := true;
                          profileData := {| pd_userId := None;
                                            pd_fields := "" |} |}
                       demo_world))
      as (id & user & final & w' & Hrun & _ & Husers & _ & _ & _ & _ & Hbal
          & _).
    + intros k u Hk. apply (bool_decide_unpack _).
      assert (map_Forall (λ _ u, bool_decide (u_email u ≠ "carol@example.org"))
                (users (committed demo_world))) as Hall
        by (apply (bool_decide_unpack _); by vm_compute).
      exact (Hall k u Hk).
    + exists id, user, w'. split; [exact Hrun|].
      rewrite Husers, lookup_insert_eq. simpl. by rewrite Hbal.
  - apply (proj2 (createUserWithSetup_creates _ _ demo_world)).
    exists 1%N, (demo_user "ann@example.com" 500). split; reflexivity.
Defined.

(** ** Overdrafts *)

Lemma solvent_alter (f : User → User) (k : ObjectId) (st : Store) :
  (∀ u, users st !! k = Some u → 0 ≤ balance u → 0 ≤ balance (f u)) →
  solvent st → solvent (set_table (alter f k (users st)) st).
Proof.
  intros Hf Hst j u. simpl. rewrite lookup_alter. case_decide as Hj.
  - subst j. destruct (users st !! k) as [u0|] eqn:Hk; [|done].
    intros [= <-]. apply Hf; [done|]. by apply (Hst k).
  - apply Hst.
Qed.

Lemma after_solvent (c : Call) (w : World) :
  creates_user c = false →
  solvent (committed w) → solvent (committed (after c w)).
Proof.
  set (G := λ a b : Store, solvent a → solvent b).
  assert (∀ st, G st st) as Hrefl by (intros st Hst; exact Hst).
  assert (∀ a b c, G a b → G b c → G a c) as Htrans
    by (unfold G; intros; auto).
  assert (∀ f : Product → Product, allows_update G f) as Hproduct
    by (intros f o t st Hst; exact Hst).
  assert (∀ f : Order → Order, allows_update G f) as Horder
    by (intros f o t st Hst; exact Hst).
  assert (∀ f : User → User, (∀ x, balance (f x) = balance x) →
            allows_update G f) as Huser.
  { intros f Hf o t st Hst. apply solvent_alter; [|exact Hst].
    intros u _ Hu. simpl. by rewrite Hf. }
  destruct c as [orderData ls|fromUserId toUserId amount description
                 |orderId reason|priceUpdates|]; [| | | |done]; intros _.
  - apply (workflow_ok_after G); [done|].
    apply processOrder_ok; auto. by intros d o st _ Hst.
  - simpl. intros Hw.
    destruct (transferFunds_committed fromUserId toUserId amount description w)
      as [->|(a & b & ua & ub & t1 & t2 & e1 & e2 & _ & _ & Hua & Hub & Hpos
              & Hle & ->)]; [done|].
    match goal with
    | |- solvent (set_table (alter ?g b (alter ?f a _)) _) =>
        pose (st1 := set_table (alter f a (users (committed w))) (committed w));
        change (solvent (set_table (alter g b (users st1)) st1))
    end.
    destruct (decide (b = a)) as [->|Hne].
    + apply solvent_alter.
      * unfold st1. simpl. rewrite lookup_alter_eq, Hua. simpl.
        intros u [= <-] _. simpl. specialize (Hw a ua Hua). lia.
      * intros j u. unfold st1. simpl. rewrite lookup_alter.
        case_decide as Hj; [|apply Hw]. subst j. rewrite Hua.
        intros [= <-]. simpl. lia.
    + apply solvent_alter.
      * intros u _ Hu. simpl. lia.
      * apply solvent_alter; [|done].
        intros u Hu _. simpl. assert (u = ua) as -> by congruence. lia.
  - apply (workflow_ok_after G); [done|]. apply cancelOrder_ok; auto.
  - apply (workflow_ok_after G); [done|]. apply bulkUpdatePrices_ok; auto.
Qed.

(** X9. No workflow on stored users overdraws an account: if no user has a
    negative balance, then after any sequence of calls of processOrder,
    transferFunds, cancelOrder and bulkUpdatePrices, completed or failed,
    no user has a negative balance. *)
Theorem balances_stay_nonnegative (cs : list Call) (w : World) :
  Forall (λ c, creates_user c = false) cs →
  solvent (committed w) → solvent (committed (after_all cs w)).
Proof.
  intros Hcs. revert w.
  induction Hcs as [|c cs Hc _ IH]; intros w Hw; [done|].
  unfold after_all in *. simpl. apply IH. by apply after_solvent.
Qed.

(** X9, on the sample world: the second user, who has 20, sends 20 and is
    then asked for 1 more. *)
Lemma balances_stay_nonnegative_witness :
  solvent
    (committed
       (after_all [TransferFunds (IdObj 2%N) (IdObj 1%N) 20 "";
                   TransferFunds (IdObj 2%N) (IdObj 1%N) 1 ""] demo_world)).
Proof.
  apply (balances_stay_nonnegative
           [TransferFunds (IdObj 2%N) (IdObj 1%N) 20 "";
            TransferFunds (IdObj 2%N) (IdObj 1%N) 1 ""] demo_world).
  - repeat constructor.
  - intros k u. unfold demo_world, demo_store. simpl.
    rewrite lookup_insert. case_decide; [intros [= <-]; simpl; lia|].
    rewrite lookup_insert. case_decide; [intros [= <-]; simpl; lia|].
    by rewrite lookup_empty.
Defined.

(** ** The sum of the balances *)

Lemma sum_nonnegative (m : gmap ObjectId Z) :
  map_Forall (λ _ b, 0 ≤ b) m → 0 ≤ map_fold (λ _ b acc, b + acc) 0 m.
Proof.
  induction m as [|k b m Hk _ IH] using map_first_key_ind; intros Hm.
  - by rewrite map_fold_empty.
  - rewrite map_fold_insert_L; [|intros; lia|done].
    apply map_Forall_insert in Hm as [Hb Hm]; [|done].
    specialize (IH Hm). lia.
Qed.

(** In a store where no user is overdrawn, each balance is at most the sum
    of all. *)
Lemma balance_le_total (st : Store) (k : ObjectId) (u : User) :
  solvent st → users st !! k = Some u → balance u ≤ total_balance st.
Proof.
  intros Hst Hk. unfold total_balance.
  assert ((balance <$> users st) !! k = Some (balance u)) as Hb
    by (by rewrite lookup_fmap, Hk).
  rewrite (map_fold_delete_L _ _ k (balance u) (balance <$> users st));
    [|intros; lia|done].
  assert (0 ≤ map_fold (λ _ b acc, b + acc) 0
                (delete k (balance <$> users st))); [|lia].
  apply sum_nonnegative. intros j b Hj.
  apply lookup_delete_Some in Hj as [_ Hj].
  apply lookup_fmap_Some in Hj as (u' & <- & Hu'). by apply (Hst j).
Qed.

(** X6. Money is neither made nor lost by the workflows on stored users.
    When no user is overdrawn and the balances sum to a safe integer, then
    after any sequence of calls of processOrder, transferFunds, cancelOrder
    and bulkUpdatePrices, completed or failed, the balances of all users sum
    to what they summed to before, and every balance is a safe integer that
    is not negative: so the sums of the code on the balances are those of
    the integers, all along the sequence.  A transfer from an account to
    itself is included. *)
Theorem total_balance_conserved (cs : list Call) (w : World) :
  Forall (λ c, creates_user c = false) cs →
  solvent (committed w) →
  total_balance (committed w) ≤ MAX_SAFE_INTEGER →
  total_balance (committed (after_all cs w)) = total_balance (committed w)
  ∧ ∀ k u, users (committed (after_all cs w)) !! k = Some u →
      0 ≤ balance u ∧ safe (balance u).
Proof.
  intros Hcs. revert w.
  induction Hcs as [|c cs Hc _ IH]; intros w Hw Htotal.
  - split; [done|]. intros k u Hu.
    pose proof (Hw k u Hu). pose proof (balance_le_total _ k u Hw Hu).
    unfold safe, MAX_SAFE_INTEGER in *. simpl in *. lia.
  - unfold after_all in *. simpl.
    destruct (IH (after c w)) as [Hsum Hsafe].
    + by apply after_solvent.
    + by rewrite after_total_balance.
    + split; [|done]. rewrite Hsum. by apply after_total_balance.
Qed.

(** X6, on the sample world: a transfer, a second one back to the sender
    itself, and a cancellation of an order that is not there. *)
Lemma total_balance_conserved_witness :
  total_balance
    (committed
       (after_all [TransferFunds (IdObj 1%N) (IdObj 2%N) 120 "rent";
                   TransferFunds (IdObj 2%N) (IdObj 2%N) 20 "";
                   CancelOrder (IdObj 77%N) "none"] demo_world))
  = total_balance (committed demo_world).
Proof.
  apply (total_balance_conserved
           [TransferFunds (IdObj 1%N) (IdObj 2%N) 120 "rent";
            TransferFunds (IdObj 2%N) (IdObj 2%N) 20 "";
            CancelOrder (IdObj 77%N) "none"] demo_world).
  - repeat constructor.
  - intros k u. unfold demo_world, demo_store. simpl.
    rewrite lookup_insert. case_decide; [intros [= <-]; simpl; lia|].
    rewrite lookup_insert. case_decide; [intros [= <-]; simpl; lia|].
    by rewrite lookup_empty.
  - by vm_compute.
Defined.

(** ** processOrder and the stock *)

Lemma asks_lines_unique (h : gmap loc Item) (c : Store) (ls : list loc) :
  ∀ lns lns',
    Forall2 (λ l ln, asks h c l = Some ln) ls lns →
    Forall2 (λ l ln, asks h c l = Some ln) ls lns' →
    lns' = lns.
Proof.
  induction ls as [|l ls IH]; intros lns lns' H1 H2.
  - apply Forall2_nil_inv_l in H1, H2. congruence.
  - apply Forall2_cons_inv_l in H1 as (ln & t & Hln & H1 & ->).
    apply Forall2_cons_inv_l in H2 as (ln' & t' & Hln' & H2 & ->).
    f_equal; [congruence|by apply IH].
Qed.

Lemma requested_absent (o : ObjectId) (lns : list Line) :
  o ∉ ln_oid <$> lns → requested o lns = 0.
Proof.
  induction lns as [|ln lns IH]; [done|]. rewrite fmap_cons, not_elem_of_cons.
  intros [Hne Hnin]. simpl. rewrite decide_False by done. by apply IH.
Qed.

(** Lines on pairwise distinct products ask of a product what its one line
    asks, if it has one. *)
Lemma requested_NoDup (o : ObjectId) (lns : list Line) :
  NoDup (ln_oid <$> lns) →
  requested o lns = 0
  ∨ ∃ ln, ln ∈ lns ∧ ln_oid ln = o ∧ requested o lns = ln_quantity ln.
Proof.
  induction lns as [|ln lns IH]; [by left|].
  intros Hnd. rewrite fmap_cons in Hnd.
  inversion Hnd as [|? ? Hnin Hnd']; subst.
  simpl.
  destruct (decide (ln_oid ln = o)) as [Ho|Ho].
  - right. exists ln. split; [apply list_elem_of_here|]. split; [done|].
    rewrite requested_absent; [lia|]. by rewrite <- Ho.
  - destruct (IH Hnd') as [?|(ln' & Hin & Hoid & Hreq)]; [by left|].
    right. exists ln'. split; [by apply list_elem_of_further|done].
Qed.

Lemma processOrder_same_products (orderData : OrderData) (ls : list loc)
    (w : World) :
  dom (products (committed (processOrder orderData ls w).2))
  = dom (products (committed w)).
Proof.
  apply (workflow_ok_after
           (λ a b : Store, dom (products b) = dom (products a)));
    [done|].
  apply processOrder_ok.
  - done.
  - intros a b c Hab Hbc. by rewrite Hbc.
  - by intros d o st _.
  - intros z e o t st. simpl. by rewrite dom_alter_L.
  - by intros o t k t' st.
Qed.

(** X10. processOrder checks each item against the committed stock of its
    product, whatever the other items ask.  When the items name pairwise
    distinct products this is enough: if no product has a negative stock
    before the call, none has one after it, whether the call completes or
    fails. *)
Theorem processOrder_keeps_stock_nonnegative (orderData : OrderData)
    (ls : list loc) (w : World) (lns : list Line) :
  Forall2 (λ l ln, asks (heap w) (committed w) l = Some ln) ls lns →
  NoDup (ln_oid <$> lns) →
  stocked (committed w) →
  stocked (committed (processOrder orderData ls w).2).
Proof.
  intros Hlines Hnd Hst o p' Hp'.
  assert (is_Some (products (committed w) !! o)) as [p Hp].
  { apply elem_of_dom. rewrite <- (processOrder_same_products orderData ls w).
    by apply elem_of_dom. }
  destruct (processOrder orderData ls w) as [[r|e] w'] eqn:Hrun; simpl in *.
  - destruct (processOrder_Ok _ _ _ _ _ Hrun)
      as (buyer & u & lns' & Hbuyer & Hu & Hlines' & Hall).
    rewrite (asks_lines_unique _ _ _ _ _ Hlines Hlines') in Hall.
    destruct (processOrder_run orderData ls w buyer u lns Hbuyer Hu Hlines Hall)
      as (r0 & w0 & Hrun0 & _ & _ & _ & _ & _ & _ & _ & _ & Hstock & _).
    rewrite Hrun in Hrun0. injection Hrun0 as <- <-.
    destruct (Hstock o p Hp) as (p1 & Hp1 & Hs & _).
    assert (p1 = p') as -> by congruence. rewrite Hs.
    specialize (Hst o p Hp).
    destruct (requested_NoDup o lns Hnd) as [->|(ln & Hin & Hoid & ->)];
      [lia|].
    apply list_elem_of_lookup in Hin as [i Hi].
    destruct (Forall2_lookup_r _ _ _ i ln Hlines Hi) as (l & _ & Hasks).
    apply asks_wf in Hasks as (_ & Hprod & _).
    rewrite Hoid, Hp in Hprod. injection Hprod as ->.
    pose proof (proj1 (Forall_forall _ _) Hall ln) as Hin.
    unfold in_stock in Hin. apply Z.le_0_sub, Hin.
    apply list_elem_of_In. by eapply list_elem_of_lookup_2.
  - destruct (processOrder_ok (λ _ _, True) ltac:(done) ltac:(done)
                orderData ls ltac:(done) ltac:(done) ltac:(done))
      as [_ Hatomic].
    specialize (Hatomic w). rewrite Hrun in Hatomic. rewrite Hatomic in Hp'.
    by apply (Hst o).
Qed.

Lemma demo_store_stocked : stocked demo_store.
Proof.
  intros o p. unfold demo_store. simpl.
  rewrite lookup_insert. case_decide; [intros [= <-]; simpl; lia|].
  rewrite lookup_insert. case_decide; [intros [= <-]; simpl; lia|].
  by rewrite lookup_empty.
Qed.

(** X10, on the sample world: an order of 2 of the first product and 3 of
    the second. *)
Lemma processOrder_keeps_stock_nonnegative_witness :
  stocked (committed (processOrder demo_order [0%N; 1%N] demo_world).2).
Proof.
  apply (processOrder_keeps_stock_nonnegative demo_order [0%N; 1%N] demo_world
           [demo_line 10 2 (demo_product 7 5);
            demo_line 11 3 (demo_product 0 3)]).
  - repeat (constructor; [reflexivity|]). constructor.
  - apply (bool_decide_unpack _). by vm_compute.
  - apply demo_store_stocked.
Defined.

(** Items on the same product are each checked against the full stock: the
    item asking for 2 of a product with 5 in stock, given three times, is
    accepted and leaves a stock of -1. *)
Example processOrder_oversells :
  is_Ok (processOrder demo_order [0%N; 0%N; 0%N] demo_world).1 = true
  ∧ stock <$> products
                (committed (processOrder demo_order [0%N; 0%N; 0%N]
                              demo_world).2) !! 10%N
    = Some (-1).
Proof. by vm_compute. Qed.

(** * The repository used on its own

    [CRUDOperations] called with no session while no transaction is open,
    as a client that uses the repository directly does. *)

Lemma write_committed (f : Store → Store) (w : World) :
  txn w = None → write None f w = set_committed (f (committed w)) w.
Proof. unfold write. by intros ->. Qed.

Section Repository.
Context `{LawfulDocument D} `{!StoredDocument D}.

Lemma ids_in_use_committed (w : World) :
  txn w = None → ids_in_use (D:=D) w = dom (table (D:=D) (committed w)).
Proof. unfold ids_in_use. intros ->. apply (right_id_L ∅ (∪)). Qed.

Lemma stored_lookup (id : ObjectId) (w : World) :
  stored (D:=D) id w = Ok ((λ d, (id, d)) <$> table (committed w) !! id).
Proof. unfold stored. by rewrite (findById_read _ id). Qed.

(** X11. createOne of a document that repeats no value of the unique index
    of its collection stores the document under an identifier that was not
    in use, with createdAt and updatedAt set from the clock over whatever
    the caller gave, and returns what it stored: findById on the returned
    _id gives the returned document, and every other identifier reads as
    before.  A document that repeats a value of the unique index (a user
    with the e-mail of a stored user) is refused with DuplicateKey and the
    store is as before. *)
Theorem createOne_then_findById (document : D) (w : World) :
  txn w = None →
  let d := stamp_updatedAt (now w + 1) (stamp_createdAt (now w) document) in
  (¬ duplicate d (committed w) →
   ∃ id w1,
     createOne document None w = (Ok (id, d), w1)
     ∧ table (committed w) !! id = None
     ∧ stored id w1 = Ok (Some (id, d))
     ∧ ∀ k, k ≠ id → stored (D:=D) k w1 = stored k w)
  ∧ (duplicate d (committed w) →
     ∃ w1,
       createOne document None w = (Throw DuplicateKey, w1)
       ∧ committed w1 = committed w).
Proof.
  intros Htx. cbv zeta.
  unfold createOne, getCollection, newDate, insertOne, mbind, M_bind.
  simpl. unfold view. simpl. split; intros Hdup.
  - rewrite (decide_False (P:=duplicate _ _)) by done. simpl.
    exists (fresh (dom (table (D:=D) (committed w)))). eexists.
    rewrite write_committed by done.
    rewrite !ids_in_use_committed by done. simpl.
    split; [reflexivity|]. split; [apply not_elem_of_dom, is_fresh|].
    rewrite !stored_lookup. simpl. rewrite table_set_table. split.
    + by rewrite lookup_insert_eq.
    + intros k Hk. rewrite !stored_lookup. simpl.
      by rewrite table_set_table, lookup_insert_ne.
  - rewrite (decide_True (P:=duplicate _ _)) by done. simpl.
    eexists. split; [reflexivity|done].
Qed.

(** X12. updateById with an update that leaves the value of the unique
    index as it is (as every update of the services does) applies the
    update to the stored document and forces its updatedAt to the clock:
    that is what findById then reads, and every other identifier reads as
    before.  The method does not hand the updated document back: line 253
    returns [result.value] of what findOneAndUpdate gave, which is undefined
    when a document was updated, and for an identifier with no document the
    read of [value] on null throws a TypeError, the committed store
    unchanged (no upsert). *)
Theorem updateById_then_findById (id : jsid) (o : ObjectId) (update : D → D)
    (w : World) :
  txn w = None →
  objectIdOf id = Some o →
  (∀ t d, unique_key (stamp_updatedAt t (update d)) = unique_key d) →
  ∃ w1,
    updateById id update None w
    = (match table (D:=D) (committed w) !! o with
       | Some _ => Ok tt
       | None => Throw TypeError
       end, w1)
    ∧ stored o w1
      = Ok ((λ d, (o, stamp_updatedAt (now w) (update d)))
              <$> table (committed w) !! o)
    ∧ (table (D:=D) (committed w) !! o = None → committed w1 = committed w)
    ∧ ∀ k, k ≠ o → stored (D:=D) k w1 = stored k w.
Proof.
  intros Htx Ho _. rewrite updateById_run, Ho, bind_run.
  unfold findOneAndUpdate, view. simpl.
  destruct (table (committed w) !! o) as [d|] eqn:Hd; simpl.
  - rewrite write_committed by done. eexists. split; [reflexivity|].
    rewrite stored_lookup. simpl. rewrite table_set_table. split.
    + by rewrite lookup_alter_eq, Hd.
    + split; [done|]. intros k Hk. rewrite !stored_lookup. simpl.
      by rewrite table_set_table, lookup_alter_ne.
  - eexists. split; [reflexivity|]. rewrite stored_lookup. simpl.
    rewrite Hd. split; [done|]. split; [done|]. intros k Hk.
    by rewrite !stored_lookup.
Qed.

(** X13. deleteById removes the stored document: afterwards findById on the
    identifier reads null, and every other identifier reads as before.  The
    method does not hand the removed document back: line 379 returns
    [result.value] of what findOneAndDelete gave, which is undefined when a
    document was removed; when there was none, and so on a second deleteById
    of the same identifier, the read of [value] on null throws a
    TypeError. *)
Theorem deleteById_then_findById (id : jsid) (o : ObjectId) (w : World) :
  txn w = None →
  objectIdOf id = Some o →
  ∃ w1,
    deleteById (D:=D) id None w
    = (match table (D:=D) (committed w) !! o with
       | Some _ => Ok tt
       | None => Throw TypeError
       end, w1)
    ∧ stored (D:=D) o w1 = Ok None
    ∧ (deleteById (D:=D) id None w1).1 = Throw TypeError
    ∧ ∀ k, k ≠ o → stored (D:=D) k w1 = stored k w.
Proof.
  intros Htx Ho. rewrite deleteById_run, Ho, bind_run.
  unfold findOneAndDelete, view. simpl.
  destruct (table (committed w) !! o) as [d|] eqn:Hd; simpl.
  - rewrite write_committed by done. eexists. split; [reflexivity|].
    rewrite stored_lookup, deleteById_run, Ho, bind_run.
    unfold findOneAndDelete, view. simpl.
    rewrite table_set_table, lookup_delete_eq. simpl.
    split; [done|]. split; [done|]. intros k Hk. rewrite !stored_lookup.
    simpl. by rewrite table_set_table, lookup_delete_ne.
  - eexists. split; [reflexivity|].
    rewrite stored_lookup, deleteById_run, Ho, bind_run.
    unfold findOneAndDelete, view. simpl. rewrite Hd. simpl.
    split; [done|]. split; [done|]. intros k Hk. by rewrite !stored_lookup.
Qed.
End Repository.

(** X11, for a new user on the sample world, and for one with the e-mail of
    the first sample user. *)
Lemma createOne_then_findById_witness :
  (∃ id w1,
     createOne (demo_user "carol@example.com" 5) None demo_world
     = (Ok (id, stamp_updatedAt 1001
                  (stamp_createdAt 1000 (demo_user "carol@example.com" 5))),
        w1)
     ∧ users demo_store !! id = None)
  ∧ ∃ w1,
      createOne (demo_user "ann@example.com" 5) None demo_world
      = (Throw DuplicateKey, w1)
      ∧ committed w1 = demo_store.
Proof.
  split.
  - destruct (proj1 (createOne_then_findById (D:=User)
                       (demo_user "carol@example.com" 5) demo_world eq_refl))
      as (id & w1 & Hrun & Hnew & _).
    + rewrite duplicate_email. intros (k & u & Hk & He). simpl in He.
      assert (map_Forall
                (λ _ u, bool_decide (u_email u ≠ "carol@example.com"))
                (users demo_store)) as Hall
        by (apply (bool_decide_unpack _); by vm_compute).
      by apply (bool_decide_unpack _ (Hall k u Hk)).
    + exists id, w1. split; [exact Hrun|exact Hnew].
  - apply (proj2 (createOne_then_findById (D:=User)
                    (demo_user "ann@example.com" 5) demo_world eq_refl)).
    rewrite duplicate_email.
    exists 1%N, (demo_user "ann@example.com" 500). split; reflexivity.
Defined.

(** X12, for a credit of 5 to the second sample user and for a user that
    is not stored. *)
Lemma updateById_then_findById_witness :
  (∃ w1,
     updateById (IdObj 2%N) (inc_balance 5) None demo_world = (Ok tt, w1)
     ∧ stored 2%N w1
       = Ok (Some (2%N, stamp_updatedAt 1000
                          (inc_balance 5 (demo_user "bob@example.com" 20)))))
  ∧ ∃ w1,
      updateById (IdObj 3%N) (inc_balance 5) None demo_world
      = (Throw TypeError, w1)
      ∧ committed w1 = demo_store.
Proof.
  split.
  - destruct (updateById_then_findById (D:=User) (IdObj 2%N) 2%N
                (inc_balance 5) demo_world eq_refl eq_refl ltac:(done))
      as (w1 & Hrun & Hread & _).
    exists w1. split; [exact Hrun|exact Hread].
  - destruct (updateById_then_findById (D:=User) (IdObj 3%N) 3%N
                (inc_balance 5) demo_world eq_refl eq_refl ltac:(done))
      as (w1 & Hrun & _ & Hsame & _).
    exists w1. split; [exact Hrun|]. by apply Hsame.
Defined.

(** X13, for the second sample user. *)
Lemma deleteById_then_findById_witness :
  ∃ w1,
    deleteById (D:=User) (IdObj 2%N) None demo_world = (Ok tt, w1)
    ∧ stored (D:=User) 2%N w1 = Ok None
    ∧ (deleteById (D:=User) (IdObj 2%N) None w1).1 = Throw TypeError
    ∧ ∀ k, k ≠ 2%N → stored (D:=User) k w1 = stored k demo_world.
Proof.
  exact (deleteById_then_findById (D:=User) (IdObj 2%N) 2%N demo_world
           eq_refl eq_refl).
Defined.

(** * cancelOrder: a cancellation that completes *)

(** The increments of the items, applied one after the other to the working
    copy: users, orders and profiles are untouched, and every product has
    gained what the items give back to it. *)
Lemma restoreInventory_run (s : Session) (orderId : ObjectId)
    (its : list Item) :
  ∀ w st,
    txn w = Some (s, st) →
    Forall (names_stored st) its →
    ∃ w' st',
      restoreInventory s orderId its w = (Ok tt, w')
      ∧ committed w' = committed w
      ∧ heap w' = heap w
      ∧ txn w' = Some (s, st')
      ∧ users st' = users st
      ∧ orders st' = orders st
      ∧ profiles st' = profiles st
      ∧ dom (products st') = dom (products st)
      ∧ ∀ o p, products st !! o = Some p →
          ∃ p', products st' !! o = Some p'
                ∧ stock p' = stock p + returned o its
                ∧ price p' = price p.
Proof.
  induction its as [|it its IH]; intros w st Htx Hwf.
  - exists w, st. simpl. repeat split; try done.
    intros o p Hp. exists p. split; [done|]. split; [lia|done].
  - apply Forall_cons_1 in Hwf as [(k & Hk & Hfound) Hwf].
    cbn [restoreInventory].
    rewrite bind_run. unfold newDate at 1. rewrite bind_run.
    rewrite (updateById_present _ _ s st k) by done.
    match goal with
    | |- context [restoreInventory _ _ _ ?w1] =>
        destruct (IH w1 _ eq_refl)
          as (w' & st' & Hrun & Hc & Hh & Htx' & Hu & Ho & Hf & Hd & Hp)
    end.
    { rewrite Forall_forall in Hwf. apply Forall_forall. intros it' Hit'.
      destruct (Hwf it' Hit') as (k' & Hk' & Hfound').
      exists k'. split; [done|]. simpl.
      rewrite lookup_alter. case_decide as Hkk; [|done].
      rewrite Hkk. by apply fmap_is_Some. }
    exists w', st'. split; [exact Hrun|].
    do 6 (split; [done|]). split.
    { rewrite Hd. simpl. by rewrite dom_alter_L. }
    intros o p Ho'. simpl in Hp.
    destruct (decide (k = o)) as [<-|Hne].
    + edestruct (Hp k) as (p' & Hp' & Hs & Hpr).
      { rewrite lookup_alter, decide_True, Ho' by done. reflexivity. }
      exists p'. split; [done|]. simpl in *.
      rewrite decide_True by done. split; [lia|done].
    + edestruct (Hp o) as (p' & Hp' & Hs & Hpr).
      { by rewrite lookup_alter, decide_False. }
      exists p'. split; [done|]. simpl.
      rewrite decide_False by congruence. done.
Qed.

(** The steps of an accepted cancellation, up to the update of the buyer. *)
Lemma cancelOrder_run_stored (orderId : jsid) (reason : string)
    (w : World) (o : ObjectId) (ord : Order) (uid : ObjectId) :
  objectIdOf orderId = Some o →
  orders (committed w) !! o = Some ord →
  cancellable ord →
  Forall (names_stored (committed w)) (items ord) →
  objectIdOf (userId ord) = Some uid →
  ∃ w' t1 t2 t3,
    cancelOrder orderId reason w
    = (match users (committed w) !! uid with
       | Some _ =>
           Ok {| cr_orderId := orderId; cr_reason := reason;
                 restoredItems := length (items ord);
                 refundAmount := total ord |}
       | None => Throw TypeError
       end, w')
    ∧ (users (committed w) !! uid = None → committed w' = committed w)
    ∧ (is_Some (users (committed w) !! uid) →
       orders (committed w')
       = <[o := stamp_updatedAt t1 (set_cancelled t2 reason ord)]>
           (orders (committed w))
       ∧ users (committed w')
         = alter (λ u, stamp_updatedAt t3
                         (inc_counters (-1) (- total ord) 1
                            (pull_orderHistory o u)))
             uid (users (committed w))
       ∧ profiles (committed w') = profiles (committed w)
       ∧ dom (products (committed w')) = dom (products (committed w))
       ∧ ∀ k p, products (committed w) !! k = Some p →
           ∃ p', products (committed w') !! k = Some p'
                 ∧ stock p' = stock p + returned k (items ord)
                 ∧ price p' = price p).
Proof.
  intros Ho Hord Hcan Hwf Huid. unfold cancelOrder.
  rewrite withTransaction_run. cbv beta.
  rewrite bind_run, (findById_read _ o _ Ho).
  change (table (committed (opened w))) with (orders (committed w)).
  rewrite Hord. simpl.
  rewrite bool_decide_eq_false_2
    by (intros Hs; apply Hcan; rewrite Hs; apply list_elem_of_here).
  rewrite bool_decide_eq_false_2
    by (intros Hs; apply Hcan; by apply list_elem_of_further).
  rewrite bind_run.
  set (s := nextSession w).
  match goal with
  | |- context [restoreInventory _ _ _ ?w1] =>
      destruct (restoreInventory_run s o (items ord) w1 (committed w)
                  eq_refl Hwf)
        as (w2 & st2 & Hrun & Hc2 & Hh2 & Htx2 & Hu2 & Ho2 & Hf2 & Hd2 & Hp2)
  end.
  rewrite Hrun. rewrite bind_run. unfold newDate at 1.
  rewrite bind_run, (updateById_found _ _ s st2 o ord)
    by (try done; change (orders st2 !! o = Some ord); by rewrite Ho2).
  rewrite bind_run, (updateById_in_txn _ _ s _ uid) by done.
  match goal with
  | |- context [table (D:=User) ?st !! uid] =>
      change (table (D:=User) st !! uid) with (users st2 !! uid)
  end.
  rewrite Hu2.
  destruct (users (committed w) !! uid) as [u|] eqn:Hu.
  - eexists _, _, _, _. split; [reflexivity|]. split; [done|].
    intros _. simpl. rewrite Ho2, Hu2, Hf2, Hd2.
    split; [rewrite (alter_alt_Some _ _ _ _ Hord); reflexivity|]. done.
  - eexists _, 0, 0, 0. split; [reflexivity|]. split; [|by intros [? ?]].
    intros _. simpl. by rewrite Hc2.
Qed.

(** X14. cancelOrder on a stored order that is neither cancelled, shipped
    nor delivered, whose items name stored products and whose buyer is
    stored, completes.  It reports the number of items of the order and its
    total as refund; the order is stored with status 'cancelled', the reason
    given and a cancellation date, its items, total and buyer as they were;
    the stock of every product is more by the quantities of the items that
    name it, its price unchanged; the buyer has one order less, the order's
    total less in totalSpent, one cancelled order more, the order gone from
    the history, and the balance it had.  When the buyer is no longer stored
    the order cannot be cancelled: the update of the buyer reads [value] of
    null, the workflow fails with a TypeError and nothing is committed.  The
    sums are those of the code as long as they are safe integers
    ([cancel_exact]). *)
Theorem cancelOrder_restores (orderId : jsid) (reason : string) (w : World)
    (o : ObjectId) (ord : Order) (uid : ObjectId) :
  objectIdOf orderId = Some o →
  orders (committed w) !! o = Some ord →
  cancellable ord →
  Forall (names_stored (committed w)) (items ord) →
  objectIdOf (userId ord) = Some uid →
  cancel_exact (committed w) ord uid →
  (∀ u, users (committed w) !! uid = Some u →
     ∃ r w' ord' u',
       cancelOrder orderId reason w = (Ok r, w')
       ∧ (restoredItems r, refundAmount r) = (length (items ord), total ord)
       ∧ orders (committed w') !! o = Some ord'
       ∧ (status ord', cancellationReason ord') = ("cancelled", Some reason)
       ∧ is_Some (cancelledAt ord')
       ∧ (items ord', total ord', userId ord')
         = (items ord, total ord, userId ord)
       ∧ (∀ k p, products (committed w) !! k = Some p →
            ∃ p', products (committed w') !! k = Some p'
                  ∧ stock p' = stock p + returned k (items ord)
                  ∧ price p' = price p)
       ∧ users (committed w') !! uid = Some u'
       ∧ totalOrders u' = totalOrders u - 1
       ∧ totalSpent u' = totalSpent u - total ord
       ∧ cancelledOrders u' = cancelledOrders u + 1
       ∧ orderHistory u' = filter (λ x, x ≠ o) (orderHistory u)
       ∧ balance u' = balance u)
  ∧ (users (committed w) !! uid = None →
     ∃ w', cancelOrder orderId reason w = (Throw TypeError, w')
           ∧ committed w' = committed w).
Proof.
  intros Ho Hord Hcan Hwf Huid _.
  destruct (cancelOrder_run_stored orderId reason w o ord uid
              Ho Hord Hcan Hwf Huid)
    as (w' & t1 & t2 & t3 & Hrun & Hnone & Hsome).
  split.
  - intros u Hu. rewrite Hu in Hrun.
    destruct (Hsome ltac:(by eexists))
      as (Horders & Husers & _ & _ & Hstock).
    eexists _, w', _, _. split; [exact Hrun|]. split; [done|].
    split; [by rewrite Horders, lookup_insert_eq|]. simpl.
    do 3 (split; [by eauto|]). split; [exact Hstock|].
    rewrite Husers, lookup_alter_eq, Hu. simpl.
    split; [reflexivity|]. simpl. repeat split; lia.
  - intros Hu. rewrite Hu in Hrun. exists w'. split; [exact Hrun|].
    by apply Hnone.
Qed.

(** X14, on the sample world with one pending order of 2 of the first
    product. *)
Lemma cancelOrder_restores_witness :
  ∃ r w' ord',
    cancelOrder (IdObj 50%N) "changed my mind" demo_world_with_order
    = (Ok r, w')
    ∧ (restoredItems r, refundAmount r) = (1%nat, 14)
    ∧ orders (committed w') !! 50%N = Some ord'
    ∧ status ord' = "cancelled"
    ∧ stock <$> products (committed w') !! 10%N = Some 7.
Proof.
  destruct (cancelOrder_restores (IdObj 50%N) "changed my mind"
              demo_world_with_order 50%N demo_pending 1%N eq_refl eq_refl)
    as [Hdone _].
  - unfold cancellable. simpl. apply (bool_decide_unpack _). by vm_compute.
  - repeat constructor. exists 10%N. split; [done|by eexists].
  - reflexivity.
  - split; [apply (bool_decide_unpack _); by vm_compute|].
    intros u [= <-]. repeat split; by vm_compute.
  - destruct (Hdone (push_orderHistory 50%N
                       (demo_user "ann@example.com" 500)) eq_refl)
      as (r & w' & ord' & u' & Hrun & Hr & Hord' & Hst & _ & _ & Hstock & _).
    exists r, w', ord'. split; [exact Hrun|]. split; [exact Hr|].
    split; [exact Hord'|]. split; [congruence|].
    destruct (Hstock 10%N (demo_product 7 5) eq_refl) as (p' & -> & Hs & _).
    simpl. f_equal. rewrite Hs. reflexivity.
Defined.

(** * An order placed and then cancelled *)

(** The buyer recorded in the order is the one given. *)
Lemma processOrder_Ok_buyer (orderData : OrderData) (ls : list loc)
    (w w' : World) (r : ProcessOrderResult) :
  processOrder orderData ls w = (Ok r, w') →
  userId (por_order r) = od_userId orderData.
Proof.
  intros Hrun. unfold processOrder in Hrun.
  rewrite withTransaction_run in Hrun. cbv beta in Hrun.
  rewrite bind_run in Hrun.
  destruct (findById _ _ _) as [[[?|]|?] w1]; try done.
  rewrite bind_run in Hrun.
  destruct (reserveInventory _ _ _ _) as [[[us tot]|?] w2]; [|done].
  rewrite bind_run in Hrun.
  destruct (serialiseItems _ _) as [[its|?] w3]; [|done].
  rewrite bind_run in Hrun.
  destruct (createOne _ _ w3) as [[[oid ord]|?] w4] eqn:Hcreate; [|done].
  apply createOne_Ok in Hcreate as ->.
  rewrite bind_run in Hrun.
  destruct (applyInventoryUpdates _ _ _ _) as [[?|?] w5]; [|done].
  rewrite bind_run in Hrun.
  destruct (updateById _ _ _ _) as [[?|?] w6]; [|done].
  by injection Hrun as <- _.
Qed.

(** Embedded items that carry the identifiers and quantities of the lines
    give back what the lines asked. *)
Lemma returned_requested (c : Store) (its : list Item) (lns : list Line) :
  Forall2 (λ it ln, productId it = ln_productId ln
                    ∧ quantity it = ln_quantity ln
                    ∧ objectIdOf (ln_productId ln) = Some (ln_oid ln)
                    ∧ is_Some (products c !! ln_oid ln))
    its lns →
  Forall (names_stored c) its ∧ ∀ k, returned k its = requested k lns.
Proof.
  induction 1 as [|it ln its lns (Hid & Hq & Ho & Hin) _ [IHwf IH]].
  - split; [constructor|done].
  - split.
    + constructor; [|done]. exists (ln_oid ln). by rewrite Hid.
    + intros k. simpl. rewrite Hid, Ho, Hq, IH.
      destruct (decide (ln_oid ln = k)) as [->|Hne].
      * by rewrite !decide_True.
      * rewrite !decide_False; [done..|congruence].
Qed.

(** The items stored with an order that completed are those of its lines. *)
Lemma stored_items_match (c : Store) (h : gmap loc Item) (ls : list loc)
    (lns : list Line) (its : list Item) :
  Forall2 (λ l ln, asks h c l = Some ln) ls lns →
  Forall2 (λ l it, priced_heap c ls h !! l = Some it) ls its →
  Forall2 (λ it ln, productId it = ln_productId ln
                    ∧ quantity it = ln_quantity ln
                    ∧ objectIdOf (ln_productId ln) = Some (ln_oid ln)
                    ∧ is_Some (products c !! ln_oid ln))
    its lns.
Proof.
  intros Hlines Hits. apply Forall2_same_length_lookup. split.
  - apply Forall2_length in Hlines, Hits. congruence.
  - intros i it ln Hit Hln.
    destruct (Forall2_lookup_r _ _ _ i ln Hlines Hln) as (l & Hl & Hasks).
    destruct (Forall2_lookup_l _ _ _ i l Hits Hl) as (it' & Hit' & Hheap).
    assert (it' = it) as -> by congruence.
    rewrite priced_heap_lookup, decide_True in Hheap
      by (by eapply list_elem_of_lookup_2).
    apply asks_wf in Hasks as (Ho & Hp & it0 & Hit0 & Hid & Hq).
    rewrite Hit0 in Hheap. injection Hheap as <-.
    destruct (priced_fields c it0) as [-> ->]. by rewrite Hp.
Qed.

(** processOrder leaves the buyer's balance and count of cancellations. *)
Lemma processOrder_buyer_kept (orderData : OrderData) (ls : list loc)
    (w : World) (k : ObjectId) (u : User) :
  users (committed w) !! k = Some u →
  ∃ u', users (committed (processOrder orderData ls w).2) !! k = Some u'
        ∧ balance u' = balance u
        ∧ cancelledOrders u' = cancelledOrders u.
Proof.
  set (RU := λ a b : User,
         balance b = balance a ∧ cancelledOrders b = cancelledOrders a).
  assert (documents_kept RU (λ _ _, True) (λ _ _, True) (committed w)
            (committed (processOrder orderData ls w).2)) as [Hk _].
  { apply workflow_ok_after.
    - by apply documents_kept_refl.
    - apply processOrder_ok.
      + by apply documents_kept_refl.
      + apply documents_kept_trans; [|done..].
        intros a b c [? ?] [? ?]. split; congruence.
      + by apply documents_kept_insert_order.
      + intros z e. by apply documents_kept_product.
      + intros o t. apply documents_kept_user; [done..|].
        intros u0 t0. unfold RU. simpl. lia. }
  intros Hu. destruct (Hk k u Hu) as (u' & Hu' & Hb & Hc). eauto.
Qed.

(** X15. An order that completed can be cancelled at once, and the
    cancellation undoes it: cancelOrder on the identifier processOrder
    returned completes and refunds the total of the order; every product has
    the stock and the price it had before the order; the buyer has the
    totalOrders, totalSpent and balance it had, one cancelled order more, and
    the order is not in its history.  The numbers of the order and of its
    cancellation are safe integers ([round_trip_exact]). *)
Theorem processOrder_then_cancelOrder (orderData : OrderData) (ls : list loc)
    (w : World) (buyer : ObjectId) (u : User) (lns : list Line)
    (reason : string) :
  objectIdOf (od_userId orderData) = Some buyer →
  users (committed w) !! buyer = Some u →
  Forall2 (λ l ln, asks (heap w) (committed w) l = Some ln) ls lns →
  Forall in_stock lns →
  round_trip_exact (committed w) u lns →
  ∃ r w1 c w2,
    processOrder orderData ls w = (Ok r, w1)
    ∧ cancelOrder (IdObj (por_order_id r)) reason w1 = (Ok c, w2)
    ∧ refundAmount c = por_totalAmount r
    ∧ (∀ k p, products (committed w) !! k = Some p →
         ∃ p2, products (committed w2) !! k = Some p2
               ∧ stock p2 = stock p ∧ price p2 = price p)
    ∧ ∃ u2, users (committed w2) !! buyer = Some u2
            ∧ totalOrders u2 = totalOrders u
            ∧ totalSpent u2 = totalSpent u
            ∧ balance u2 = balance u
            ∧ cancelledOrders u2 = cancelledOrders u + 1
            ∧ por_order_id r ∉ orderHistory u2.
Proof.
  intros Hbuyer Hu Hlines Hall _.
  destruct (processOrder_run orderData ls w buyer u lns Hbuyer Hu Hlines Hall)
    as (r & w1 & Hrun & _ & Htot & Hheap & Hitems & Hst & Htotal & Hnew
        & Horders & Hstock & u1 & Hu1 & Hh1 & Hn1 & Hs1).
  pose proof (processOrder_Ok_buyer _ _ _ _ _ Hrun) as Hby.
  destruct (processOrder_buyer_kept orderData ls w buyer u Hu)
    as (u1' & Hu1' & Hb1 & Hc1).
  rewrite Hrun in Hu1'. simpl in Hu1'.
  assert (u1' = u1) as -> by congruence.
  rewrite Hheap in Hitems.
  destruct (returned_requested _ _ _
              (stored_items_match _ _ _ _ _ Hlines Hitems)) as [Hwf Hret].
  destruct (cancelOrder_run_stored (IdObj (por_order_id r)) reason w1
              (por_order_id r) (por_order r) buyer) as
    (w2 & t1 & t2 & t3 & Hcancel & _ & Hdone); try done.
  { by rewrite Horders, lookup_insert_eq. }
  { unfold cancellable. rewrite Hst. apply (bool_decide_unpack _).
    by vm_compute. }
  { rewrite Forall_forall in Hwf. apply Forall_forall. intros it Hit.
    destruct (Hwf it Hit) as (k & Hk & [p Hp]). exists k. split; [done|].
    destruct (Hstock k p Hp) as (p1 & Hp1 & _). by eexists. }
  { by rewrite Hby. }
  rewrite Hu1 in Hcancel.
  destruct (Hdone ltac:(by eexists)) as (_ & Husers & _ & _ & Hback).
  eexists r, w1, _, w2. split; [exact Hrun|]. split; [exact Hcancel|].
  simpl. split; [congruence|]. split.
  - intros k p Hp. destruct (Hstock k p Hp) as (p1 & Hp1 & Hs & Hpr).
    destruct (Hback k p1 Hp1) as (p2 & Hp2 & Hs2 & Hpr2).
    exists p2. split; [done|]. rewrite Hret in Hs2. split; [lia|congruence].
  - rewrite Husers, lookup_alter_eq, Hu1. simpl.
    eexists. split; [reflexivity|]. simpl.
    split; [lia|]. split; [lia|]. split; [done|]. split; [lia|].
    intros Hin. by apply list_elem_of_filter in Hin as [Hne _].
Qed.

(** X15, on the sample world: the order of items 0 and 1 is placed and
    cancelled; the first product has its 5 in stock again. *)
Lemma processOrder_then_cancelOrder_witness :
  ∃ r w1 c w2,
    processOrder demo_order [0%N; 1%N] demo_world = (Ok r, w1)
    ∧ cancelOrder (IdObj (por_order_id r)) "no longer needed" w1 = (Ok c, w2)
    ∧ refundAmount c = 14
    ∧ stock <$> products (committed w2) !! 10%N = Some 5.
Proof.
  destruct (processOrder_then_cancelOrder demo_order [0%N; 1%N] demo_world
              1%N (demo_user "ann@example.com" 500)
              [demo_line 10 2 (demo_product 7 5);
               demo_line 11 3 (demo_product 0 3)] "no longer needed"
              eq_refl eq_refl
              ltac:(repeat (constructor; [reflexivity|]); constructor)
              ltac:(repeat (constructor; [unfold in_stock; simpl; lia|]);
                    constructor)
              ltac:(apply (bool_decide_unpack _); by vm_compute))
    as (r & w1 & c & w2 & Hrun & Hcancel & Hrefund & Hstock & _).
  exists r, w1, c, w2. split; [exact Hrun|]. split; [exact Hcancel|]. split.
  - rewrite Hrefund.
    assert (match (processOrder demo_order [0%N; 1%N] demo_world).1 with
            | Ok r => por_totalAmount r
            | Throw _ => 0
            end = 14) as Ht by (by vm_compute).
    by rewrite Hrun in Ht.
  - destruct (Hstock 10%N (demo_product 7 5) eq_refl) as (p2 & -> & Hs & _).
    simpl. by rewrite Hs.
Defined.

(** * bulkUpdatePrices: a batch that completes *)

(** X16. A batch whose entries all have a positive price and name stored
    products completes.  updatedCount is the number of entries, one result
    per entry in the order given; the old price of each result is the price
    committed before the call, also for an entry whose product an earlier
    entry of the same batch has repriced, its change the difference of the
    two prices and its changePercent the percentage as computed in
    binary64.  Every product ends with the new price of the last entry that
    names it, or the price it had when none does; stocks, users and orders
    are untouched.  The prices are safe integers. *)
Theorem bulkUpdatePrices_completes (priceUpdates : list PriceUpdate)
    (w : World) :
  Forall (acceptable (committed w)) priceUpdates →
  prices_exact (committed w) priceUpdates →
  ∃ r w',
    bulkUpdatePrices priceUpdates w = (Ok r, w')
    ∧ updatedCount r = length priceUpdates
    ∧ br_timestamp r = now w
    ∧ Forall2 (change_recorded (committed w)) priceUpdates (results r)
    ∧ (∀ o p, products (committed w) !! o = Some p →
         ∃ p', products (committed w') !! o = Some p'
               ∧ price p' = last_price o priceUpdates (price p)
               ∧ stock p' = stock p)
    ∧ users (committed w') = users (committed w)
    ∧ orders (committed w') = orders (committed w).
Proof.
  intros Hok _. unfold bulkUpdatePrices.
  rewrite withTransaction_run, bind_run. unfold newDate at 1.
  rewrite bind_run.
  match goal with
  | |- context [updatePrices ?s ?t _ _ ?w1] =>
      destruct (updatePrices_run s t priceUpdates [] w1 (committed w)
                  eq_refl ltac:(done) Hok)
        as (w2 & st2 & res & Hrun & Hres & Hc & Htx & Hu & Ho & _ & _ & Hp)
  end.
  rewrite Hrun. simpl. eexists _, _. split; [reflexivity|]. simpl.
  unfold commitTransaction. rewrite Htx. simpl.
  split; [by apply Forall2_length in Hres|]. do 2 (split; [done|]).
  split; [|done]. intros o p Ho'.
  destruct (Hp o p Ho') as (p' & Hp' & Hprice & Hstock & _). eauto.
Qed.

(** X16, on the sample world: the first product is repriced twice in one
    batch, from 7 to 9 and then to 12; both results give 7 as old price. *)
Lemma bulkUpdatePrices_completes_witness :
  ∃ r w',
    bulkUpdatePrices
      [{| pu_productId := IdObj 10%N; pu_newPrice := 9; pu_reason := None |};
       {| pu_productId := IdObj 10%N; pu_newPrice := 12; pu_reason := None |}]
      demo_world = (Ok r, w')
    ∧ updatedCount r = 2%nat
    ∧ pc_oldPrice <$> results r = [7; 7]
    ∧ price <$> products (committed w') !! 10%N = Some 12.
Proof.
  destruct (bulkUpdatePrices_completes
              [{| pu_productId := IdObj 10%N; pu_newPrice := 9;
                  pu_reason := None |};
               {| pu_productId := IdObj 10%N; pu_newPrice := 12;
                  pu_reason := None |}] demo_world)
    as (r & w' & Hrun & Hn & _ & Hres & Hp & _).
  - repeat (constructor;
            [split; [simpl; lia|exists 10%N; split; [done|by eexists]]|]).
    constructor.
  - split; apply (bool_decide_unpack _); by vm_compute.
  - exists r, w'. split; [exact Hrun|]. split; [exact Hn|]. split.
    + apply Forall2_cons_inv_l in Hres as (c1 & t1 & H1 & Hres & ->).
      apply Forall2_cons_inv_l in Hres as (c2 & t2 & H2 & Hres & ->).
      apply Forall2_nil_inv_l in Hres as ->.
      destruct H1 as (o1 & p1 & [= <-] & [= <-] & ->).
      destruct H2 as (o2 & p2 & [= <-] & [= <-] & ->). done.
    + destruct (Hp 10%N (demo_product 7 5) eq_refl) as (p' & -> & Hpr & _).
      simpl. by rewrite Hpr.
Defined.

(** * The connection singleton *)

Lemma db_bind_run {A B} (m : Database.DbM A) (f : A → Database.DbM B)
    (c : Database.Connection) :
  mbind (MBind:=Database.DbM_bind) f m c
  = match m c with
    | (Database.Returned a, c') => f a c'
    | (Database.Thrown e, c') => (Database.Thrown e, c')
    end.
Proof. reflexivity. Qed.

(** The retry loop with [remaining] rounds to go, on a connection that has
    a client: it stops at the first request the server answers, or throws
    at the last round. *)
Lemma retryLoop_run (maxRetries retryDelay : Z) (remaining : nat) :
  ∀ (attempt : Z) (c : Database.Connection),
    is_Some (Database.client c) →
    (1 ≤ remaining)%nat →
    attempt + Z.of_nat remaining = maxRetries + 1 →
    ∃ (a : nat) (c' : Database.Connection),
      (1 ≤ a ≤ remaining)%nat
      ∧ Database.retryLoop remaining attempt maxRetries retryDelay c
        = (if Database.server c (Database.requests c + a - 1)%nat
           then Database.Returned tt
           else Database.Thrown (Database.FailedToConnect maxRetries), c')
      ∧ (∀ i, (i < a - 1)%nat →
           Database.server c (Database.requests c + i)%nat = false)
      ∧ (Database.server c (Database.requests c + a - 1)%nat = false →
         a = remaining)
      ∧ Database.requests c' = (Database.requests c + a)%nat
      ∧ Database.slept c' = Database.slept c + (Z.of_nat a - 1) * retryDelay
      ∧ Database.server c' = Database.server c
      ∧ Database.client c' = Database.client c
      ∧ Database.db c' = Database.db c
      ∧ Database.isConnected c' = Database.isConnected c
      ∧ Database.clients c' = Database.clients c
      ∧ Database.closed c' = Database.closed c.
Proof.
  induction remaining as [|n IH]; intros attempt c [k Hk] Hpos Hsum; [lia|].
  cbn [Database.retryLoop]. rewrite db_bind_run.
  unfold Database.client_connect at 1. rewrite db_bind_run.
  unfold Database.get at 1. cbv beta iota. rewrite Hk.
  unfold Database.request at 1. cbv beta iota.
  destruct (Database.server c (Database.requests c)) eqn:Hanswer.
  - exists 1%nat. eexists. split; [lia|].
    replace (Database.requests c + 1 - 1)%nat with (Database.requests c)
      by lia.
    rewrite Hanswer. split; [reflexivity|]. simpl.
    split; [intros i Hi; lia|]. split; [done|].
    repeat split; try done; lia.
  - destruct (attempt =? maxRetries) eqn:Hlast.
    + exists 1%nat. eexists.
      replace (Database.requests c + 1 - 1)%nat with (Database.requests c)
        by lia.
      rewrite Hanswer. split; [lia|]. split; [reflexivity|]. simpl.
      split; [intros i Hi; lia|]. split; [intros _; lia|].
      repeat split; try done; lia.
    + rewrite db_bind_run. unfold Database.sleep at 1. cbv beta iota.
      match goal with
      | |- context [Database.retryLoop n _ _ _ ?c1] =>
          destruct (IH (attempt + 1) c1) as
            (a & c' & Ha & Hrun & Hfail & Hstop & Hreq & Hslept & Hserver
             & Hclient & Hdb & Hconn & Hclients & Hclosed);
            [by eexists|lia|lia|]
      end.
      simpl in *. exists (S a), c'. split; [lia|].
      rewrite Hrun.
      replace (Database.requests c + S a - 1)%nat
        with (S (Database.requests c) + a - 1)%nat by lia.
      split; [reflexivity|]. split.
      { intros i Hi. destruct i as [|i].
        - by rewrite Nat.add_0_r.
        - replace (Database.requests c + S i)%nat
            with (S (Database.requests c) + i)%nat by lia.
          apply Hfail. lia. }
      split; [intros Hno; f_equal; by apply Hstop|].
      repeat split; try congruence; lia.
Qed.

(** X17. connectWithRetry, on an object that has a client, asks the server
    at most maxRetries times and stops at the first answer.  Between two
    attempts it waits retryDelay, and it does not wait after the last one:
    after [a] attempts it has waited (a - 1) * retryDelay.  It fails, with
    'Failed to connect after maxRetries attempts', only when all maxRetries
    attempts failed.  With maxRetries below 1 it returns at once without
    asking the server. *)
Theorem connectWithRetry_attempts (maxRetries retryDelay : Z)
    (c : Database.Connection) :
  is_Some (Database.client c) →
  (maxRetries < 1 →
   Database.connectWithRetry maxRetries retryDelay c
   = (Database.Returned tt, c))
  ∧ (1 ≤ maxRetries →
     ∃ (a : nat) (c' : Database.Connection),
       1 ≤ Z.of_nat a ≤ maxRetries
       ∧ Database.connectWithRetry maxRetries retryDelay c
         = (if Database.server c (Database.requests c + a - 1)%nat
            then Database.Returned tt
            else Database.Thrown (Database.FailedToConnect maxRetries), c')
       ∧ (∀ i, (i < a - 1)%nat →
            Database.server c (Database.requests c + i)%nat = false)
       ∧ (Database.server c (Database.requests c + a - 1)%nat = false →
          Z.of_nat a = maxRetries)
       ∧ Database.requests c' = (Database.requests c + a)%nat
       ∧ Database.slept c'
         = Database.slept c + (Z.of_nat a - 1) * retryDelay).
Proof.
  intros Hclient. unfold Database.connectWithRetry. split.
  - intros Hlow. by replace (Z.to_nat maxRetries) with 0%nat by lia.
  - intros Hpos.
    destruct (retryLoop_run maxRetries retryDelay (Z.to_nat maxRetries) 1 c
                Hclient ltac:(lia) ltac:(lia))
      as (a & c' & Ha & Hrun & Hfail & Hstop & Hreq & Hslept & _).
    exists a, c'. split; [lia|]. split; [exact Hrun|].
    split; [exact Hfail|]. split; [|done].
    intros Hno. rewrite (Hstop Hno). lia.
Qed.

(** X17, on the sample connection, whose server answers the third
    request: three attempts, 4000 ms of waiting. *)
Lemma connectWithRetry_attempts_witness :
  ∃ c', Database.connectWithRetry 3 2000 demo_connection
        = (Database.Returned tt, c')
        ∧ Database.requests c' = 3%nat
        ∧ Database.slept c' = 4000.
Proof.
  destruct (proj2 (connectWithRetry_attempts 3 2000 demo_connection
                     ltac:(by eexists)) ltac:(lia))
    as (a & c' & Ha & Hrun & Hfail & Hstop & Hreq & Hslept).
  assert (a = 3%nat) as ->.
  { destruct a as [|[|[|[|a]]]]; try lia.
    - by specialize (Hstop eq_refl).
    - by specialize (Hstop eq_refl). }
  exists c'. split; [exact Hrun|]. split; [exact Hreq|]. rewrite Hslept.
  reflexivity.
Defined.

(** X18. connect on an object that is not connected makes a new client and
    asks the server up to 3 times, 2000 ms apart.  When an attempt is
    answered the object is connected, with the Db handle of the new client,
    and a second connect returns the same client at once: no new client, no
    request.  When none is answered it fails with 'Failed to connect after 3
    attempts' after 4000 ms; the new client stays in [client] though
    isConnected is false, and close then does nothing, so that client is
    never closed. *)
Theorem connect_outcomes (c : Database.Connection) :
  Database.isConnected c = false →
  ∃ (a : nat) (c' : Database.Connection),
    (1 ≤ a ≤ 3)%nat
    ∧ Database.connect c
      = (if Database.server c (Database.requests c + a - 1)%nat
         then Database.Returned (Some (Database.clients c))
         else Database.Thrown (Database.FailedToConnect 3), c')
    ∧ Database.client c' = Some (Database.clients c)
    ∧ Database.clients c' = S (Database.clients c)
    ∧ Database.requests c' = (Database.requests c + a)%nat
    ∧ Database.slept c' = Database.slept c + (Z.of_nat a - 1) * 2000
    ∧ if Database.server c (Database.requests c + a - 1)%nat
      then Database.isConnectedToDatabase c' = true
           ∧ Database.db c' = Some (Database.clients c)
           ∧ Database.connect c'
             = (Database.Returned (Some (Database.clients c)), c')
      else a = 3%nat
           ∧ Database.isConnected c' = false
           ∧ Database.db c' = Database.db c
           ∧ Database.close c' = (Database.Returned tt, c').
Proof.
  intros Hoff. unfold Database.connect at 1. rewrite db_bind_run.
  unfold Database.get at 1. cbv beta iota. rewrite Hoff, andb_false_l.
  rewrite db_bind_run. unfold Database.new_MongoClient at 1.
  cbv beta iota. rewrite db_bind_run. unfold Database.connectWithRetry.
  match goal with
  | |- context [Database.retryLoop _ _ _ _ ?c1] =>
      destruct (retryLoop_run 3 2000 (Z.to_nat 3) 1 c1
                  ltac:(by eexists) ltac:(lia) ltac:(lia))
        as (a & c' & Ha & Hrun & _ & Hstop & Hreq & Hslept & Hserver
            & Hclient & Hdb & Hconn & Hclients & Hclosed)
  end.
  cbn [Database.server Database.requests Database.client Database.db
       Database.isConnected Database.slept Database.clients Database.closed]
    in *.
  rewrite Hrun.
  destruct (Database.server c (Database.requests c + a - 1)%nat) eqn:Hans.
  - exists a. eexists. split; [simpl in Ha; lia|]. rewrite Hans.
    rewrite db_bind_run. unfold Database.set_connected at 1.
    cbv beta iota. rewrite db_bind_run. unfold Database.get at 1.
    cbv beta iota.
    cbn [Database.server Database.requests Database.client Database.db
         Database.isConnected Database.slept Database.clients
         Database.closed].
    rewrite Hclient. split; [reflexivity|].
    cbn [Database.server Database.requests Database.client Database.db
         Database.isConnected Database.slept Database.clients
         Database.closed].
    do 4 (split; [done|]).
    unfold Database.isConnectedToDatabase, Database.connect.
    rewrite db_bind_run. unfold Database.get at 1. cbv beta iota.
    cbn [Database.client Database.db Database.isConnected].
    rewrite !bool_decide_eq_true_2 by (by eexists). done.
  - exists a, c'. split; [simpl in Ha; lia|]. rewrite Hans.
    split; [done|]. do 4 (split; [done|]).
    split; [specialize (Hstop eq_refl); simpl in Hstop; lia|].
    split; [congruence|]. split; [done|].
    unfold Database.close. rewrite db_bind_run. unfold Database.get at 1.
    cbv beta iota. rewrite Hclient, Hconn, Hoff. done.
Qed.

(** X18, on a new connection object whose server answers nothing. *)
Lemma connect_outcomes_witness :
  ∃ c', Database.connect (Database.initial (λ _, false))
        = (Database.Thrown (Database.FailedToConnect 3), c')
        ∧ Database.client c' = Some 0%nat
        ∧ Database.slept c' = 4000
        ∧ Database.close c' = (Database.Returned tt, c').
Proof.
  destruct (connect_outcomes (Database.initial (λ _, false)) eq_refl)
    as (a & c' & Ha & Hrun & Hclient & _ & _ & Hslept & Hend).
  simpl in Hrun, Hend. destruct Hend as (-> & _ & _ & Hclose).
  exists c'. split; [exact Hrun|]. split; [exact Hclient|].
  split; [by rewrite Hslept|exact Hclose].
Defined.

(** X19. close on a connected object asks the client to close.  When that
    succeeds the object is reset: it is no longer connected, getCollection
    throws 'Database not connected', ping answers false without asking the
    server, and a second close does nothing.  When it fails the error is
    passed on and client, db and isConnected are as they were. *)
Theorem close_outcomes (c : Database.Connection) (k : nat)
    (collectionName : string) :
  Database.client c = Some k →
  Database.isConnected c = true →
  ∃ c',
    Database.close c
    = (if Database.server c (Database.requests c)
       then Database.Returned tt
       else Database.Thrown Database.CloseFailed, c')
    ∧ if Database.server c (Database.requests c)
      then Database.closed c' = Database.closed c ++ [k]
           ∧ Database.isConnectedToDatabase c' = false
           ∧ Database.getCollection collectionName c'
             = (Database.Thrown Database.DatabaseNotConnected, c')
           ∧ Database.ping c' = (Database.Returned false, c')
           ∧ Database.close c' = (Database.Returned tt, c')
      else Database.client c' = Database.client c
           ∧ Database.db c' = Database.db c
           ∧ Database.isConnected c' = true
           ∧ Database.closed c' = Database.closed c.
Proof.
  intros Hclient Hon. unfold Database.close at 1. rewrite db_bind_run.
  unfold Database.get at 1. cbv beta iota. rewrite Hclient, Hon.
  rewrite db_bind_run. unfold Database.request at 1. cbv beta iota.
  destruct (Database.server c (Database.requests c)).
  - eexists. split; [reflexivity|]. by repeat split.
  - eexists. split; [reflexivity|]. by repeat split.
Qed.

(** X19, on the sample connection once connected. *)
Lemma close_outcomes_witness :
  ∃ c',
    Database.close
      {| Database.client := Some 0%nat; Database.db := Some 0%nat;
         Database.isConnected := true; Database.server := λ _, true;
         Database.requests := 1; Database.slept := 0;
         Database.clients := 1; Database.closed := [] |}
    = (Database.Returned tt, c')
    ∧ Database.closed c' = [0%nat]
    ∧ Database.getCollection "users" c'
      = (Database.Thrown Database.DatabaseNotConnected, c').
Proof.
  destruct (close_outcomes
              {| Database.client := Some 0%nat; Database.db := Some 0%nat;
                 Database.isConnected := true; Database.server := λ _, true;
                 Database.requests := 1; Database.slept := 0;
                 Database.clients := 1; Database.closed := [] |}
              0%nat "users" eq_refl eq_refl)
    as (c' & Hrun & Hclosed & _ & Hget & _).
  exists c'. split; [exact Hrun|]. split; [exact Hclosed|exact Hget].
Defined.

(** * Levels and experience *)

Lemma levelLoop_run (fuel : nat) :
  ∀ xp level,
    0 ≤ level →
    (Z.to_nat xp < fuel)%nat →
    ∃ l x,
      Game.levelLoop fuel xp level = Some (l, x)
      ∧ level ≤ l
      ∧ x < Game.xpForNextLevel l
      ∧ x ≤ xp
      ∧ (0 ≤ xp → 0 ≤ x)
      ∧ (xp < Game.xpForNextLevel level → l = level ∧ x = xp)
      ∧ 2 * (xp - x)
        = 75 * (l * (l - 1) - level * (level - 1)) + 50 * (l - level).
Proof.
  induction fuel as [|fuel IH]; intros xp level Hlevel Hfuel; [lia|].
  simpl. destruct (Game.xpForNextLevel level <=? xp) eqn:Hcond.
  - unfold Game.xpForNextLevel in Hcond.
    destruct (IH (xp - Game.xpForNextLevel level) (level + 1))
      as (l & x & Hrun & Hl & Hx & Hle & Hpos & _ & Hsum);
      [lia|unfold Game.xpForNextLevel; lia|].
    exists l, x. unfold Game.xpForNextLevel in *.
    split; [exact Hrun|]. repeat split; lia.
  - exists level, xp. unfold Game.xpForNextLevel in *.
    split; [done|]. repeat split; lia.
Qed.

(** More tests of the condition than needed change nothing. *)
Lemma levelLoop_more (fuel : nat) :
  ∀ xp level r fuel',
    Game.levelLoop fuel xp level = Some r →
    (fuel ≤ fuel')%nat →
    Game.levelLoop fuel' xp level = Some r.
Proof.
  induction fuel as [|fuel IH]; intros xp level r fuel' Hrun Hle; [done|].
  destruct fuel' as [|fuel']; [lia|]. simpl in *.
  destruct (Game.xpForNextLevel level <=? xp); [|done].
  apply (IH _ _ _ _ Hrun). lia.
Qed.

(** The loop gains at most one level per point. *)
Lemma levelLoop_levels (fuel : nat) :
  ∀ xp level l x,
    0 ≤ level →
    Game.levelLoop fuel xp level = Some (l, x) →
    l ≤ level + Z.max 0 xp.
Proof.
  induction fuel as [|fuel IH]; intros xp level l x Hlevel Hrun; [done|].
  simpl in Hrun. destruct (Game.xpForNextLevel level <=? xp) eqn:Hcond.
  - apply IH in Hrun; [|lia]. unfold Game.xpForNextLevel in *. lia.
  - injection Hrun as <- <-. lia.
Qed.

(** X20. calculateLevel, from a level that is not negative, returns once
    its loop was given more tests than there are points, and the result does
    not depend on how many more.  The level returned is at least the one
    given, and above it by no more than the points given; the points
    returned are fewer than the next level needs, not negative when the
    points given are not, and together with the points the levels passed
    have cost they are the points given.  When the points given are fewer
    than the next level needs, level and points are returned as given.  The
    numbers are safe integers ([levels_exact]). *)
Theorem calculateLevel_result (currentXP currentLevel : Z) :
  0 ≤ currentLevel →
  levels_exact currentXP currentLevel →
  ∃ level xp,
    (∀ fuel, (Z.to_nat currentXP < fuel)%nat →
       Game.calculateLevel fuel currentXP currentLevel = Some (level, xp))
    ∧ currentLevel ≤ level ≤ currentLevel + Z.max 0 currentXP
    ∧ xp < Game.xpForNextLevel level
    ∧ (0 ≤ currentXP → 0 ≤ xp)
    ∧ (currentXP < Game.xpForNextLevel currentLevel →
       level = currentLevel ∧ xp = currentXP)
    ∧ 2 * (currentXP - xp)
      = 75 * (level * (level - 1) - currentLevel * (currentLevel - 1))
        + 50 * (level - currentLevel).
Proof.
  intros Hlevel _.
  destruct (levelLoop_run (S (Z.to_nat currentXP)) currentXP currentLevel
              Hlevel ltac:(lia))
    as (l & x & Hrun & Hl & Hx & _ & Hpos & Hsame & Hsum).
  pose proof (levelLoop_levels _ _ _ _ _ Hlevel Hrun) as Hmost.
  exists l, x. split; [|done].
  intros fuel Hfuel. unfold Game.calculateLevel.
  apply (levelLoop_more _ _ _ _ _ Hrun). lia.
Qed.

(** X20, for 250 points at level 1: level 1 costs 100 and level 2 costs
    175, so the result is level 2 with 150 points. *)
Lemma calculateLevel_result_witness :
  ∃ level xp,
    Game.calculateLevel 300 250 1 = Some (level, xp)
    ∧ 1 ≤ level
    ∧ xp < Game.xpForNextLevel level
    ∧ (level, xp) = (2, 150).
Proof.
  destruct (calculateLevel_result 250 1 ltac:(lia) ltac:(by vm_compute))
    as (level & xp & Hrun & [Hlevel _] & Hxp & _).
  exists level, xp. split; [apply Hrun; lia|]. split; [exact Hlevel|].
  split; [exact Hxp|].
  specialize (Hrun 300%nat ltac:(lia)). vm_compute in Hrun. congruence.
Defined.



(** The loop run on more points goes through the state it reached on
    fewer. *)
Lemma levelLoop_continues (fuel : nat) :
  ∀ xp level l x b r fuel',
    Game.levelLoop fuel xp level = Some (l, x) →
    0 ≤ b →
    Game.levelLoop fuel' (x + b) l = Some r →
    Game.levelLoop (fuel + fuel') (xp + b) level = Some r.
Proof.
  induction fuel as [|fuel IH]; intros xp level l x b r fuel' Hrun Hb Hnext;
    [done|].
  simpl in *. destruct (Game.xpForNextLevel level <=? xp) eqn:Hcond.
  - assert ((Game.xpForNextLevel level <=? xp + b) = true) as -> by lia.
    replace (xp + b - Game.xpForNextLevel level)
      with (xp - Game.xpForNextLevel level + b) by lia.
    by apply (IH _ _ l x).
  - injection Hrun as <- <-.
    apply (levelLoop_more fuel' _ _ _ (S (fuel + fuel'))) in Hnext; [|lia].
    exact Hnext.
Qed.

(** X22. Awards add up: awarding [a] and then [b], which is not negative,
    gives the character that awarding [a + b] at once gives, levels
    included.  The numbers are safe integers: the two awards and their sum,
    the points of the character, and what calculateLevel handles from the
    points after the first award and after both ([levels_exact]). *)
Theorem awardXP_composes (fuel : nat) (a b : Z) (prev : Game.Character) :
  0 ≤ Game.level prev →
  0 ≤ b →
  (Z.to_nat (Game.xp prev + a) + Z.to_nat b < fuel)%nat →
  safe a ∧ safe b ∧ safe (a + b) ∧ safe (Game.xp prev) →
  levels_exact (Game.xp prev + a) (Game.level prev) →
  levels_exact (Game.xp prev + a + b) (Game.level prev) →
  is_Some (Game.awardXP fuel (a + b) prev)
  ∧ Game.awardXP fuel a prev ≫= Game.awardXP fuel b
    = Game.awardXP fuel (a + b) prev.
Proof.
  intros Hlevel Hb Hfuel _ _ _. unfold Game.awardXP. cbv zeta.
  unfold Game.calculateLevel.
  destruct (levelLoop_run fuel (Game.xp prev + a) (Game.level prev)
              Hlevel ltac:(lia))
    as (l1 & x1 & H1 & Hl1 & _ & Hx1 & _).
  destruct (levelLoop_run fuel (x1 + b) l1 ltac:(lia) ltac:(lia))
    as (l2 & x2 & H2 & _).
  destruct (levelLoop_run fuel (Game.xp prev + (a + b)) (Game.level prev)
              Hlevel ltac:(lia))
    as (l3 & x3 & H3 & _).
  pose proof (levelLoop_continues _ _ _ _ _ _ _ _ H1 Hb H2) as H12.
  pose proof (levelLoop_more _ _ _ _ (fuel + fuel)%nat H3 ltac:(lia)) as H3'.
  replace (Game.xp prev + a + b) with (Game.xp prev + (a + b)) in H12
    by lia.
  rewrite H12 in H3'. injection H3' as <- <-.
  rewrite H1, H3. simpl. rewrite H2. split; [by eexists|done].
Qed.

(** X22, for the starting character: 90 points and then 30 are 120 points
    at once, which is level 2 with 20 points. *)
Lemma awardXP_composes_witness :
  Game.awardXP 200 90 Game.defaultCharacter ≫= Game.awardXP 200 30
  = Game.awardXP 200 (90 + 30) Game.defaultCharacter
  ∧ (λ ch, (Game.level ch, Game.xp ch))
      <$> Game.awardXP 200 (90 + 30) Game.defaultCharacter
    = Some (2, 20).
Proof.
  split; [|by vm_compute].
  apply (awardXP_composes 200 90 30 Game.defaultCharacter);
    first [simpl; lia|by vm_compute].
Defined.

(** * Queries by filter *)

Lemma pages_take {A B} (f : A → B) (n : nat) (l : list A) (pages : nat) :
  concat ((λ i, f <$> take n (drop (i * n) l)) <$> seq 0 pages)
  = f <$> take (pages * n) l.
Proof.
  induction pages as [|p IH]; [done|].
  rewrite seq_S, fmap_app, concat_app, IH. simpl.
  rewrite app_nil_r, <- fmap_app, take_take_drop. do 2 f_equal. lia.
Qed.

Section QueryCollection.
Context `{Document D}.

Lemma matching_stored (query : D → bool) (st : Store)
    (scan : list (ObjectId * D)) (id : ObjectId) (d : D) :
  Queries.scans st scan →
  (id, d) ∈ Queries.matching query scan
  ↔ table st !! id = Some d ∧ query d = true.
Proof.
  unfold Queries.scans, Queries.matching. intros Hscan.
  rewrite list_elem_of_filter, Hscan, elem_of_map_to_list. simpl. tauto.
Qed.

Lemma ordered_matching {R} (query : D → bool)
    (options : Queries.FindOptions D R) (scan : list (ObjectId * D)) :
  Queries.ordered query options scan ≡ₚ Queries.matching query scan.
Proof.
  unfold Queries.ordered. destruct (Queries.sort options); [|done].
  apply merge_sort_Permutation.
Qed.

Lemma cursor_sublist {R} (query : D → bool)
    (options : Queries.FindOptions D R) (scan : list (ObjectId * D)) :
  Queries.cursor query options scan
    `sublist_of` Queries.ordered query options scan.
Proof.
  unfold Queries.cursor. cbv zeta.
  destruct (0 <? Queries.limit options);
    destruct (0 <? Queries.skip options); try done.
  - etrans; [apply sublist_take|apply sublist_drop].
  - apply sublist_take.
  - apply sublist_drop.
Qed.

(** With a sort that no two matching documents tie on, the order of the
    cursor does not depend on the scan. *)
Lemma ordered_unique {R} (query : D → bool)
    (options : Queries.FindOptions D R) (st : Store) (le : D → D → bool)
    (scan scan' : list (ObjectId * D)) :
  Queries.sort options = Some le →
  (∀ a b c, le a b = true → le b c = true → le a c = true) →
  (∀ a b, le a b = true ∨ le b a = true) →
  (∀ k1 d1 k2 d2,
     table st !! k1 = Some d1 → table st !! k2 = Some d2 →
     query d1 = true → query d2 = true →
     le d1 d2 = true → le d2 d1 = true → k1 = k2) →
  Queries.scans st scan → Queries.scans st scan' →
  Queries.ordered query options scan = Queries.ordered query options scan'.
Proof.
  intros Hsort Htrans Htotal Hties Hscan Hscan'.
  assert (Transitive (Queries.before le)) as Htr
    by (intros a b c; apply Htrans).
  assert (Total (Queries.before le)) as Hto
    by (intros a b; apply Htotal).
  apply (Sorted_unique_strong (Queries.before le)).
  - intros [k1 d1] [k2 d2] H1 H2 H12 H21.
    rewrite ordered_matching in H1, H2.
    apply (matching_stored _ st) in H1 as [H1 Hq1]; [|done].
    apply (matching_stored _ st) in H2 as [H2 Hq2]; [|done].
    assert (k1 = k2) as -> by (by apply (Hties k1 d1 k2 d2)).
    congruence.
  - unfold Queries.ordered. rewrite Hsort. by apply Sorted_merge_sort.
  - unfold Queries.ordered. rewrite Hsort. by apply Sorted_merge_sort.
  - rewrite !ordered_matching. unfold Queries.matching.
    apply filter_Permutation. unfold Queries.scans in *. by rewrite Hscan.
Qed.

Lemma find_page {R} (query : D → bool) (options : Queries.FindOptions D R)
    (scan : list (ObjectId * D)) (size : Z) (i : nat) :
  0 < size →
  Queries.find query (Queries.page options size i) scan
  = (λ kd, (kd.1, Queries.projection options kd.2))
      <$> take (Z.to_nat size)
            (drop (i * Z.to_nat size) (Queries.ordered query options scan)).
Proof.
  intros Hsize. unfold Queries.find, Queries.cursor. simpl.
 
  assert ((0 <? size) = true) as -> by lia.
  destruct i as [|i].
  - by rewrite Z.mul_0_l.
  - assert ((0 <? Z.of_nat (S i) * size) = true) as ->
      by (apply Z.ltb_lt, Z.mul_pos_pos; lia).
    by rewrite Z2Nat.inj_mul, Nat2Z.id by lia.
Qed.

(** X23. Paging with find under a sort that no two matching documents tie
    on (the order it denotes being transitive and total): for a page size
    above 0, the pages 0, 1, ..., asked with skip = page * size and limit =
    size, each on whatever scan the server makes for it, are consecutive
    stretches of the one sorted list of the matching documents.  Put one
    after the other, the first [pages] of them are the first pages * size
    documents that find without skip and limit returns, and all of them once
    pages * size reaches the count. *)
Theorem find_pages {R} (query : D → bool) (options : Queries.FindOptions D R)
    (le : D → D → bool) (st : Store) (size : Z) (pages : nat)
    (scan : list (ObjectId * D)) (scan_of : nat → list (ObjectId * D)) :
  Queries.sort options = Some le →
  (∀ a b c, le a b = true → le b c = true → le a c = true) →
  (∀ a b, le a b = true ∨ le b a = true) →
  (∀ k1 d1 k2 d2,
     table st !! k1 = Some d1 → table st !! k2 = Some d2 →
     query d1 = true → query d2 = true →
     le d1 d2 = true → le d2 d1 = true → k1 = k2) →
  Queries.scans st scan →
  (∀ i, Queries.scans st (scan_of i)) →
  0 < size →
  concat ((λ i, Queries.find query (Queries.page options size i) (scan_of i))
            <$> seq 0 pages)
  = take (pages * Z.to_nat size)
      (Queries.find query (Queries.whole options) scan)
  ∧ (Queries.count query scan ≤ Z.of_nat pages * size →
     concat ((λ i, Queries.find query (Queries.page options size i)
                     (scan_of i))
               <$> seq 0 pages)
     = Queries.find query (Queries.whole options) scan).
Proof.
  intros Hsort Htrans Htotal Hties Hscan Hscans Hsize.
  assert (Queries.find query (Queries.whole options) scan
          = (λ kd, (kd.1, Queries.projection options kd.2))
              <$> Queries.ordered query options scan) as Hwhole by done.
  assert (concat ((λ i, Queries.find query (Queries.page options size i)
                          (scan_of i))
                    <$> seq 0 pages)
          = take (pages * Z.to_nat size)
              (Queries.find query (Queries.whole options) scan)) as Heq.
  { rewrite Hwhole, <- fmap_take, <- pages_take.
    f_equal. apply list_fmap_ext. intros _ i _.
    rewrite find_page by done.
    by rewrite (ordered_unique query options st le (scan_of i) scan). }
  split; [exact Heq|]. intros Hall. rewrite Heq.
  apply take_ge. rewrite Hwhole, length_fmap, ordered_matching.
  unfold Queries.count in Hall. apply Nat2Z.inj_le.
  by rewrite Nat2Z.inj_mul, Z2Nat.id by lia.
Qed.

(** X24. What find returns, on whatever scan the server makes: the
    projections of stored documents that match the filter, each with its
    _id and none twice, no more than [limit] of them when limit is above 0,
    and in the order of the sort when there is one.  A limit or a skip that
    is 0 or negative is no limit and no skip: find then returns every
    matching document.  count is the number of matching documents, exists
    tells whether there is one, and findOne returns a matching document
    exactly when exists holds. *)
Theorem find_results {R} (query : D → bool)
    (options : Queries.FindOptions D R) (st : Store)
    (scan : list (ObjectId * D)) :
  Queries.scans st scan →
  (∃ docs,
     Queries.find query options scan
     = (λ kd, (kd.1, Queries.projection options kd.2)) <$> docs
     ∧ NoDup docs.*1
     ∧ (∀ id d, (id, d) ∈ docs → table st !! id = Some d ∧ query d = true)
     ∧ (0 < Queries.limit options →
        Z.of_nat (length docs) ≤ Queries.limit options)
     ∧ (Queries.limit options ≤ 0 → Queries.skip options ≤ 0 →
        ∀ id d, table st !! id = Some d → query d = true → (id, d) ∈ docs)
     ∧ (∀ le, Queries.sort options = Some le →
          (∀ a b c, le a b = true → le b c = true → le a c = true) →
          (∀ a b, le a b = true ∨ le b a = true) →
          StronglySorted (Queries.before le) docs))
  ∧ Queries.count query scan
    = Z.of_nat (length (Queries.find query Queries.defaults scan))
  ∧ (Queries.exists_ query scan = true
     ↔ ∃ id d, table st !! id = Some d ∧ query d = true)
  ∧ (∀ id d, Queries.findOne query scan = Some (id, d) →
       table st !! id = Some d ∧ query d = true)
  ∧ (is_Some (Queries.findOne query scan)
     ↔ Queries.exists_ query scan = true).
Proof.
  intros Hscan.
  pose proof (λ id d, matching_stored query st scan id d Hscan) as Hmatch.
  split; [|split; [|split; [|split]]].
  - exists (Queries.cursor query options scan).
    pose proof (cursor_sublist query options scan) as Hsub.
    pose proof (ordered_matching query options scan) as Hord.
    split; [done|]. split; [|split; [|split; [|split]]].
    + apply (sublist_NoDup _ (Queries.ordered query options scan).*1);
        [|by apply fmap_sublist].
      rewrite Hord. unfold Queries.matching.
      apply (sublist_NoDup _ scan.*1);
        [|apply fmap_sublist, sublist_filter].
      unfold Queries.scans in Hscan. rewrite Hscan.
      apply NoDup_fst_map_to_list.
    + intros id d Hin. apply Hmatch. rewrite <- Hord.
      by eapply elem_of_sublist.
    + intros Hlimit. unfold Queries.cursor. cbv zeta.
      assert ((0 <? Queries.limit options) = true) as -> by lia.
      rewrite length_take. lia.
    + intros Hlimit Hskip id d Hd Hq. unfold Queries.cursor. cbv zeta.
      assert ((0 <? Queries.limit options) = false) as -> by lia.
      assert ((0 <? Queries.skip options) = false) as -> by lia.
      rewrite Hord. by apply Hmatch.
    + intros le Hsort Htrans Htotal.
      assert (Transitive (Queries.before le)) as Htr
        by (intros a b c; apply Htrans).
      assert (Total (Queries.before le)) as Hto
        by (intros a b; apply Htotal).
      assert (StronglySorted (Queries.before le)
                (Queries.ordered query options scan)) as Hsorted.
      { unfold Queries.ordered. rewrite Hsort.
        by apply StronglySorted_merge_sort. }
      unfold Queries.cursor. cbv zeta.
     
      set (l := Queries.ordered query options scan) in *.
      assert (∀ n, StronglySorted (Queries.before le) (drop n l)) as Hdrop.
      { intros n. rewrite <- (take_drop n l) in Hsorted.
        by apply StronglySorted_app_1_r in Hsorted. }
      assert (∀ n l', StronglySorted (Queries.before le) l' →
                StronglySorted (Queries.before le) (take n l')) as Htake.
      { intros n l' Hl'. rewrite <- (take_drop n l') in Hl'.
        by apply StronglySorted_app_1_l in Hl'. }
      destruct (0 <? Queries.limit options);
        destruct (0 <? Queries.skip options); auto.
  - unfold Queries.count, Queries.find, Queries.cursor. simpl.
    by rewrite length_fmap.
  - unfold Queries.exists_, Queries.count. rewrite Z.ltb_lt. split.
    + intros Hpos.
      destruct (Queries.matching query scan) as [|[id d] l] eqn:Hl;
        [simpl in Hpos; lia|].
      exists id, d. apply Hmatch, list_elem_of_here.
    + intros (id & d & Hin). apply Hmatch in Hin.
      destruct (Queries.matching query scan);
        [by apply elem_of_nil in Hin|].
      simpl length. lia.
  - intros id d Hone. apply Hmatch. unfold Queries.findOne in Hone.
    destruct (Queries.matching query scan) as [|kd l]; [done|].
    injection Hone as ->. apply list_elem_of_here.
  - unfold Queries.findOne, Queries.exists_, Queries.count.
    rewrite Z.ltb_lt.
    destruct (Queries.matching query scan); simpl head; simpl length.
    + split; [by intros [? ?]|lia].
    + split; [lia|by eexists].
Qed.
End QueryCollection.

(** X23, for the users of the sample store sorted by balance, in pages of
    one, the second page on a scan in the reverse order of the first. *)
Lemma find_pages_witness :
  concat ((λ i, Queries.find (D:=User) (λ _, true)
                  (Queries.page demo_by_balance 1 i)
                  (if Nat.even i then map_to_list (users demo_store)
                   else reverse (map_to_list (users demo_store))))
            <$> seq 0 2)
  = Queries.find (D:=User) (λ _, true) (Queries.whole demo_by_balance)
      (map_to_list (users demo_store))
  ∧ (Queries.find (D:=User) (λ _, true) (Queries.whole demo_by_balance)
       (map_to_list (users demo_store))).*2
    = [20; 500].
Proof.
  split; [|by vm_compute].
  apply (find_pages (D:=User) (λ _, true) demo_by_balance
           (λ a b, balance a <=? balance b) demo_store 1 2
           (map_to_list (users demo_store))
           (λ i, if Nat.even i then map_to_list (users demo_store)
                 else reverse (map_to_list (users demo_store)))
           eq_refl).
  - intros a b c. rewrite !Z.leb_le. lia.
  - intros a b. rewrite !Z.leb_le. lia.
  - intros k1 d1 k2 d2. unfold demo_store. simpl.
    rewrite !lookup_insert.
    repeat case_decide; subst; try done;
      rewrite ?lookup_empty; try done;
      intros [= <-] [= <-] _ _; rewrite !Z.leb_le; simpl; lia.
  - unfold Queries.scans. reflexivity.
  - intros i. unfold Queries.scans.
    destruct (Nat.even i); [done|apply reverse_Permutation].
  - lia.
  - by vm_compute.
Defined.

(** X24, for the users of the sample store with more than 100: at most one
    is found with limit 1, and there is one. *)
Lemma find_results_witness :
  (∃ docs,
     Queries.find (D:=User) (λ u, 100 <? balance u)
       (Queries.page demo_by_balance 1 0) (map_to_list (users demo_store))
     = (λ kd, (kd.1, balance kd.2)) <$> docs
     ∧ Z.of_nat (length docs) ≤ 1)
  ∧ Queries.exists_ (D:=User) (λ u, 100 <? balance u)
      (map_to_list (users demo_store)) = true.
Proof.
  destruct (find_results (D:=User) (λ u, 100 <? balance u)
              (Queries.page demo_by_balance 1 0) demo_store
              (map_to_list (users demo_store))
              (Permutation_refl (map_to_list (users demo_store))))
    as ((docs & Hfind & _ & _ & Hlimit & _) & _ & Hexists & _).
  split.
  - exists docs. split; [exact Hfind|]. apply Hlimit. simpl. lia.
  - apply Hexists. exists 1%N, (demo_user "ann@example.com" 500). by split.
Defined.

(** * processOrder: an order refused at one of its items *)

(** The reservation loop over items that are all there and in stock goes on
    with the items after them, the caller's objects priced so far. *)
Lemma reserveInventory_prefix (pre : list loc) :
  ∀ lns rest acc tot w,
    Forall2 (λ l ln, asks (heap w) (committed w) l = Some ln) pre lns →
    Forall in_stock lns →
    ∃ w1 evs,
      reserveInventory (pre ++ rest) acc tot w
      = reserveInventory rest (acc ++ (update_of <$> lns))
          (tot + order_total lns) w1
      ∧ committed w1 = committed w
      ∧ txn w1 = txn w
      ∧ nextSession w1 = nextSession w
      ∧ trace w1 = trace w ++ evs
      ∧ Forall (λ e, mutation e = false) evs
      ∧ heap w1 = priced_heap (committed w) pre (heap w).
Proof.
  induction pre as [|l pre IH]; intros lns rest acc tot w Hlines Hall.
  - apply Forall2_nil_inv_l in Hlines as ->. exists w, []. simpl.
    rewrite !app_nil_r, Z.add_0_r. by repeat split.
  - apply Forall2_cons_inv_l in Hlines as (ln & lns' & Hln & Hlines & ->).
    apply Forall_cons_1 in Hall as [Hin Hall].
    rewrite <- app_comm_cons, (reserveInventory_step _ _ _ _ _ ln Hln).
    assert ((stock (ln_product ln) <? ln_quantity ln) = false) as ->
      by (unfold in_stock in Hin; lia).
    set (w0 := set_heap _ _).
    destruct (IH lns' rest (acc ++ [update_of ln]) (tot + line_total ln) w0)
      as (w1 & evs & Hrun & Hc & Htx & Hs & Htr & Hev & Hheap); [|done|].
    { eapply Forall2_impl; [|exact Hlines]. intros k ln' Hk. simpl.
      by rewrite asks_alter_priced. }
    exists w1, ([EvGetCollection "products";
                 EvFindOne "products" (ln_oid ln) None] ++ evs).
    rewrite Hrun, <- app_assoc. simpl.
    replace (tot + line_total ln + order_total lns')
      with (tot + order_total (ln :: lns'))
      by (unfold order_total; simpl; lia).
    split; [done|]. rewrite Hc, Htx, Hs, Htr, Hheap. simpl.
    rewrite <- !app_assoc. simpl. do 4 (split; [done|]).
    split; [by repeat constructor|done].
Qed.

(** The step of the loop on an item that is refused. *)
Lemma reserveInventory_refused (l : loc) (post : list loc)
    (acc : list InventoryUpdate) (tot : Z) (w : World) (it : Item)
    (e : Error) :
  heap w !! l = Some it →
  refusal (committed w) it = Some e →
  ∃ w' evs,
    reserveInventory (l :: post) acc tot w = (Throw e, w')
    ∧ committed w' = committed w
    ∧ heap w' = heap w
    ∧ trace w' = trace w ++ evs
    ∧ Forall (λ ev, mutation ev = false) evs.
Proof.
  unfold refusal. intros Hit Hwhy. simpl. rewrite bind_run. unfold deref.
  rewrite Hit. rewrite bind_run, findById_run.
  destruct (objectIdOf (productId it)) as [o|].
  - simpl. destruct (products (committed w) !! o) as [p|]; simpl.
    + destruct (stock p <? quantity it); [|done]. injection Hwhy as <-.
      eexists _, _. split; [reflexivity|]. simpl.
      rewrite <- app_assoc. do 3 (split; [done|]). by repeat constructor.
    + injection Hwhy as <-. eexists _, _. split; [reflexivity|]. simpl.
      rewrite <- app_assoc. do 3 (split; [done|]). by repeat constructor.
  - injection Hwhy as <-. exists w, []. rewrite app_nil_r. by repeat split.
Qed.

(** X25. processOrder stops at the first item it refuses, and that item
    decides the error: InvalidIdentifier for a malformed product identifier,
    'Product not found' for one that names no stored product, OutOfStock when
    the stock is less than the quantity.  The committed store is unchanged
    and no mutation was asked of the driver; but the caller's items that come
    before the refused one have been given their price and total, and stay
    so.  The numbers of the lines before the refused item are safe integers
    ([lines_exact]), and so are the quantity of that item and the stock it
    is compared with. *)
Theorem processOrder_refused_at_item (orderData : OrderData)
    (pre post : list loc) (l : loc) (w : World) (buyer : ObjectId) (u : User)
    (lns : list Line) (it : Item) (e : Error) :
  objectIdOf (od_userId orderData) = Some buyer →
  users (committed w) !! buyer = Some u →
  Forall2 (λ l ln, asks (heap w) (committed w) l = Some ln) pre lns →
  Forall in_stock lns →
  heap w !! l = Some it →
  refusal (committed w) it = Some e →
  lines_exact lns →
  safe (quantity it) →
  (∀ o p, objectIdOf (productId it) = Some o →
     products (committed w) !! o = Some p → safe (stock p)) →
  fails_clean (processOrder orderData (pre ++ l :: post)) w e
  ∧ heap (processOrder orderData (pre ++ l :: post) w).2
    = priced_heap (committed w) pre (heap w).
Proof.
  intros Hbuyer Hu Hlines Hall Hit Hwhy _ _ _.
  unfold fails_clean, processOrder.
  rewrite withTransaction_run. cbv beta.
  rewrite bind_run, (findById_read _ buyer _ Hbuyer). simpl. rewrite Hu.
  simpl. rewrite bind_run.
  set (w0 := log _ (log _ (opened w))).
  destruct (reserveInventory_prefix pre lns (l :: post) [] 0 w0 Hlines Hall)
    as (w1 & evs & Hrun & Hc & Htx & Hs & Htr & Hev & Hheap).
  rewrite Hrun.
  assert (∃ it1, heap w1 !! l = Some it1
                 ∧ refusal (committed w1) it1 = Some e) as (it1 & Hit1 & Hwhy1).
  { rewrite Hheap, Hc, priced_heap_lookup. simpl. rewrite Hit.
    destruct (decide (l ∈ pre)); simpl; eexists;
      (split; [reflexivity|]); [|done].
    unfold refusal. by destruct (priced_fields (committed w) it) as [-> ->]. }
  destruct (reserveInventory_refused l post ([] ++ (update_of <$> lns))
              (0 + order_total lns) w1 it1 e Hit1 Hwhy1) as
    (w2 & evs2 & Hrun2 & Hc2 & Hheap2 & Htr2 & Hev2).
  rewrite Hrun2. simpl. split.
  - eexists _, _. split; [reflexivity|]. simpl.
    rewrite Hc2, Hc, Htr2, Htr. simpl. rewrite <- !app_assoc. simpl.
    split; [done|]. split; [reflexivity|].
    repeat (constructor; [done|]). apply Forall_app. split; [done|].
    apply Forall_app. split; [done|]. by repeat constructor.
  - by rewrite Hheap2, Hheap.
Qed.

(** X25, on the sample world: the order of items 0 and 2 is refused at item
    2, which asks for 6 of a product with 5 in stock; item 0 stays priced. *)
Lemma processOrder_refused_at_item_witness :
  fails_clean (processOrder demo_order ([0%N] ++ 2%N :: [])) demo_world
    OutOfStock
  ∧ heap (processOrder demo_order ([0%N] ++ 2%N :: []) demo_world).2 !! 0%N
    = Some (set_item_price 7 14 (demo_item 10 2)).
Proof.
  destruct (processOrder_refused_at_item demo_order [0%N] [] 2%N demo_world
              1%N (demo_user "ann@example.com" 500)
              [demo_line 10 2 (demo_product 7 5)]
              (demo_item 10 6) OutOfStock eq_refl eq_refl
              ltac:(repeat (constructor; [reflexivity|]); constructor)
              ltac:(repeat (constructor; [unfold in_stock; simpl; lia|]);
                    constructor)
              eq_refl eq_refl
              ltac:(apply (bool_decide_unpack _); by vm_compute)
              ltac:(by vm_compute))
    as [Hfails Hheap].
  { intros o p [= <-] [= <-]. by vm_compute. }
  split; [exact Hfails|]. rewrite Hheap. reflexivity.
Defined.

(** * Quests and levels *)

Lemma questXP_range (random : Q) :
  (0 <= random)%Q → (random < 1)%Q →
  Game.questXP random = Qfloor (random * inject_Z 30) + 5
  ∧ 5 ≤ Game.questXP random ≤ 34.
Proof.
  intros Hlow Hhigh. unfold Game.questXP.
  assert (0 ≤ Qfloor (random * inject_Z 30)) as H0.
  { change 0 with (Qfloor (inject_Z 0)) at 1. apply Qfloor_resp_le.
    apply Qmult_le_0_compat; [done|]. unfold Qle. simpl. lia. }
  assert (Qfloor (random * inject_Z 30) < 30) as H30.
  { rewrite Zlt_Qlt. eapply Qle_lt_trans; [apply Qfloor_le|].
    rewrite <- (Qmult_1_l (inject_Z 30)) at 2.
    apply Qmult_lt_compat_r; [|done]. unfold Qlt. simpl. lia. }
  lia.
Qed.

(** X26. A quest made by addQuest is worth between 5 and 34 points (the
    Math.max never decides), and completing it raises a character that is in
    range by one level at most. *)
Theorem quest_raises_one_level (fuel : nat) (random : Q)
    (prev : Game.Character) :
  (0 <= random)%Q → (random < 1)%Q →
  in_range prev →
  (Z.to_nat (Game.xp prev + Game.questXP random) < fuel)%nat →
  5 ≤ Game.questXP random ≤ 34
  ∧ ∃ next,
      Game.awardXP fuel (Game.questXP random) prev = Some next
      ∧ (Game.level next = Game.level prev
         ∨ Game.level next = Game.level prev + 1).
Proof.
  intros Hlow Hhigh (Hlevel & Hxp & Hnext) Hfuel.
  destruct (questXP_range random Hlow Hhigh) as [_ Hq].
  split; [exact Hq|]. unfold Game.awardXP, Game.calculateLevel. cbv zeta.
  unfold Game.xpForNextLevel in Hnext.
  destruct fuel as [|[|fuel]]; [lia| |].
  - simpl. unfold Game.xpForNextLevel.
    assert ((100 + (Game.level prev - 1) * 75
             <=? Game.xp prev + Game.questXP random) = false) as -> by lia.
    eexists. split; [reflexivity|]. by left.
  - simpl. unfold Game.xpForNextLevel.
    destruct (100 + (Game.level prev - 1) * 75
              <=? Game.xp prev + Game.questXP random) eqn:Hup.
    + assert ((100 + (Game.level prev + 1 - 1) * 75
               <=? Game.xp prev + Game.questXP random
                   - (100 + (Game.level prev - 1) * 75)) = false) as ->
        by lia.
      eexists. split; [reflexivity|]. by right.
    + eexists. split; [reflexivity|]. by left.
Qed.

(** X26, for the starting character given 90 points, and a quest drawn at
    one half: 20 points, which make level 2. *)
Lemma quest_raises_one_level_witness :
  ∃ next,
    Game.awardXP 200 (Game.questXP (1 # 2))
      {| Game.name := "You"; Game.level := 1; Game.xp := 90;
         Game.attributes := Game.attributes Game.defaultCharacter |}
    = Some next
    ∧ Game.level next = 2.
Proof.
  destruct (quest_raises_one_level 200 (1 # 2)
              {| Game.name := "You"; Game.level := 1; Game.xp := 90;
                 Game.attributes := Game.attributes Game.defaultCharacter |})
    as (_ & next & Hrun & _).
  - done.
  - done.
  - unfold in_range, Game.xpForNextLevel. simpl. lia.
  - vm_compute. lia.
  - exists next. split; [exact Hrun|].
    vm_compute in Hrun. by injection Hrun as <-.
Defined.

(** * processOrder: the buyer is checked first *)

(** X27. processOrder looks the buyer up before it looks at any item.  For
    a buyer identifier that is malformed it fails with InvalidIdentifier, and
    for one that names no stored user with 'User not found', whatever the
    items are; the committed store and the caller's items are unchanged, and
    the only read the driver was asked for is that of the user. *)
Theorem processOrder_checks_buyer_first (orderData : OrderData)
    (ls : list loc) (w : World) :
  (malformed (od_userId orderData) →
   ∃ w', processOrder orderData ls w = (Throw InvalidIdentifier, w')
         ∧ committed w' = committed w
         ∧ heap w' = heap w
         ∧ trace w'
           = trace w ++ [EvStartSession (nextSession w);
                         EvStartTransaction (nextSession w);
                         EvAbort (nextSession w);
                         EvEndSession (nextSession w)])
  ∧ (∀ buyer,
       objectIdOf (od_userId orderData) = Some buyer →
       users (committed w) !! buyer = None →
       ∃ w', processOrder orderData ls w
             = (Throw (NotFound "User not found"), w')
             ∧ committed w' = committed w
             ∧ heap w' = heap w
             ∧ trace w'
               = trace w ++ [EvStartSession (nextSession w);
                             EvStartTransaction (nextSession w);
                             EvGetCollection "users";
                             EvFindOne "users" buyer None;
                             EvAbort (nextSession w);
                             EvEndSession (nextSession w)]).
Proof.
  unfold malformed, processOrder. rewrite withTransaction_run. cbv beta.
  rewrite bind_run, findById_run. split.
  - intros ->. eexists. split; [reflexivity|]. simpl.
    by rewrite <- !app_assoc.
  - intros buyer -> Hnone. simpl. rewrite Hnone. simpl.
    eexists. split; [reflexivity|]. simpl. by rewrite <- !app_assoc.
Qed.

(** X27, on the sample world: an order for a user that is not stored, with
    an item that could be served. *)
Lemma processOrder_checks_buyer_first_witness :
  ∃ w',
    processOrder {| od_userId := IdObj 99%N; od_shippingAddress := "" |}
      [0%N] demo_world
    = (Throw (NotFound "User not found"), w')
    ∧ committed w' = committed demo_world
    ∧ heap w' = heap demo_world.
Proof.
  destruct (proj2 (processOrder_checks_buyer_first
                     {| od_userId := IdObj 99%N; od_shippingAddress := "" |}
                     [0%N] demo_world) 99%N eq_refl eq_refl)
    as (w' & Hrun & Hc & Hh & _).
  exists w'. split; [exact Hrun|]. split; [exact Hc|exact Hh].
Defined.
